(** * personal-blog: the book-registry updater and the article converter

    A shallow embedding of [book-reviews/update_book_registry.py] and
    [blog/md_to_html.py], and the properties of their parsing, rendering
    and splicing code.

    Python's [str] is a sequence of Unicode code points: a string is a
    [list N].  The parts of the Python library the two scripts call
    ([str.strip], [str.split], [html.escape], [re.sub],
    [datetime.strptime], ...) are embedded next to the code that uses
    them; tables of the Unicode database that only matter outside ASCII
    are section variables. *)

From Stdlib Require Import Strings.Ascii Strings.String.
From Stdlib Require Import List NArith Bool Arith Lia.
Import ListNotations.

Set Implicit Arguments.

(* ================================================================== *)
(** * Python strings *)
(* ================================================================== *)

Module PyStr.

Local Open Scope N_scope.

Definition char := N.
Definition str := list char.

(** An ASCII literal of the source, as code points. *)
Definition lit (s : string) : str :=
  map N_of_ascii (list_ascii_of_string s).

(** One ASCII character of the source. *)
Definition ch (a : ascii) : char := N_of_ascii a.

(** Characters that cannot be typed inside a literal here. *)
Definition dq : char := 34%N.          (* the double quote *)
Definition bs : char := 92%N.          (* the backslash *)
Definition nl : char := 10%N.          (* the line feed *)
Definition emdash : char := 8212%N.    (* U+2014 *)
Definition check_mark : char := 10003%N.   (* U+2713 *)
Definition ballot_x : char := 10007%N.     (* U+2717 *)

Definition in_range (lo hi c : char) : bool := ((lo <=? c) && (c <=? hi))%N.

(** [str.isspace] on one character (Py_UNICODE_ISSPACE); the regular
    expression class [\s] on [str] patterns is the same set. *)
Definition is_space (c : char) : bool :=
  in_range 9 13 c || in_range 28 32 c || (c =? 133)%N || (c =? 160)%N
  || (c =? 5760)%N || in_range 8192 8202 c || (c =? 8232)%N || (c =? 8233)%N
  || (c =? 8239)%N || (c =? 8287)%N || (c =? 12288)%N.

Definition is_ascii (c : char) : bool := (c <? 128)%N.
Definition is_ascii_digit (c : char) : bool := in_range 48 57 c.
Definition is_ascii_upper (c : char) : bool := in_range 65 90 c.
Definition is_ascii_lower (c : char) : bool := in_range 97 122 c.
Definition is_ascii_letter (c : char) : bool := is_ascii_upper c || is_ascii_lower c.

Fixpoint eqb (a b : str) : bool :=
  match a, b with
  | [], [] => true
  | x :: a', y :: b' => (x =? y)%N && eqb a' b'
  | _, _ => false
  end.

(** [s.startswith(p)] *)
Fixpoint startswith (p s : str) : bool :=
  match p with
  | [] => true
  | x :: p' =>
      match s with
      | [] => false
      | y :: s' => (x =? y)%N && startswith p' s'
      end
  end.

(** [s.lstrip(chars)], [s.rstrip(chars)] and [s.strip(chars)] for a set of
    characters given as a predicate; with no argument the set is the
    white space. *)
Fixpoint lstrip_of (p : char -> bool) (s : str) : str :=
  match s with
  | [] => []
  | c :: s' => if p c then lstrip_of p s' else s
  end.

Definition rstrip_of (p : char -> bool) (s : str) : str :=
  rev (lstrip_of p (rev s)).

Definition strip_of (p : char -> bool) (s : str) : str :=
  rstrip_of p (lstrip_of p s).

Definition strip (s : str) : str := strip_of is_space s.

(** [s.split(sep)] for a non-empty separator: the pieces between the
    occurrences of [sep], found from the left without overlap.  [skip]
    counts the characters of a separator just found that are still to be
    passed over; [cur] is the piece being read, reversed. *)
Fixpoint split_from (sep : str) (skip : nat) (cur : str) (s : str) : list str :=
  match s with
  | [] => [rev cur]
  | c :: s' =>
      match skip with
      | S k => split_from sep k cur s'
      | O =>
          if startswith sep s
          then rev cur :: split_from sep (length sep - 1)%nat [] s'
          else split_from sep 0 (c :: cur) s'
      end
  end.

Definition split (sep s : str) : list str := split_from sep 0 [] s.

(** [sep.join(parts)] *)
Fixpoint join (sep : str) (parts : list str) : str :=
  match parts with
  | [] => []
  | [p] => p
  | p :: rest => p ++ sep ++ join sep rest
  end.

(** [s.replace(old, new)] for a one-character [old]. *)
Definition replace_char (old : char) (new : str) (s : str) : str :=
  flat_map (fun c => if (c =? old)%N then new else [c]) s.

(** Decimal digits of a number, as [str(n)] and [%d] print them. *)
Definition digit_char (d : N) : char := (48 + d)%N.

Fixpoint decimal_digits (fuel : nat) (n : N) (acc : str) : str :=
  match fuel with
  | O => acc
  | S f =>
      let acc' := digit_char (n mod 10) :: acc in
      if (n <? 10)%N then acc' else decimal_digits f (n / 10) acc'
  end.

Definition str_of_N (n : N) : str :=
  decimal_digits (S (N.to_nat (N.log2 n))) n [].

(** [f.readlines()] on decoded text: each line keeps its line feed. *)
Fixpoint readlines_from (cur : str) (s : str) : list str :=
  match s with
  | [] => match cur with [] => [] | _ => [rev cur] end
  | c :: s' =>
      if (c =? nl)%N then rev (c :: cur) :: readlines_from [] s'
      else readlines_from (c :: cur) s'
  end.

Definition readlines (s : str) : list str := readlines_from [] s.

(** [enumerate(xs, start)] *)
Fixpoint enumerate {A} (start : nat) (xs : list A) : list (nat * A) :=
  match xs with
  | [] => []
  | x :: xs' => (start, x) :: enumerate (S start) xs'
  end.

End PyStr.
Import PyStr.

(* ================================================================== *)
(** * Regular expressions: the part of Python's [re] the scripts use *)
(* ================================================================== *)

(** The patterns of the two scripts are built from literals, character
    classes, greedy and lazy repetition of a class, sequence,
    alternation, optional groups and capturing groups.  [rmatch] is the
    backtracking matcher of [re], in continuation-passing style: the
    alternatives are tried in Python's order and the first complete match
    wins. *)

Module Re.

Inductive regex : Type :=
| Lit (l : str)                              (* literal text *)
| Cls (p : char -> bool)                     (* one character of a class *)
| Star (greedy : bool) (p : char -> bool)    (* [p*] or [p*?] *)
| Seq (r1 r2 : regex)
| Alt (r1 r2 : regex)                        (* [r1|r2] *)
| Opt (r : regex)                            (* [(?:r)?] *)
| Group (n : nat) (r : regex).               (* capturing group number [n] *)

Notation "r1 ;; r2" := (Seq r1 r2) (at level 61, right associativity).

Definition any_char (_ : char) : bool := true.     (* [.] under DOTALL *)
Definition Plus (p : char -> bool) : regex := Cls p ;; Star true p.

(** The state of a match: the offset reached, counted from the start of
    the match, and the spans of the groups closed so far. *)
Record mstate : Type := MState { pos : nat; caps : list (nat * (nat * nat)) }.

Definition advance (n : nat) (st : mstate) : mstate :=
  MState (pos st + n) (caps st).

Definition set_cap (n b e : nat) (st : mstate) : mstate :=
  MState (pos st) ((n, (b, e)) :: caps st).

Fixpoint get_cap (n : nat) (cs : list (nat * (nat * nat))) : option (nat * nat) :=
  match cs with
  | [] => None
  | (m, span) :: cs' => if Nat.eqb n m then Some span else get_cap n cs'
  end.

Section Matcher.

Variable R : Type.
Definition cont : Type := mstate -> str -> option R.

Fixpoint star (greedy : bool) (p : char -> bool) (k : cont)
         (st : mstate) (s : str) {struct s} : option R :=
  if greedy then
    match s with
    | c :: s' =>
        if p c then
          match star greedy p k (advance 1 st) s' with
          | Some x => Some x
          | None => k st s
          end
        else k st s
    | [] => k st s
    end
  else
    match k st s with
    | Some x => Some x
    | None =>
        match s with
        | c :: s' => if p c then star greedy p k (advance 1 st) s' else None
        | [] => None
        end
    end.

Fixpoint rmatch (r : regex) (k : cont) (st : mstate) (s : str) : option R :=
  match r with
  | Lit l =>
      if startswith l s then k (advance (length l) st) (skipn (length l) s)
      else None
  | Cls p =>
      match s with
      | c :: s' => if p c then k (advance 1 st) s' else None
      | [] => None
      end
  | Star g p => star g p k st s
  | Seq r1 r2 => rmatch r1 (rmatch r2 k) st s
  | Alt r1 r2 =>
      match rmatch r1 k st s with
      | Some x => Some x
      | None => rmatch r2 k st s
      end
  | Opt r1 =>
      match rmatch r1 k st s with
      | Some x => Some x
      | None => k st s
      end
  | Group n r1 =>
      rmatch r1 (fun st' s' => k (set_cap n (pos st) (pos st') st') s') st s
  end.

End Matcher.

(** [pattern.match(s)]: a match at the start of [s], as the final state. *)
Definition match_at (r : regex) (s : str) : option mstate :=
  rmatch r (fun st _ => Some st) (MState 0 []) s.

(** [m.group(n)] of a match found at the start of [s]; a group that took
    no part in the match is the empty string in a replacement. *)
Definition group_text (s : str) (st : mstate) (n : nat) : str :=
  match n with
  | O => firstn (pos st) s
  | _ =>
      match get_cap n (caps st) with
      | Some (b, e) => firstn (e - b) (skipn b s)
      | None => []
      end
  end.

(** ** Replacement templates ([re._parser.parse_template]) *)

Inductive titem : Type :=
| TChar (c : char)
| TGroup (n : nat).

Inductive tstate : Type :=
| TNormal
| TEsc                       (* after a backslash *)
| TG                         (* after [\g] *)
| TName (acc : str)          (* inside [\g<], the name read so far, reversed *)
| TZero (ds : list N)        (* after [\0] and the octal digits [ds] *)
| TDig (c : N)               (* after [\c], [c] a digit 1-9 *)
| TDig2 (c d : N).           (* after [\cd], both octal digits *)

Local Open Scope N_scope.

Definition is_oct (c : char) : bool := in_range 48 55 c.
Definition dval (c : char) : N := c - 48.

Definition escape_code (c : char) : option char :=
  if c =? 97 then Some 7          (* \a *)
  else if c =? 98 then Some 8     (* \b *)
  else if c =? 102 then Some 12   (* \f *)
  else if c =? 110 then Some 10   (* \n *)
  else if c =? 114 then Some 13   (* \r *)
  else if c =? 116 then Some 9    (* \t *)
  else if c =? 118 then Some 11   (* \v *)
  else if c =? 92 then Some 92    (* \\ *)
  else None.

Fixpoint oct_value (ds : list N) (acc : N) : N :=
  match ds with
  | [] => acc
  | d :: ds' => oct_value ds' (8 * acc + d)
  end.

Fixpoint dec_value (ds : str) (acc : N) : N :=
  match ds with
  | [] => acc
  | d :: ds' => dec_value ds' (10 * acc + dval d)
  end.

Section Template.

(** [groups] is the number of groups of the pattern.  [exotic_name]
    gives the group a name of [\g<...>] stands for when the name is not a
    plain run of ASCII digits (a signed or padded number in the versions
    of Python that accept one), and [None] when the name is refused. *)
Variable groups : nat.
Variable exotic_name : str -> option N.

Definition addgroup (index : N) : option (list titem) :=
  if N.of_nat groups <? index then None else Some [TGroup (N.to_nat index)].

Definition group_of_name (name : str) : option N :=
  match name with
  | [] => None
  | _ =>
      if forallb is_ascii_digit name then Some (dec_value name 0)
      else exotic_name name
  end.

Definition normal_step (c : char) : list titem * tstate :=
  if c =? bs then ([], TEsc) else ([TChar c], TNormal).

(** One character of the template: the items it completes and the next
    state, or [None] for [re.error]. *)
Definition tstep (q : tstate) (c : char) : option (list titem * tstate) :=
  match q with
  | TNormal => Some (normal_step c)
  | TEsc =>
      if c =? 103 then Some ([], TG)
      else if c =? 48 then Some ([], TZero [])
      else if is_ascii_digit c then Some ([], TDig (dval c))
      else
        match escape_code c with
        | Some e => Some ([TChar e], TNormal)
        | None =>
            if is_ascii_letter c then None
            else Some ([TChar bs; TChar c], TNormal)
        end
  | TG => if c =? 60 then Some ([], TName []) else None
  | TName acc =>
      if c =? 62 then
        match group_of_name (rev acc) with
        | Some index =>
            match addgroup index with
            | Some items => Some (items, TNormal)
            | None => None
            end
        | None => None
        end
      else Some ([], TName (c :: acc))
  | TZero ds =>
      if is_oct c then
        match ds with
        | [] => Some ([], TZero [dval c])
        | _ => Some ([TChar (oct_value (ds ++ [dval c]) 0 mod 256)], TNormal)
        end
      else
        let (items, q') := normal_step c in
        Some (TChar (oct_value ds 0 mod 256) :: items, q')
  | TDig d1 =>
      if is_ascii_digit c then
        if (d1 <? 8) && is_oct c then Some ([], TDig2 d1 (dval c))
        else
          match addgroup (10 * d1 + dval c) with
          | Some items => Some (items, TNormal)
          | None => None
          end
      else
        match addgroup d1 with
        | Some items =>
            let (items', q') := normal_step c in Some (items ++ items', q')
        | None => None
        end
  | TDig2 d1 d2 =>
      if is_oct c then
        let v := 64 * d1 + 8 * d2 + dval c in
        if 255 <? v then None else Some ([TChar v], TNormal)
      else
        match addgroup (10 * d1 + d2) with
        | Some items =>
            let (items', q') := normal_step c in Some (items ++ items', q')
        | None => None
        end
  end.

(** The end of the template. *)
Definition tfinish (q : tstate) : option (list titem) :=
  match q with
  | TNormal => Some []
  | TEsc | TG | TName _ => None
  | TZero ds => Some [TChar (oct_value ds 0 mod 256)]
  | TDig d1 => addgroup d1
  | TDig2 d1 d2 => addgroup (10 * d1 + d2)
  end.

Fixpoint tparse (q : tstate) (s : str) : option (list titem) :=
  match s with
  | [] => tfinish q
  | c :: s' =>
      match tstep q c with
      | None => None
      | Some (items, q') =>
          match tparse q' s' with
          | None => None
          | Some rest => Some (items ++ rest)
          end
      end
  end.

Definition parse_template (repl : str) : option (list titem) :=
  tparse TNormal repl.

End Template.

Local Close Scope N_scope.

Definition expand_item (s : str) (st : mstate) (i : titem) : str :=
  match i with
  | TChar c => [c]
  | TGroup n => group_text s st n
  end.

(** [m.expand(template)] for a match at the start of [s]. *)
Definition expand (tpl : list titem) (s : str) (st : mstate) : str :=
  flat_map (expand_item s st) tpl.

(** The scan of [re.sub]: at each offset from the left a match is tried;
    a match is replaced by the expanded template and the scan goes on
    after it, any other character is copied.  [skip] counts the
    characters of the last match still to be passed over. *)
Fixpoint sub_loop (r : regex) (tpl : list titem) (skip : nat) (s : str) : str :=
  match s with
  | [] =>
      match skip with
      | O =>
          match match_at r [] with
          | Some st => expand tpl [] st
          | None => []
          end
      | S _ => []
      end
  | c :: s' =>
      match skip with
      | S k => sub_loop r tpl k s'
      | O =>
          match match_at r s with
          | Some st =>
              expand tpl s st ++
              match pos st with
              | O => c :: sub_loop r tpl 0 s'
              | S n => sub_loop r tpl n s'
              end
          | None => c :: sub_loop r tpl 0 s'
          end
      end
  end.

(** [re.sub(pattern, repl, s)]; [None] is the exception raised for a
    replacement template that does not parse. *)
Definition sub (exotic_name : str -> option N) (r : regex) (groups : nat)
           (repl : str) (s : str) : option str :=
  match parse_template groups exotic_name repl with
  | None => None
  | Some tpl => Some (sub_loop r tpl 0 s)
  end.

End Re.
Import Re.

(* ================================================================== *)
(** * What the Python runtime leaves open *)
(* ================================================================== *)

(** Tables of the Unicode database outside ASCII, and two points on which
    versions and platforms of Python differ.  Every property below holds
    for each choice of them. *)
Class Runtime : Type := {
  (* [str.lower] on a string that has a non-ASCII character *)
  lower_nonascii : str -> str;
  (* [str.isalnum] on a non-ASCII character *)
  alnum_nonascii : char -> bool;
  (* the value of a non-ASCII decimal digit, [None] for any other character *)
  decimal_nonascii : char -> option N;
  (* a decimal digit has a value below ten and is not white space *)
  decimal_nonascii_digit :
    forall c d, decimal_nonascii c = Some d -> (d < 10)%N /\ is_space c = false;
  (* [%Y] of [strftime] for a year below 1000, as the C library prints it *)
  strftime_small_year : N -> str;
  (* the group a name of [\g<...>] that is not a plain ASCII number stands for *)
  group_name_index : str -> option N
}.

(** A runtime that knows ASCII only. *)
Definition ascii_runtime : Runtime := {|
  lower_nonascii := fun s => s;
  alnum_nonascii := fun _ => false;
  decimal_nonascii := fun _ => None;
  decimal_nonascii_digit := fun c d (H : None = Some d) => ltac:(discriminate H);
  strftime_small_year := str_of_N;
  group_name_index := fun _ => None
|}.

(** A literal of the source in which every apostrophe stands for a double
    quote: the HTML literals of the scripts have double quotes and no
    apostrophe. *)
Definition qlit (s : string) : str :=
  map (fun c => if (c =? ch "'")%N then dq else c) (lit s).

Definition sp (n : nat) : str := repeat (ch " ") n.

(** What a function call comes to: a value, or an exception that nothing
    catches. *)
Inductive outcome (A : Type) : Type :=
| Returned (a : A)
| Uncaught.
Arguments Uncaught {A}.

(** The exit status of the interpreter when the script ends with
    [sys.exit(code)] or with an uncaught exception. *)
Definition exit_status (o : outcome N) : N :=
  match o with
  | Returned code => code
  | Uncaught => 1%N
  end.

(** How the block of a script that writes a file and then prints its
    line of success fails, when it does: [open] raises, and the file is
    as it was; the file is opened, which empties it, and writing or
    closing raises, and the file holds what reached it; or the file is
    written and [print] raises.  The handler of the block catches all
    three, prints its line of error and the function returns.  Outside
    such a block, and in its handler, [print] is taken to succeed. *)
Inductive write_failure : Type :=
| OpenRaised
| WriteRaised (kept : str)
| PrintRaised.

(* ================================================================== *)
(** * book-reviews/update_book_registry.py *)
(* ================================================================== *)

Module BookRegistry.

Record Book : Type := {
  rating : str;
  date_read : str;
  title : str;
  author : str;
  description : str
}.

Definition DELIM : str := lit " - ".

(** [parse_book_line(line)]: the record, or [None], and the lines printed. *)
Definition parse_book_line (line : str) : option Book * list str :=
  let line := strip line in
  match line with
  | [] => (None, [])
  | _ =>
      let parts := map strip (split DELIM line) in
      if (length parts <? 5)%nat then
        (None,
         [lit "Warning: Invalid format in line: " ++ line;
          lit "Expected format: rating - date - title - author - description"])
      else
        (Some {| rating := nth 0 parts [];
                 date_read := nth 1 parts [];
                 title := nth 2 parts [];
                 author := nth 3 parts [];
                 description := join DELIM (skipn 4 parts) |},
         [])
  end.

(** [format_date(date_str)] of this script keeps the date as it is. *)
Definition format_date (date_str : str) : str := date_str.

(** [html.escape(s)], with [quote=True]. *)
Definition html_escape (s : str) : str :=
  let s := replace_char (ch "&") (lit "&amp;") s in
  let s := replace_char (ch "<") (lit "&lt;") s in
  let s := replace_char (ch ">") (lit "&gt;") s in
  let s := replace_char dq (lit "&quot;") s in
  let s := replace_char (ch "'") (lit "&#x27;") s in
  s.

Definition summary_item (book : Book) : str :=
  let title_escaped := html_escape (title book) in
  let author_escaped := html_escape (author book) in
  let rating_escaped := html_escape (rating book) in
  let date_escaped := html_escape (format_date (date_read book)) in
  sp 16 ++ lit "<li>" ++ rating_escaped ++ [ch " "; emdash; ch " "] ++ date_escaped
  ++ [ch " "; emdash; ch " "] ++ lit "<strong>" ++ title_escaped
  ++ lit "</strong> by " ++ author_escaped ++ lit "</li>".

Definition detail_item (book : Book) : str :=
  let title_escaped := html_escape (title book) in
  let author_escaped := html_escape (author book) in
  let description_escaped := html_escape (description book) in
  sp 16 ++ lit "<li>" ++ [nl]
  ++ sp 20 ++ qlit "<span class='book-title-author'><strong>" ++ title_escaped
  ++ lit "</strong> by " ++ author_escaped ++ lit "</span>" ++ [nl]
  ++ sp 20 ++ qlit "<div class='book-description'>" ++ description_escaped
  ++ lit "</div>" ++ [nl]
  ++ sp 16 ++ lit "</li>".

(** [generate_book_html(books)]: the summary list and the details list. *)
Definition generate_book_html (books : list Book) : str * str :=
  match books with
  | [] => ([], [])
  | _ =>
      let summary_items := map summary_item books in
      let summary_html := join [nl] summary_items in
      let detail_items := map detail_item books in
      let detail_html := join [nl] detail_items in
      (summary_html, detail_html)
  end.

(** The two patterns of [update_book_registry], compiled with DOTALL. *)
Definition OPEN_LIST : str := qlit "<div class='books-list'>".
Definition OPEN_SEPARATOR : str := qlit "<div class='books-separator'>".
Definition OPEN_DETAILS : str := qlit "<div class='books-details'>".

Definition pattern : regex :=
  Group 1 (Lit OPEN_LIST ;; Star false any_char ;; Lit (lit "</ul>") ;;
           Star true is_space ;; Lit (lit "</div>")) ;;
  Opt (Star true is_space ;; Lit OPEN_SEPARATOR ;; Star false any_char ;;
       Lit (lit "</div>")) ;;
  Opt (Star true is_space ;; Lit OPEN_DETAILS ;; Star false any_char ;;
       Lit (lit "</ul>") ;; Star true is_space ;; Lit (lit "</div>")) ;;
  Group 2 (Star true is_space ;; Lit (lit "</main>")).

Definition pattern_simple : regex :=
  Group 1 (Lit OPEN_LIST ;; Star true is_space ;; Lit (lit "<ul>")) ;;
  Group 2 (Star false any_char) ;;
  Group 3 (Lit (lit "</ul>") ;; Star true is_space ;; Lit (lit "</div>")) ;;
  Group 4 (Star true is_space ;; Lit (lit "</main>")).

(** The replacement f-string of both attempts, line by line; it ends
    with a reference to group [g]. *)
Definition replacement (summary_html detail_html : str) (g : char) : str :=
  join [nl]
    [ OPEN_LIST;
      sp 12 ++ lit "<ul>";
      summary_html;
      sp 12 ++ lit "</ul>";
      sp 8 ++ lit "</div>";
      [];
      sp 8 ++ OPEN_SEPARATOR ++ lit "</div>";
      [];
      sp 8 ++ OPEN_DETAILS;
      sp 12 ++ lit "<ul>";
      detail_html;
      sp 12 ++ lit "</ul>";
      sp 8 ++ lit "</div>" ++ [bs; g] ].

Section WithRuntime.
Context {RT : Runtime}.

(** The substitution step of [update_book_registry]: the first pattern,
    and the simple one when the first left the text as it was.  [None]
    is the exception of [re.sub]. *)
Definition splice (summary_html detail_html html_content : str) : option str :=
  match Re.sub group_name_index pattern 2
               (replacement summary_html detail_html (ch "2")) html_content with
  | None => None
  | Some new_html =>
      if PyStr.eqb new_html html_content then
        Re.sub group_name_index pattern_simple 4
               (replacement summary_html detail_html (ch "4")) html_content
      else Some new_html
  end.

(** ** The files and the run *)

Inductive file : Type :=
| Absent                 (* no such file *)
| Unreadable             (* opening or reading raises *)
| Text (t : str).        (* the decoded text *)

Record World : Type := {
  books_txt : file;               (* BOOKS_FILE *)
  registry_html : file;           (* REGISTRY_HTML *)
  registry_writable : bool;       (* the block that writes REGISTRY_HTML
                                     and prints the line of success runs
                                     to its end *)
  registry_failure : write_failure  (* how the block fails, when it does *)
}.

(** The files after the block that writes [new_html] has failed. *)
Definition after_failure (w : World) (new_html : str) : World :=
  match registry_failure w with
  | OpenRaised => w
  | WriteRaised kept =>
      {| books_txt := books_txt w;
         registry_html := Text kept;
         registry_writable := registry_writable w;
         registry_failure := registry_failure w |}
  | PrintRaised =>
      {| books_txt := books_txt w;
         registry_html := Text new_html;
         registry_writable := registry_writable w;
         registry_failure := registry_failure w |}
  end.

Record run (A : Type) : Type := {
  result : outcome A;
  stdout : list str;
  final : World
}.

(** The text of the two paths and of an I/O exception, as printed. *)
Variable BOOKS_FILE REGISTRY_HTML io_error : str.
Definition REGISTRY_HTML_name : str := lit "book-registry.html".

(** The loop over the lines of [books.txt]. *)
Fixpoint parse_books (numbered : list (nat * str)) : list Book * list str :=
  match numbered with
  | [] => ([], [])
  | (line_num, line) :: rest =>
      let (books, printed) := parse_books rest in
      match strip line with
      | [] => (books, printed)
      | _ =>
          if startswith (lit "#") (strip line) then (books, printed)
          else
            match parse_book_line line with
            | (Some book, out) => (book :: books, out ++ printed)
            | (None, out) => (books, out ++ printed)
            end
      end
  end.

Definition update_book_registry (w : World) : run bool :=
  match books_txt w with
  | Absent =>
      {| result := Returned false;
         stdout := [lit "Error: Books file not found at '" ++ BOOKS_FILE ++ lit "'"];
         final := w |}
  | Unreadable =>
      {| result := Returned false;
         stdout := [lit "Error reading books file: " ++ io_error];
         final := w |}
  | Text text =>
      let lines := readlines text in
      let (books, printed) := parse_books (enumerate 1 lines) in
      match books with
      | [] =>
          {| result := Returned false;
             stdout := printed ++ [lit "Warning: No books found in books.txt"];
             final := w |}
      | _ =>
          let count := str_of_N (N.of_nat (length books)) in
          let printed := printed ++ [lit "Found " ++ count ++ lit " book(s)"] in
          match registry_html w with
          | Absent =>
              {| result := Returned false;
                 stdout := printed ++
                   [lit "Error: book-registry.html not found at '"
                    ++ REGISTRY_HTML ++ lit "'"];
                 final := w |}
          | Unreadable =>
              {| result := Returned false;
                 stdout := printed ++
                   [lit "Error reading book-registry.html: " ++ io_error];
                 final := w |}
          | Text html_content =>
              let (summary_html, detail_html) := generate_book_html books in
              match splice summary_html detail_html html_content with
              | None =>
                  {| result := Uncaught; stdout := printed; final := w |}
              | Some new_html =>
                  if registry_writable w then
                    {| result := Returned true;
                       stdout := printed ++
                         [[check_mark] ++ lit " Updated " ++ REGISTRY_HTML_name
                          ++ lit " with " ++ count ++ lit " book(s)"];
                       final := {| books_txt := books_txt w;
                                   registry_html := Text new_html;
                                   registry_writable := registry_writable w;
                                   registry_failure := registry_failure w |} |}
                  else
                    {| result := Returned false;
                       stdout := printed ++
                         [lit "Error writing book-registry.html: " ++ io_error];
                       final := after_failure w new_html |}
              end
          end
      end
  end.

(** [main()], and the status [sys.exit(main())] ends the process with. *)
Definition main (w : World) : run N :=
  let r := update_book_registry w in
  match result r with
  | Returned true =>
      {| result := Returned 0%N;
         stdout := stdout r ++ [[check_mark] ++ lit " Book registry updated successfully!"];
         final := final r |}
  | Returned false =>
      {| result := Returned 1%N;
         stdout := stdout r ++ [[ballot_x] ++ lit " Failed to update book registry"];
         final := final r |}
  | Uncaught =>
      {| result := Uncaught; stdout := stdout r; final := final r |}
  end.

Definition exit_code (w : World) : N := exit_status (result (main w)).

End WithRuntime.

End BookRegistry.

(* ================================================================== *)
(** * blog/md_to_html.py *)
(* ================================================================== *)

Module MdToHtml.

(** The value of the [date] key of the front matter: a [datetime], a
    string, or any other object, of which only its truth value and its
    [str()] matter. *)
Inductive date_value : Type :=
| DDatetime (year month day : N)
| DStr (s : str)
| DOther (truthy : bool) (text : str).

Definition month_name (m : N) : str :=
  nth (N.to_nat m - 1)
      [lit "January"; lit "February"; lit "March"; lit "April"; lit "May";
       lit "June"; lit "July"; lit "August"; lit "September"; lit "October";
       lit "November"; lit "December"] [].

Definition is_leap (y : N) : bool :=
  ((y mod 4 =? 0) && (negb (y mod 100 =? 0) || (y mod 400 =? 0)))%N.

Definition days_in_month (y m : N) : N :=
  (if m =? 2 then (if is_leap y then 29 else 28)
   else if (m =? 4) || (m =? 6) || (m =? 9) || (m =? 11) then 30
   else 31)%N.

(** The check of the [datetime] constructor. *)
Definition valid_date (y m d : N) : bool :=
  ((1 <=? y) && (y <=? 9999) && (1 <=? m) && (m <=? 12)
   && (1 <=? d) && (d <=? days_in_month y m))%N.

Definition pad2 (n : N) : str :=
  if (n <? 10)%N then ch "0" :: str_of_N n else str_of_N n.

Section WithRuntime.
Context {RT : Runtime}.

(** The value of a decimal digit ([\d], and the digits [int] reads). *)
Definition decimal_value (c : char) : option N :=
  if is_ascii_digit c then Some (c - 48)%N
  else if is_ascii c then None
  else decimal_nonascii c.

Definition is_decimal (c : char) : bool :=
  match decimal_value c with Some _ => true | None => false end.

(** [int(s)] for the texts the date pattern captures: digits, with
    white space around them; [None] is [ValueError]. *)
Fixpoint int_digits (s : str) (acc : N) : option N :=
  match s with
  | [] => Some acc
  | c :: s' =>
      match decimal_value c with
      | Some d => int_digits s' (10 * acc + d)%N
      | None => None
      end
  end.

Definition int (s : str) : option N :=
  match strip s with
  | [] => None
  | digits => int_digits digits 0%N
  end.

(** The pattern [_strptime] builds for the format ["%Y-%m-%d"]:
    [(?P<Y>\d\d\d\d)-(?P<m>1[0-2]|0[1-9]|[1-9])-(?P<d>3[0-1]|[1-2]\d|0[1-9]|[1-9]| [1-9])]. *)
Definition one (a : ascii) : regex := Cls (N.eqb (ch a)).
Definition range (a b : ascii) : regex := Cls (in_range (ch a) (ch b)).
Definition digit : regex := Cls is_decimal.

Definition year_re : regex := digit ;; digit ;; digit ;; digit.

Definition month_re : regex :=
  Alt (one "1" ;; range "0" "2")
 (Alt (one "0" ;; range "1" "9")
      (range "1" "9")).

Definition day_re : regex :=
  Alt (one "3" ;; range "0" "1")
 (Alt (range "1" "2" ;; digit)
 (Alt (one "0" ;; range "1" "9")
 (Alt (range "1" "9")
      (one " " ;; range "1" "9")))).

Definition date_regex : regex :=
  Group 1 year_re ;; Lit (lit "-") ;; Group 2 month_re ;; Lit (lit "-") ;;
  Group 3 day_re.

(** [datetime.strptime(data_string, "%Y-%m-%d")]: the pattern has to
    match at the start and to the end of the string, and the three
    numbers have to make a date.  [None] is [ValueError]. *)
Definition strptime (data_string : str) : option (N * N * N) :=
  match match_at date_regex data_string with
  | None => None
  | Some found =>
      if negb (length data_string =? pos found)%nat then None
      else
        match int (group_text data_string found 1),
              int (group_text data_string found 2),
              int (group_text data_string found 3) with
        | Some year, Some month, Some day =>
            if valid_date year month day then Some (year, month, day)
            else None
        | _, _, _ => None
        end
  end.

(** [strftime("%B %d, %Y")] *)
Definition strftime_Y (y : N) : str :=
  if (1000 <=? y)%N then str_of_N y else strftime_small_year y.

Definition strftime (y m d : N) : str :=
  month_name m ++ lit " " ++ pad2 d ++ lit ", " ++ strftime_Y y.

Definition format_date (date_input : date_value) : str :=
  match date_input with
  | DDatetime y m d => strftime y m d
  | DStr s =>
      match strptime s with
      | Some (y, m, d) => strftime y m d
      | None => s
      end
  | DOther _ text => text
  end.

(** [text.lower()] *)
Definition ascii_lower (c : char) : char :=
  if is_ascii_upper c then (c + 32)%N else c.

Definition lower (text : str) : str :=
  if forallb is_ascii text then map ascii_lower text else lower_nonascii text.

(** The class [\w] *)
Definition is_word (c : char) : bool :=
  if is_ascii c then is_ascii_letter c || is_ascii_digit c || (c =? ch "_")%N
  else alnum_nonascii c.

Definition is_hyphen (c : char) : bool := (c =? ch "-")%N.

(** [re.sub(pattern, repl, text)] of [slugify]: the replacement has no
    backslash, so the call cannot raise; the text is kept if it did. *)
Definition re_sub (r : regex) (repl text : str) : str :=
  match Re.sub group_name_index r 0 repl text with
  | Some out => out
  | None => text
  end.

Definition slugify (text : str) : str :=
  let text := lower text in
  let text := re_sub (Cls (fun c => negb (is_word c || is_space c || is_hyphen c)))
                     [] text in
  let text := re_sub (Plus (fun c => is_hyphen c || is_space c)) (lit "-") text in
  strip_of is_hyphen text.

(** [generate_html_template(title, date, content_html)]; the two long
    constants of the script are kept as names. *)
Variable CSS_STYLES NAVIGATION : str.

Definition generate_html_template (title date content_html : str) : str :=
  let title_escaped := BookRegistry.html_escape title in
  let date_escaped :=
    match date with [] => [] | _ => BookRegistry.html_escape date end in
  join [nl]
    [ lit "<!DOCTYPE html>";
      qlit "<html lang='en'>";
      lit "<head>";
      sp 4 ++ qlit "<meta charset='UTF-8'>";
      sp 4 ++ qlit "<meta name='viewport' content='width=device-width, initial-scale=1.0'>";
      sp 4 ++ lit "<title>" ++ title_escaped ++ lit " - Ken Gatera</title>";
      sp 4 ++ lit "<style>";
      CSS_STYLES;
      sp 4 ++ lit "</style>";
      lit "</head>";
      lit "<body>";
      sp 4 ++ lit "<nav>";
      sp 8 ++ lit "<ul>";
      NAVIGATION;
      sp 8 ++ lit "</ul>";
      sp 4 ++ lit "</nav>";
      [];
      sp 4 ++ lit "<main>";
      sp 8 ++ qlit "<article class='article-container'>";
      sp 12 ++ qlit "<header class='article-header'>";
      sp 16 ++ lit "<h1>" ++ title_escaped ++ lit "</h1>";
      sp 16 ++ qlit "<div class='article-meta'>" ++ date_escaped ++ lit "</div>";
      sp 12 ++ lit "</header>";
      [];
      sp 12 ++ qlit "<div class='article-content'>";
      content_html;
      sp 12 ++ lit "</div>";
      [];
      sp 12 ++ qlit "<a href='../../blog.html' class='back-to-blog'>Back to Blog</a>";
      sp 8 ++ lit "</article>";
      sp 4 ++ lit "</main>";
      [];
      sp 4 ++ lit "<footer>";
      sp 8 ++ lit "<p>&copy; 2025 Ken Gatera. All rights reserved.</p>";
      sp 4 ++ lit "</footer>";
      lit "</body>";
      lit "</html>";
      [] ].

(** ** The file system and the libraries, as the converter sees them *)

(** The value of the [title] key of the front matter: a string, or any
    other object ([None] for a key with no value, a number, a list);
    [slugify] raises for what is not a string. *)
Inductive title_value : Type :=
| TitleStr (s : str)
| TitleOther.

Record Post : Type := {
  meta_title : option title_value;  (* [post.metadata] at ['title'] *)
  meta_date : option date_value;    (* [post.metadata] at ['date'] *)
  content : str
}.

Record Env : Type := {
  path_exists : str -> bool;
  path_is_absolute : str -> bool;
  path_join : str -> str -> str;        (* [a / b] *)
  path_name : str -> str;               (* [p.name] *)
  load_post : str -> option Post;       (* [open] and [frontmatter.load]; [None]: an exception *)
  markdown_convert : str -> str;        (* [markdown.Markdown(...).convert] *)
  mkdir_ok : str -> bool;               (* [mkdir] succeeds *)
  write_ok : str -> bool;               (* the block that writes the file and
                                           prints the line of success runs to
                                           its end *)
  write_fails : str -> write_failure    (* how the block fails, when it does *)
}.

Record run (A : Type) : Type := {
  result : outcome A;
  stdout : list str;
  written : list (str * str)            (* the files opened for writing, with the text they are left with *)
}.

Variable env : Env.
Variable io_error : str.

Definition truthy (d : date_value) : bool :=
  match d with
  | DDatetime _ _ _ => true
  | DStr s => match s with [] => false | _ => true end
  | DOther b _ => b
  end.

(** [convert_markdown_to_html(md_file_path, output_dir)]: the path of the
    page written, or [None] after an error that was reported. *)
Definition convert_markdown_to_html (md_file_path : str) (output_dir : option str)
  : run (option str) :=
  let md_path := md_file_path in
  let md_path :=
    if negb (path_exists env md_path) && negb (path_is_absolute env md_path) then
      let drafts_path := path_join env (lit "drafts") md_path in
      if path_exists env drafts_path then drafts_path else md_path
    else md_path in
  if negb (path_exists env md_path) then
    {| result := Returned None;
       stdout := [lit "Error: File '" ++ md_file_path ++ lit "' not found."];
       written := [] |}
  else
    match load_post env md_path with
    | None =>
        {| result := Returned None;
           stdout := [lit "Error reading file '" ++ md_file_path ++ lit "': " ++ io_error];
           written := [] |}
    | Some post =>
        let title :=
          match meta_title post with
          | Some t => t
          | None => TitleStr (lit "Untitled")
          end in
        let date := match meta_date post with Some d => d | None => DStr [] end in
        let formatted_date := if truthy date then format_date date else [] in
        let html_content := markdown_convert env (content post) in
        let output_path :=
          match output_dir with
          | Some (c :: d) => c :: d
          | _ => lit "posts"
          end in
        if negb (mkdir_ok env output_path) then
          {| result := Uncaught; stdout := []; written := [] |}
        else
          match title with
          | TitleOther =>
              (* [slugify(title)] raises, outside every handler *)
              {| result := Uncaught; stdout := []; written := [] |}
          | TitleStr title =>
              let html_filename := lit "article-" ++ slugify title ++ lit ".html" in
              let html_file_path := path_join env output_path html_filename in
              let html_output :=
                generate_html_template title formatted_date html_content in
              if write_ok env html_file_path then
                {| result := Returned (Some html_file_path);
                   stdout := [[check_mark] ++ lit " Converted '"
                              ++ path_name env md_path
                              ++ lit "' to 'posts/" ++ html_filename ++ lit "'"];
                   written := [(html_file_path, html_output)] |}
              else
                {| result := Returned None;
                   stdout := [lit "Error writing file '" ++ html_file_path
                              ++ lit "': " ++ io_error];
                   written :=
                     match write_fails env html_file_path with
                     | OpenRaised => []
                     | WriteRaised kept => [(html_file_path, kept)]
                     | PrintRaised => [(html_file_path, html_output)]
                     end |}
          end
    end.

(** [main()] on [sys.argv]; the result is the status the process ends
    with: that of [sys.exit], or 0 when [main] returns. *)
Definition main (argv : list str) : run N :=
  if (length argv <? 2)%nat then
    {| result := Returned 1%N;
       stdout := [lit "Usage: python md_to_html.py <markdown_file.md> [output_dir]";
                  nl :: lit "Example:";
                  lit "  python md_to_html.py drafts/first-blog-post.md";
                  lit "  python md_to_html.py first-blog-post.md  (will look in drafts/)";
                  lit "  python md_to_html.py drafts/my-post.md output/  (custom output)"];
       written := [] |}
  else
    let md_file := nth 1 argv [] in
    let output_dir := if (2 <? length argv)%nat then Some (nth 2 argv []) else None in
    let r := convert_markdown_to_html md_file output_dir in
    match result r with
    | Returned _ => {| result := Returned 0%N; stdout := stdout r; written := written r |}
    | Uncaught => {| result := Uncaught; stdout := stdout r; written := written r |}
    end.

Definition exit_code (argv : list str) : N := exit_status (result (main argv)).

End WithRuntime.

End MdToHtml.

(* ================================================================== *)
(** * Notions the properties are stated with *)
(* ================================================================== *)

Unset Implicit Arguments.

Module Spec.

(** No white space at the start, at the end. *)
Definition no_leading_space (s : str) : bool :=
  match s with
  | [] => true
  | c :: _ => negb (is_space c)
  end.

Definition no_trailing_space (s : str) : bool := no_leading_space (rev s).

Definition trimmed (s : str) : bool := no_leading_space s && no_trailing_space s.

(** The segments of a line, as the parser's contract reads: the line is
    trimmed and split on the delimiter. *)
Definition segments (line : str) : list str :=
  split BookRegistry.DELIM (strip line).

(** ** The text of a fragment *)




(** The character reference at the start of [s], among the five that
    [html.escape] writes: the character it stands for and its length. *)
Definition entity_at (s : str) : option (char * nat) :=
  if startswith (lit "&amp;") s then Some (ch "&", 5)
  else if startswith (lit "&lt;") s then Some (ch "<", 4)
  else if startswith (lit "&gt;") s then Some (ch ">", 4)
  else if startswith (lit "&quot;") s then Some (dq, 6)
  else if startswith (lit "&#x27;") s then Some (ch "'", 6)
  else None.

(** Un-escaping: each character reference is read back, once. *)
Fixpoint unescape_from (skip : nat) (s : str) : str :=
  match s with
  | [] => []
  | c :: s' =>
      match skip with
      | S k => unescape_from k s'
      | O =>
          match entity_at s with
          | Some (c', n) => c' :: unescape_from (n - 1) s'
          | None => c :: unescape_from 0 s'
          end
      end
  end.



(** The characters that must not reach the page as they are. *)
Definition is_markup (c : char) : bool :=
  ((c =? ch "<") || (c =? ch ">") || (c =? dq) || (c =? ch "'"))%N.

(** What [html.escape] writes for one character. *)
Definition escape_char (c : char) : str :=
  if (c =? ch "&")%N then lit "&amp;"
  else if (c =? ch "<")%N then lit "&lt;"
  else if (c =? ch ">")%N then lit "&gt;"
  else if (c =? dq)%N then lit "&quot;"
  else if (c =? ch "'")%N then lit "&#x27;"
  else [c].



(** ** Slugs, in the words of the specification *)

(** The length of the run of characters of a class at the start. *)
Fixpoint run_length (p : char -> bool) (s : str) : nat :=
  match s with
  | [] => 0
  | c :: s' => if p c then S (run_length p s') else 0
  end.


(** Each run of characters of the class becomes one hyphen. *)
Fixpoint collapse_runs (p : char -> bool) (in_run : bool) (s : str) : str :=
  match s with
  | [] => []
  | c :: s' =>
      if p c then
        if in_run then collapse_runs p true s'
        else ch "-" :: collapse_runs p true s'
      else c :: collapse_runs p false s'
  end.

Section Slug.
Context {RT : Runtime}.

Definition keeps (c : char) : bool :=
  MdToHtml.is_word c || is_space c || MdToHtml.is_hyphen c.

Definition hyphen_or_space (c : char) : bool :=
  MdToHtml.is_hyphen c || is_space c.

(** Lower-case; delete what is not a word character, white space or a
    hyphen; collapse each run of white space and hyphens into one hyphen;
    trim the hyphens at both ends. *)
Definition slug (text : str) : str :=
  strip_of MdToHtml.is_hyphen
    (collapse_runs hyphen_or_space false
       (filter keeps (MdToHtml.lower text))).

End Slug.

(** The ASCII punctuation ([string.punctuation]): the four ranges of
    the printable ASCII characters other than letters, digits and the
    space. *)
Definition is_punctuation (c : char) : bool :=
  in_range (ch "!") (ch "/") c || in_range (ch ":") (ch "@") c
  || in_range (ch "[") (ch "`") c || in_range (ch "{") (ch "~") c.

(** ** Dates *)

(** The form YYYY-MM-DD: four digits, two digits and two digits, with a
    hyphen between them. *)
Definition is_iso_form (s : str) : bool :=
  match s with
  | [y1; y2; y3; y4; h1; m1; m2; h2; d1; d2] =>
      forallb is_ascii_digit [y1; y2; y3; y4; m1; m2; d1; d2]
      && (h1 =? ch "-")%N && (h2 =? ch "-")%N
  | _ => false
  end.

Section Dates.
Context {RT : Runtime}.

(** The texts [strptime] takes for a year, a month and a day, with the
    number each one stands for. *)
Inductive year_text : str -> N -> Prop :=
| year_digits (c1 c2 c3 c4 : char) (v1 v2 v3 v4 : N) :
    MdToHtml.decimal_value c1 = Some v1 ->
    MdToHtml.decimal_value c2 = Some v2 ->
    MdToHtml.decimal_value c3 = Some v3 ->
    MdToHtml.decimal_value c4 = Some v4 ->
    year_text [c1; c2; c3; c4] (1000 * v1 + 100 * v2 + 10 * v3 + v4)%N.

Inductive month_text : str -> N -> Prop :=
| month_ten (a : char) :                                  (* 10, 11, 12 *)
    in_range (ch "0") (ch "2") a = true ->
    month_text [ch "1"; a] (10 + (a - 48))%N
| month_padded (a : char) :                               (* 01 .. 09 *)
    in_range (ch "1") (ch "9") a = true ->
    month_text [ch "0"; a] (a - 48)%N
| month_digit (a : char) :                                (* 1 .. 9 *)
    in_range (ch "1") (ch "9") a = true ->
    month_text [a] (a - 48)%N.

Inductive day_text : str -> N -> Prop :=
| day_thirty (a : char) :                                 (* 30, 31 *)
    in_range (ch "0") (ch "1") a = true ->
    day_text [ch "3"; a] (30 + (a - 48))%N
| day_teens (a b : char) (v : N) :                        (* 10 .. 29 *)
    in_range (ch "1") (ch "2") a = true ->
    MdToHtml.decimal_value b = Some v ->
    day_text [a; b] (10 * (a - 48) + v)%N
| day_padded (a : char) :                                 (* 01 .. 09 *)
    in_range (ch "1") (ch "9") a = true ->
    day_text [ch "0"; a] (a - 48)%N
| day_digit (a : char) :                                  (* 1 .. 9 *)
    in_range (ch "1") (ch "9") a = true ->
    day_text [a] (a - 48)%N
| day_spaced (a : char) :                                 (* a space and 1 .. 9 *)
    in_range (ch "1") (ch "9") a = true ->
    day_text [ch " "; a] (a - 48)%N.

(** The strings [strptime] accepts for ["%Y-%m-%d"], and their date. *)
Definition accepted_date (s : str) (y m d : N) : Prop :=
  exists Y M D : str,
    s = Y ++ lit "-" ++ M ++ lit "-" ++ D /\
    year_text Y y /\ month_text M m /\ day_text D d /\
    MdToHtml.valid_date y m d = true.

(** The same reading written out by hand: the three texts of a string,
    taken from the left. *)
Definition month_field (s : str) : option (str * str) :=
  match s with
  | [] => None
  | a :: s1 =>
      let two :=
        match s1 with
        | [] => None
        | b :: s2 =>
            if (ch "1" =? a)%N && in_range (ch "0") (ch "2") b then Some ([a; b], s2)
            else if (ch "0" =? a)%N && in_range (ch "1") (ch "9") b then Some ([a; b], s2)
            else None
        end in
      match two with
      | Some r => Some r
      | None => if in_range (ch "1") (ch "9") a then Some ([a], s1) else None
      end
  end.

Definition day_field (s : str) : option (str * str) :=
  match s with
  | [] => None
  | a :: s1 =>
      let two :=
        match s1 with
        | [] => None
        | b :: s2 =>
            if (ch "3" =? a)%N && in_range (ch "0") (ch "1") b then Some ([a; b], s2)
            else if in_range (ch "1") (ch "2") a && MdToHtml.is_decimal b then Some ([a; b], s2)
            else if (ch "0" =? a)%N && in_range (ch "1") (ch "9") b then Some ([a; b], s2)
            else None
        end in
      match two with
      | Some r => Some r
      | None =>
          if in_range (ch "1") (ch "9") a then Some ([a], s1)
          else
            match s1 with
            | b :: s2 =>
                if (ch " " =? a)%N && in_range (ch "1") (ch "9") b then Some ([a; b], s2)
                else None
            | [] => None
            end
      end
  end.

Definition date_parts (s : str) : option (str * str * str * str) :=
  match s with
  | c1 :: c2 :: c3 :: c4 :: h1 :: s1 =>
      if MdToHtml.is_decimal c1 && MdToHtml.is_decimal c2
         && MdToHtml.is_decimal c3 && MdToHtml.is_decimal c4
         && (ch "-" =? h1)%N
      then
        match month_field s1 with
        | Some (M, h2 :: s2) =>
            if (ch "-" =? h2)%N then
              match day_field s2 with
              | Some (D, rest) => Some ([c1; c2; c3; c4], M, D, rest)
              | None => None
              end
            else None
        | _ => None
        end
      else None
  | _ => None
  end.

(** The continuation that ends a match. *)
Definition accept : cont mstate := fun st _ => Some st.

(** The state of a match of the date pattern that took [M] for the
    month and [D] for the day. *)
Definition date_match (M D : str) : mstate :=
  MState (6 + length M + length D)
         [(3, (6 + length M, 6 + length M + length D));
          (2, (5, 5 + length M));
          (1, (0, 4))].

Definition fields_date (Y M D : str) : option (N * N * N) :=
  match MdToHtml.int Y, MdToHtml.int M, MdToHtml.int D with
  | Some year, Some month, Some day =>
      if MdToHtml.valid_date year month day then Some (year, month, day)
      else None
  | _, _, _ => None
  end.

End Dates.

(** ** The strings a pattern matches *)

Fixpoint matches (r : regex) (u : str) : Prop :=
  match r with
  | Lit l => u = l
  | Cls p => exists c, u = [c] /\ p c = true
  | Star _ p => forallb p u = true
  | Seq r1 r2 => exists u1 u2, u = u1 ++ u2 /\ matches r1 u1 /\ matches r2 u2
  | Alt r1 r2 => matches r1 u \/ matches r2 u
  | Opt r1 => u = [] \/ matches r1 u
  | Group _ r1 => matches r1 u
  end.

(** Two continuations of which the second succeeds where the first
    does, whatever the states are. *)
Definition follows (k1 k2 : cont mstate) : Prop :=
  forall (st st' : mstate) (s : str), k1 st s <> None -> k2 st' s <> None.

(** ** The region the splice replaces *)

(** The last group of both patterns: white space and the closing tag of
    the main element. *)
Definition TRAILER : regex := Star true is_space ;; Lit (lit "</main>").

(** What comes before the last group in each of the two patterns. *)
Definition HEAD : regex :=
  Group 1 (Lit BookRegistry.OPEN_LIST ;; Star false any_char ;;
           Lit (lit "</ul>") ;; Star true is_space ;; Lit (lit "</div>")) ;;
  Opt (Star true is_space ;; Lit BookRegistry.OPEN_SEPARATOR ;;
       Star false any_char ;; Lit (lit "</div>")) ;;
  Opt (Star true is_space ;; Lit BookRegistry.OPEN_DETAILS ;;
       Star false any_char ;; Lit (lit "</ul>") ;; Star true is_space ;;
       Lit (lit "</div>")).

Definition HEAD_simple : regex :=
  Group 1 (Lit BookRegistry.OPEN_LIST ;; Star true is_space ;;
           Lit (lit "<ul>")) ;;
  Group 2 (Star false any_char) ;;
  Group 3 (Lit (lit "</ul>") ;; Star true is_space ;; Lit (lit "</div>")).

Definition is_trailer (t : str) : Prop :=
  exists w, t = w ++ lit "</main>" /\ forallb is_space w = true.

(** [spliced r g body s out]: [out] is [s] with each match of [r], taken
    from the left, replaced.  A match is a region that ends with a
    closing [</div>], followed by the text of group [g]: white space
    and [</main>].  The text before the match is kept; the region is
    replaced by [body], which is given the text at the match and the
    match; the text of group [g] is written back as it was captured; the
    text after the match is gone through in the same way.  Where [r]
    matches at no offset the text is kept as it is. *)
Inductive spliced (r : regex) (g : nat) (body : str -> mstate -> str)
  : str -> str -> Prop :=
| spliced_same (s : str) :
    (forall i, match_at r (skipn i s) = None) ->
    spliced r g body s s
| spliced_region (pre region w post post' : str) (st : mstate) :
    (forall i, i < length pre ->
               match_at r (skipn i (pre ++ region ++ w ++ lit "</main>" ++ post))
               = None) ->
    match_at r (region ++ w ++ lit "</main>" ++ post) = Some st ->
    pos st = length (region ++ w ++ lit "</main>") ->
    group_text (region ++ w ++ lit "</main>" ++ post) st g
      = w ++ lit "</main>" ->
    forallb is_space w = true ->
    (exists inner, region = inner ++ lit "</div>") ->
    spliced r g body post post' ->
    spliced r g body
      (pre ++ region ++ w ++ lit "</main>" ++ post)
      (pre ++ body (region ++ w ++ lit "</main>" ++ post) st
           ++ w ++ lit "</main>" ++ post').

(** The fixed text of the replacement around the two fragments. *)
Definition REPL_1 : str := [nl] ++ sp 12 ++ lit "<ul>" ++ [nl].
Definition REPL_2 : str :=
  [nl] ++ sp 12 ++ lit "</ul>" ++ [nl] ++ sp 8 ++ lit "</div>" ++ [nl] ++ [nl]
  ++ sp 8 ++ BookRegistry.OPEN_SEPARATOR ++ lit "</div>" ++ [nl] ++ [nl]
  ++ sp 8 ++ BookRegistry.OPEN_DETAILS ++ [nl] ++ sp 12 ++ lit "<ul>" ++ [nl].
Definition REPL_3 : str :=
  [nl] ++ sp 12 ++ lit "</ul>" ++ [nl] ++ sp 8 ++ lit "</div>".

(** The replacement without its group reference. *)
Definition replacement_text (summary_html detail_html : str) : str :=
  BookRegistry.OPEN_LIST ++ REPL_1 ++ summary_html ++ REPL_2 ++ detail_html
  ++ REPL_3.

(** The template parser over a prefix: the items read and the state
    reached. *)
Fixpoint trun (groups : nat) (f : str -> option N) (q : tstate) (s : str)
  : option (list titem * tstate) :=
  match s with
  | [] => Some ([], q)
  | c :: s' =>
      match tstep groups f q c with
      | None => None
      | Some (items, q') =>
          match trun groups f q' s' with
          | None => None
          | Some (rest, q'') => Some (items ++ rest, q'')
          end
      end
  end.

(** ** Fragments the splice can find again *)

(** An automaton that looks for the three characters [</u]: state 1 is
    after [<], state 2 after [</], and state 3 once they were seen. *)
Definition close_step (q : nat) (c : char) : nat :=
  match q with
  | 3 => 3
  | 1 => if (c =? ch "/")%N then 2 else if (c =? ch "<")%N then 1 else 0
  | 2 => if (c =? ch "u")%N then 3 else if (c =? ch "<")%N then 1 else 0
  | _ => if (c =? ch "<")%N then 1 else 0
  end.

Definition close_run (q : nat) (s : str) : nat := fold_left close_step s q.

(** The text has no [</u] in it and does not end inside one. *)
Definition no_list_end (s : str) : bool := Nat.eqb (close_run 0 s) 0.

(** No backslash: nothing for the template parser of [re.sub] to read. *)
Definition no_backslash (s : str) : bool :=
  forallb (fun c => negb (c =? bs)%N) s.

Definition plain_book (b : BookRegistry.Book) : bool :=
  no_backslash (BookRegistry.rating b) && no_backslash (BookRegistry.date_read b)
  && no_backslash (BookRegistry.title b) && no_backslash (BookRegistry.author b)
  && no_backslash (BookRegistry.description b).

(** Whether a string starts with a character of a class. *)
Definition head_in (p : char -> bool) (s : str) : bool :=
  match s with
  | [] => false
  | c :: _ => p c
  end.

(** The pieces of the replacement a match runs over. *)
Definition SKIP_1 (summary_html : str) : str :=
  REPL_1 ++ summary_html ++ [nl] ++ sp 12.
Definition SKIP_2 (detail_html : str) : str :=
  [nl] ++ sp 12 ++ lit "<ul>" ++ [nl] ++ detail_html ++ [nl] ++ sp 12.
Definition WS_0 : str := [nl] ++ sp 12.
Definition WS_1 : str := [nl] ++ sp 8.
Definition WS_2 : str := [nl; nl] ++ sp 8.
Definition SKIP_S (summary_html : str) : str :=
  [nl] ++ summary_html ++ [nl] ++ sp 12.
Definition MIDDLE (detail_html : str) : str :=
  WS_1 ++ lit "</div>" ++ WS_2 ++ BookRegistry.OPEN_SEPARATOR ++ lit "</div>"
  ++ WS_2 ++ BookRegistry.OPEN_DETAILS ++ SKIP_2 detail_html.
Definition UL_END : str := lit "</ul>".
Definition DIV_END : str := lit "</div>".
Definition MAIN_END : str := lit "</main>".

(** A list of the page as it was before the details were added. *)
Definition legacy_list : str :=
  BookRegistry.OPEN_LIST ++ lit "<ul><li>old</li></ul></div>".

(** ** Runs of the two scripts *)

(** A directory with no file in it: every path is missing. *)
Definition empty_env : MdToHtml.Env := {|
  MdToHtml.path_exists := fun _ => false;
  MdToHtml.path_is_absolute := fun p => startswith (lit "/") p;
  MdToHtml.path_join := fun a b => a ++ lit "/" ++ b;
  MdToHtml.path_name := fun p => p;
  MdToHtml.load_post := fun _ => None;
  MdToHtml.markdown_convert := fun text => text;
  MdToHtml.mkdir_ok := fun _ => true;
  MdToHtml.write_ok := fun _ => true;
  MdToHtml.write_fails := fun _ => OpenRaised
|}.

(** The line of the specification's example, with a delimiter inside
    the description. *)
Definition example_line : str :=
  lit "4 stars - 2024-01-01 - Title - Author - Part one - Part two".

(** ** Books, pages and a run of the registry script *)

Definition example_book : BookRegistry.Book := {|
  BookRegistry.rating := lit "4 stars";
  BookRegistry.date_read := lit "2024-01-01";
  BookRegistry.title := lit "Title";
  BookRegistry.author := lit "Author";
  BookRegistry.description := lit "Part one - Part two"
|}.

(** A book whose description is a backslash and the digit one. *)
Definition backslash_book : BookRegistry.Book := {|
  BookRegistry.rating := lit "4 stars";
  BookRegistry.date_read := lit "2024-01-01";
  BookRegistry.title := lit "Title";
  BookRegistry.author := lit "Author";
  BookRegistry.description := bs :: lit "1"
|}.

(** A page with the list wrapper alone, and a page with no list. *)
Definition legacy_page : str :=
  lit "<main>" ++ legacy_list ++ lit "</main>".

Definition unmarked_page : str :=
  lit "<html><body><main><p>No list here.</p></main></body></html>".

Definition unmarked_world : BookRegistry.World := {|
  BookRegistry.books_txt := BookRegistry.Text (example_line ++ [nl]);
  BookRegistry.registry_html := BookRegistry.Text unmarked_page;
  BookRegistry.registry_writable := true;
  BookRegistry.registry_failure := OpenRaised
|}.

(** ** The lines of the books file *)

(** A line the loop of [update_book_registry] passes over: blank, or a
    comment. *)
Definition skipped (line : str) : bool :=
  match strip line with
  | [] => true
  | l => startswith (lit "#") l
  end.

(** A line that is read and has fewer than five segments, and a line
    that is read and has five or more. *)
Definition malformed (line : str) : bool :=
  negb (skipped line) && (length (segments line) <? 5)%nat.

Definition well_formed (line : str) : bool :=
  negb (skipped line) && (5 <=? length (segments line))%nat.

(** A space followed by a hyphen somewhere in the text. *)
Fixpoint has_space_hyphen (s : str) : bool :=
  match s with
  | [] => false
  | c :: s' =>
      ((c =? ch " ")%N &&
       match s' with d :: _ => (d =? ch "-")%N | [] => false end)
      || has_space_hyphen s'
  end.

(** A field that can be written into a line as it is: not empty, no
    white space at its ends, no space followed by a hyphen. *)
Definition field_ok (s : str) : bool :=
  match s with [] => false | _ => true end
  && trimmed s && negb (has_space_hyphen s).

(** A line in the format the script documents. *)
Definition book_line (b : BookRegistry.Book) : str :=
  join BookRegistry.DELIM
    [BookRegistry.rating b; BookRegistry.date_read b; BookRegistry.title b;
     BookRegistry.author b; BookRegistry.description b].

(** A description that can be written at the end of a line as it is: not
    empty, no white space at its end, and no white space around the
    delimiters it holds. *)
Definition description_ok (s : str) : bool :=
  match s with [] => false | _ => true end
  && no_trailing_space s
  && forallb trimmed (split BookRegistry.DELIM s).

(** How often a character occurs in a text. *)
Definition count (c : char) (s : str) : nat := count_occ N.eq_dec s c.

(** Two characters of a class next to each other somewhere in a text. *)
Fixpoint adjacent (p : char -> bool) (s : str) : bool :=
  match s with
  | [] => false
  | c :: s' =>
      (p c && match s' with d :: _ => p d | [] => false end)
      || adjacent p s'
  end.

(** The first character of a text is not of a class. *)
Definition no_leading (p : char -> bool) (s : str) : bool :=
  match s with
  | [] => true
  | c :: _ => negb (p c)
  end.

(** ** A directory with one draft *)

(** The last component of a path. *)
Fixpoint basename_from (cur : str) (p : str) : str :=
  match p with
  | [] => rev cur
  | c :: p' =>
      if (c =? ch "/")%N then basename_from [] p'
      else basename_from (c :: cur) p'
  end.

(** A post with no front matter. *)
Definition bare_post : MdToHtml.Post := {|
  MdToHtml.meta_title := None;
  MdToHtml.meta_date := None;
  MdToHtml.content := lit "Hello"
|}.

(** The only file is [drafts/post.md]; directories can be made when
    [writable] is set, and every file can then be written. *)
Definition drafts_env (writable : bool) : MdToHtml.Env := {|
  MdToHtml.path_exists := fun p => PyStr.eqb p (lit "drafts/post.md");
  MdToHtml.path_is_absolute := fun p => startswith (lit "/") p;
  MdToHtml.path_join := fun a b => a ++ lit "/" ++ b;
  MdToHtml.path_name := fun p => basename_from [] p;
  MdToHtml.load_post := fun p =>
    if PyStr.eqb p (lit "drafts/post.md") then Some bare_post else None;
  MdToHtml.markdown_convert := fun text => lit "<p>" ++ text ++ lit "</p>";
  MdToHtml.mkdir_ok := fun _ => writable;
  MdToHtml.write_ok := fun _ => writable;
  MdToHtml.write_fails := fun _ => OpenRaised
|}.

(** Entries written one per line: a line feed between two entries, none
    after the last. *)
Fixpoint lines (entries : list str) : str :=
  match entries with
  | [] => []
  | entry :: rest =>
      match rest with
      | [] => entry
      | _ :: _ => entry ++ nl :: lines rest
      end
  end.

(** A post whose [title:] key has no value, and a directory in which it
    is the only file. *)
Definition null_title_post : MdToHtml.Post := {|
  MdToHtml.meta_title := Some MdToHtml.TitleOther;
  MdToHtml.meta_date := None;
  MdToHtml.content := lit "Hello"
|}.

Definition null_title_env : MdToHtml.Env := {|
  MdToHtml.path_exists := fun p => PyStr.eqb p (lit "drafts/post.md");
  MdToHtml.path_is_absolute := fun p => startswith (lit "/") p;
  MdToHtml.path_join := fun a b => a ++ lit "/" ++ b;
  MdToHtml.path_name := fun p => basename_from [] p;
  MdToHtml.load_post := fun p =>
    if PyStr.eqb p (lit "drafts/post.md") then Some null_title_post else None;
  MdToHtml.markdown_convert := fun text => lit "<p>" ++ text ++ lit "</p>";
  MdToHtml.mkdir_ok := fun _ => true;
  MdToHtml.write_ok := fun _ => true;
  MdToHtml.write_fails := fun _ => OpenRaised
|}.

(** A book whose description is a backslash and the letter q. *)
Definition bad_escape_book : BookRegistry.Book := {|
  BookRegistry.rating := lit "4 stars";
  BookRegistry.date_read := lit "2024-01-01";
  BookRegistry.title := lit "Title";
  BookRegistry.author := lit "Author";
  BookRegistry.description := bs :: lit "q"
|}.

End Spec.

(* ================================================================== *)
(** * Strings: lemmas *)
(* ================================================================== *)

Section StrLemmas.

Lemma startswith_app (p s : str) : startswith p (p ++ s) = true.
Proof.
  induction p as [|x p IH]; simpl; [reflexivity|].
  now rewrite N.eqb_refl.
Qed.

Lemma startswith_split (p s : str) :
  startswith p s = true -> s = p ++ skipn (length p) s.
Proof.
  revert s; induction p as [|x p IH]; intros s H; simpl in *; [reflexivity|].
  destruct s as [|y s]; [discriminate|].
  apply andb_true_iff in H as [Hx Hp].
  apply N.eqb_eq in Hx; subst y.
  simpl. f_equal. now apply IH.
Qed.

Lemma startswith_length (p s : str) :
  startswith p s = true -> length p <= length s.
Proof.
  intros H. rewrite (startswith_split _ _ H) at 1.
  rewrite length_app. lia.
Qed.

Lemma lstrip_of_no_leading (p : char -> bool) (s : str) :
  match lstrip_of p s with [] => True | c :: _ => p c = false end.
Proof.
  induction s as [|c s IH]; simpl; [exact I|].
  destruct (p c) eqn:E; [exact IH|exact E].
Qed.

Lemma lstrip_of_suffix (p : char -> bool) (s : str) :
  exists pre, s = pre ++ lstrip_of p s /\ forallb p pre = true.
Proof.
  induction s as [|c s (pre & E & Hp)]; simpl.
  - now exists [].
  - destruct (p c) eqn:Ec.
    + exists (c :: pre). simpl. rewrite Ec, Hp. split; [now f_equal|reflexivity].
    + now exists [].
Qed.

Lemma lstrip_of_fix (p : char -> bool) (s : str) :
  match s with [] => True | c :: _ => p c = false end -> lstrip_of p s = s.
Proof. destruct s as [|c s]; simpl; [reflexivity|]. now intros ->. Qed.

(** The first character of a stripped string is the first one of the
    string the left strip leaves. *)
Lemma rstrip_of_head (p : char -> bool) (c : char) (s : str) :
  p c = false ->
  exists t, rstrip_of p (c :: s) = c :: t.
Proof.
  intros Hc. unfold rstrip_of. simpl.
  destruct (lstrip_of_suffix p (rev s ++ [c])) as (pre & E & Hpre).
  remember (lstrip_of p (rev s ++ [c])) as r eqn:Er.
  assert (Hr : exists r', r = r' ++ [c]).
  { clear Er. revert r E. induction pre as [|x pre IH] using rev_ind; intros r E.
    - simpl in E. now exists (rev s).
    - destruct r as [|y r] using rev_ind.
      + rewrite app_nil_r in E. apply app_inj_tail in E as [_ ->].
        rewrite forallb_app in Hpre. simpl in Hpre. rewrite Hc in Hpre.
        now rewrite andb_false_r in Hpre.
      + rewrite app_assoc in E. apply app_inj_tail in E as [_ ->].
        now exists r. }
  destruct Hr as (r' & ->).
  rewrite rev_app_distr. simpl. now exists (rev r').
Qed.

Lemma strip_no_leading (s : str) : Spec.no_leading_space (strip s) = true.
Proof.
  unfold strip, strip_of.
  pose proof (lstrip_of_no_leading is_space s) as H.
  destruct (lstrip_of is_space s) as [|c t] eqn:E.
  - reflexivity.
  - destruct (rstrip_of_head is_space c t H) as (t' & ->).
    simpl. now rewrite H.
Qed.

Lemma strip_no_trailing (s : str) : Spec.no_trailing_space (strip s) = true.
Proof.
  unfold Spec.no_trailing_space, strip, strip_of, rstrip_of.
  rewrite rev_involutive.
  pose proof (lstrip_of_no_leading is_space (rev (lstrip_of is_space s))) as H.
  destruct (lstrip_of is_space (rev (lstrip_of is_space s))) as [|c t]; simpl;
    [reflexivity|now rewrite H].
Qed.

Lemma strip_trimmed (s : str) : Spec.trimmed (strip s) = true.
Proof.
  unfold Spec.trimmed. now rewrite strip_no_leading, strip_no_trailing.
Qed.

Lemma strip_nil : strip [] = [].
Proof. reflexivity. Qed.

End StrLemmas.

Section SplitJoin.

Variable sep : str.
Hypothesis sep_nonempty : sep <> [].

Lemma split_from_skip (k : nat) (cur s : str) :
  k <= length s -> split_from sep k cur s = split_from sep 0 cur (skipn k s).
Proof.
  revert s; induction k as [|k IH]; intros s Hk.
  - reflexivity.
  - destruct s as [|c s]; simpl in *; [lia|].
    apply IH. lia.
Qed.

Lemma split_from_hit (cur s : str) :
  startswith sep s = true ->
  split_from sep 0 cur s = rev cur :: split_from sep 0 [] (skipn (length sep) s).
Proof.
  intros H. pose proof (startswith_length _ _ H) as Hlen.
  destruct s as [|c s].
  - destruct sep; [congruence|discriminate].
  - cbn [split_from]. rewrite H. f_equal.
    rewrite split_from_skip by (simpl in Hlen; lia).
    destruct sep as [|x sep']; [congruence|].
    simpl length. rewrite Nat.sub_succ, Nat.sub_0_r. reflexivity.
Qed.

Lemma split_from_miss (cur : str) (c : char) (s : str) :
  startswith sep (c :: s) = false ->
  split_from sep 0 cur (c :: s) = split_from sep 0 (c :: cur) s.
Proof. intros H. cbn [split_from]. now rewrite H. Qed.

Lemma split_from_nonempty (k : nat) (cur s : str) : split_from sep k cur s <> [].
Proof.
  revert k cur; induction s as [|c s IH]; intros k cur; simpl; [discriminate|].
  destruct k; [|apply IH].
  destruct (startswith sep (c :: s)); [discriminate|apply IH].
Qed.

Lemma join_cons (p : str) (l : list str) :
  l <> [] -> join sep (p :: l) = p ++ sep ++ join sep l.
Proof. destruct l; [congruence|reflexivity]. Qed.

Lemma join_app_last (init : list str) (pl : str) :
  init <> [] -> join sep (init ++ [pl]) = join sep init ++ sep ++ pl.
Proof.
  induction init as [|p init IH]; intros Hne; [congruence|].
  destruct init as [|q init].
  - reflexivity.
  - change ((p :: q :: init) ++ [pl]) with (p :: ((q :: init) ++ [pl])).
    rewrite join_cons by (simpl; discriminate).
    rewrite IH by discriminate.
    rewrite (join_cons p (q :: init)) by discriminate.
    now rewrite <- !app_assoc.
Qed.

(** Joining the pieces of a split with the separator gives the string
    back. *)
Lemma join_split_from (n : nat) :
  forall (s cur : str), length s <= n ->
    join sep (split_from sep 0 cur s) = rev cur ++ s.
Proof.
  induction n as [|n IH]; intros s cur Hlen.
  - destruct s; [|simpl in Hlen; lia]. simpl. now rewrite app_nil_r.
  - destruct s as [|c s]; [simpl; now rewrite app_nil_r|].
    destruct (startswith sep (c :: s)) eqn:E.
    + rewrite split_from_hit by exact E.
      rewrite join_cons by apply split_from_nonempty.
      pose proof (startswith_split _ _ E) as Hs.
      rewrite IH.
      * simpl rev. rewrite app_nil_l. now rewrite <- Hs.
      * rewrite length_skipn. destruct sep; [congruence|]. simpl in *. lia.
    + rewrite split_from_miss by exact E.
      rewrite IH by (simpl in Hlen; lia).
      simpl. now rewrite <- app_assoc.
Qed.

Lemma join_split (s : str) : join sep (split sep s) = s.
Proof. unfold split. now rewrite (join_split_from (length s)). Qed.

End SplitJoin.

Section Trailing.

Lemma no_trailing_app (s t : str) :
  t <> [] -> Spec.no_trailing_space (s ++ t) = Spec.no_trailing_space t.
Proof.
  intros Ht. unfold Spec.no_trailing_space. rewrite rev_app_distr.
  destruct (rev t) as [|c r] eqn:E.
  - apply (f_equal (@rev char)) in E. rewrite rev_involutive in E. now subst.
  - reflexivity.
Qed.

Lemma no_leading_app (s t : str) :
  s <> [] -> Spec.no_leading_space (s ++ t) = Spec.no_leading_space s.
Proof. destruct s; [congruence|reflexivity]. Qed.

Lemma no_trailing_snoc (s : str) (c : char) :
  Spec.no_trailing_space (s ++ [c]) = negb (is_space c).
Proof. unfold Spec.no_trailing_space. now rewrite rev_app_distr. Qed.

(** A string that ends with a character other than white space is not
    emptied by [strip]. *)
Lemma strip_nonempty (s : str) :
  s <> [] -> Spec.no_trailing_space s = true -> strip s <> [].
Proof.
  intros Hne Ht.
  destruct (exists_last Hne) as (s' & z & ->).
  rewrite no_trailing_snoc in Ht. apply negb_true_iff in Ht.
  unfold strip, strip_of.
  destruct (lstrip_of_suffix is_space (s' ++ [z])) as (pre & E & Hpre).
  pose proof (lstrip_of_no_leading is_space (s' ++ [z])) as Hl.
  destruct (lstrip_of is_space (s' ++ [z])) as [|c t].
  - rewrite app_nil_r in E. rewrite <- E in Hpre.
    rewrite forallb_app in Hpre. simpl in Hpre. rewrite Ht in Hpre.
    now rewrite andb_false_r in Hpre.
  - destruct (rstrip_of_head is_space c t Hl) as (t' & ->). discriminate.
Qed.

End Trailing.

(* ================================================================== *)
(** * The parser of [books.txt] *)
(* ================================================================== *)

Section Parser.

Import BookRegistry.

Lemma nth_map_strip (i : nat) (parts : list str) :
  nth i (map strip parts) [] = strip (nth i parts []).
Proof. rewrite <- strip_nil at 1. apply map_nth. Qed.

Lemma parse_book_line_unfold (line : str) :
  parse_book_line line =
  match strip line with
  | [] => (None, [])
  | _ =>
      if length (Spec.segments line) <? 5 then
        (None,
         [lit "Warning: Invalid format in line: " ++ strip line;
          lit "Expected format: rating - date - title - author - description"])
      else
        (Some {| rating := strip (nth 0 (Spec.segments line) []);
                 date_read := strip (nth 1 (Spec.segments line) []);
                 title := strip (nth 2 (Spec.segments line) []);
                 author := strip (nth 3 (Spec.segments line) []);
                 description :=
                   join DELIM (map strip (skipn 4 (Spec.segments line))) |},
         [])
  end.
Proof.
  unfold parse_book_line, Spec.segments.
  destruct (strip line) as [|c l]; [reflexivity|].
  now rewrite length_map, !nth_map_strip, skipn_map.
Qed.

Lemma parse_book_line_some (line : str) (b : Book) :
  fst (parse_book_line line) = Some b ->
  strip line <> [] /\ 5 <= length (Spec.segments line) /\
  b = {| rating := strip (nth 0 (Spec.segments line) []);
         date_read := strip (nth 1 (Spec.segments line) []);
         title := strip (nth 2 (Spec.segments line) []);
         author := strip (nth 3 (Spec.segments line) []);
         description := join DELIM (map strip (skipn 4 (Spec.segments line))) |}.
Proof.
  rewrite parse_book_line_unfold.
  destruct (strip line) as [|c l] eqn:E; [discriminate|].
  destruct (length (Spec.segments line) <? 5) eqn:L; [discriminate|].
  apply Nat.ltb_ge in L. cbn [fst]. intros H.
  repeat split; [discriminate|exact L|congruence].
Qed.

(** C3 (amended).  A line whose trimmed text splits on [" - "] into at
    least five segments parses to a record, and prints nothing: the
    rating, the date, the title and the author are the segments 0 to 3,
    each with the white space around it stripped, and the description is
    the segments from the fifth on, each stripped, joined again with
    [" - "].  A description that contains the delimiter is neither
    refused nor cut. *)
Theorem parse_book_line_fields (line : str) :
  5 <= length (Spec.segments line) ->
  parse_book_line line =
  (Some {| rating := strip (nth 0 (Spec.segments line) []);
           date_read := strip (nth 1 (Spec.segments line) []);
           title := strip (nth 2 (Spec.segments line) []);
           author := strip (nth 3 (Spec.segments line) []);
           description := join DELIM (map strip (skipn 4 (Spec.segments line))) |},
   []).
Proof.
  intros H. rewrite parse_book_line_unfold.
  destruct (strip line) as [|c l] eqn:E.
  - unfold Spec.segments in H. rewrite E in H. cbv in H. lia.
  - destruct (length (Spec.segments line) <? 5) eqn:L; [|reflexivity].
    apply Nat.ltb_lt in L. lia.
Qed.

Lemma parse_book_line_fields_witness :
  5 <= length (Spec.segments Spec.example_line) /\
  parse_book_line Spec.example_line =
  (Some {| rating := lit "4 stars";
           date_read := lit "2024-01-01";
           title := lit "Title";
           author := lit "Author";
           description := lit "Part one - Part two" |},
   []).
Proof.
  split.
  - vm_compute. lia.
  - exact (parse_book_line_fields Spec.example_line
             ltac:(vm_compute; lia)).
Defined.

(** C3 as it is written fails: the segment 0 of this line is ["5 "], and
    the rating is ["5"]; the description is written with two spaces
    around its hyphen and comes out with one. *)
Lemma parse_book_line_fields_unstripped_fails :
  let line := lit "5  - d - t - a - one  -  two" in
  let segs := Spec.segments line in
  5 <= length segs /\
  fst (parse_book_line line) <>
  Some {| rating := nth 0 segs [];
          date_read := nth 1 segs [];
          title := nth 2 segs [];
          author := nth 3 segs [];
          description := join DELIM (skipn 4 segs) |} /\
  nth 0 segs [] = lit "5 " /\
  option_map rating (fst (parse_book_line line)) = Some (lit "5") /\
  join DELIM (skipn 4 segs) = lit "one  -  two" /\
  option_map description (fst (parse_book_line line)) = Some (lit "one - two").
Proof.
  cbv zeta. split; [vm_compute; lia|].
  split; [vm_compute; intros H; discriminate H|].
  repeat split; vm_compute; reflexivity.
Qed.

(** C10 (amended).  In every record the parser returns, the rating, the
    date, the title and the author have no white space at either end,
    and the description has none at its end; the description has none
    at its start either when its first segment is not blank. *)
Theorem parse_book_line_fields_trimmed (line : str) (b : Book) :
  fst (parse_book_line line) = Some b ->
  Spec.trimmed (rating b) = true /\
  Spec.trimmed (date_read b) = true /\
  Spec.trimmed (title b) = true /\
  Spec.trimmed (author b) = true /\
  Spec.no_trailing_space (description b) = true /\
  (strip (nth 4 (Spec.segments line) []) <> [] ->
   Spec.no_leading_space (description b) = true).
Proof.
  intros H. apply parse_book_line_some in H as (Hline & Hlen & ->).
  cbn [rating date_read title author description].
  repeat (split; [apply strip_trimmed|]).
  assert (Hsep : DELIM <> []) by discriminate.
  unfold Spec.segments in *.
  set (line' := strip line) in *.
  pose proof (join_split DELIM Hsep line') as Hjoin.
  set (parts := split DELIM line') in *.
  assert (Hparts : parts <> []) by (intros E; rewrite E in Hlen; simpl in Hlen; lia).
  destruct (exists_last Hparts) as (init & pl & Eparts).
  assert (Hinit : 4 <= length init).
  { rewrite Eparts, length_app in Hlen. simpl in Hlen. lia. }
  assert (Hinit' : init <> []) by (intros E; rewrite E in Hinit; simpl in Hinit; lia).
  rewrite Eparts in Hjoin. rewrite (join_app_last DELIM init pl Hinit') in Hjoin.
  assert (Htrail : Spec.no_trailing_space line' = true) by apply strip_no_trailing.
  (* the last segment ends the line *)
  assert (Hpl : pl <> [] /\ Spec.no_trailing_space pl = true).
  { destruct pl as [|z pl'].
    - exfalso. rewrite <- Hjoin in Htrail.
      rewrite app_nil_r in Htrail.
      change DELIM with ([ch " "; ch "-"] ++ [ch " "]) in Htrail.
      rewrite app_assoc, no_trailing_snoc in Htrail. discriminate Htrail.
    - split; [discriminate|].
      rewrite <- Hjoin, !app_assoc in Htrail.
      now rewrite no_trailing_app in Htrail by discriminate. }
  destruct Hpl as (Hpl1 & Hpl2).
  pose proof (strip_nonempty pl Hpl1 Hpl2) as Hspl.
  split.
  - (* no white space at the end *)
    rewrite Eparts, skipn_app, map_app.
    replace (4 - length init) with 0 by lia.
    change (skipn 0 [pl]) with [pl]. change (map strip [pl]) with [strip pl].
    destruct (skipn 4 init) as [|q rest] eqn:Es.
    + simpl. apply strip_no_trailing.
    + rewrite join_app_last by (simpl; discriminate).
      rewrite !app_assoc, no_trailing_app by exact Hspl.
      apply strip_no_trailing.
  - (* none at the start when the first segment is not blank *)
    intros H4.
    assert (Hskip : exists rest, skipn 4 parts = nth 4 parts [] :: rest).
    { clear -Hlen. destruct parts as [|p0 [|p1 [|p2 [|p3 [|p4 rest]]]]];
        simpl in Hlen; try lia. now exists rest. }
    destruct Hskip as (rest & ->). cbn [map].
    destruct rest as [|r rest].
    + simpl. apply strip_no_leading.
    + rewrite join_cons by (simpl; discriminate).
      rewrite no_leading_app by exact H4. apply strip_no_leading.
Qed.

Lemma parse_book_line_fields_trimmed_witness :
  fst (parse_book_line Spec.example_line) =
    Some {| rating := lit "4 stars";
            date_read := lit "2024-01-01";
            title := lit "Title";
            author := lit "Author";
            description := lit "Part one - Part two" |} /\
  Spec.trimmed (lit "4 stars") = true /\
  Spec.trimmed (lit "2024-01-01") = true /\
  Spec.trimmed (lit "Title") = true /\
  Spec.trimmed (lit "Author") = true /\
  Spec.no_trailing_space (lit "Part one - Part two") = true /\
  (strip (nth 4 (Spec.segments Spec.example_line) []) <> [] ->
   Spec.no_leading_space (lit "Part one - Part two") = true).
Proof.
  split.
  - vm_compute. reflexivity.
  - exact (parse_book_line_fields_trimmed Spec.example_line _
             ltac:(vm_compute; reflexivity)).
Defined.

(** C10 as it is written fails: when the first segment of the
    description is empty and another follows, the description starts
    with the space of the delimiter. *)
Lemma description_leading_space :
  let line := lit "r - d - t - a -  - x" in
  option_map description (fst (parse_book_line line)) = Some (lit " - x") /\
  Spec.no_leading_space (lit " - x") = false /\
  ~ (forall b, fst (parse_book_line line) = Some b ->
               Spec.trimmed (description b) = true).
Proof.
  cbv zeta. split; [vm_compute; reflexivity|].
  split; [vm_compute; reflexivity|].
  intros H.
  specialize (H {| rating := lit "r"; date_read := lit "d"; title := lit "t";
                   author := lit "a"; description := lit " - x" |}).
  assert (E : fst (parse_book_line (lit "r - d - t - a -  - x")) =
              Some {| rating := lit "r"; date_read := lit "d"; title := lit "t";
                      author := lit "a"; description := lit " - x" |})
    by (vm_compute; reflexivity).
  specialize (H E). vm_compute in H. discriminate H.
Qed.

(** ** The loop over the lines *)

Lemma parse_books_ignores_numbers (n m : nat) (lines : list str) :
  parse_books (enumerate n lines) = parse_books (enumerate m lines).
Proof.
  revert n m; induction lines as [|l lines IH]; intros n m; simpl; [reflexivity|].
  now rewrite (IH (S n) (S m)).
Qed.

Lemma parse_books_skips (n : nat) (line : str) (rest : list (nat * str)) :
  strip line = [] \/ startswith (lit "#") (strip line) = true ->
  parse_books ((n, line) :: rest) = parse_books rest.
Proof.
  intros H. cbn [parse_books].
  destruct (parse_books rest) as (books, printed).
  destruct (strip line) as [|c l] eqn:E; [reflexivity|].
  destruct H as [H|H]; [discriminate|]. now rewrite H.
Qed.

Lemma parse_books_malformed (n : nat) (line : str) (rest : list (nat * str)) :
  strip line <> [] -> startswith (lit "#") (strip line) = false ->
  length (Spec.segments line) < 5 ->
  parse_books ((n, line) :: rest) =
  (fst (parse_books rest),
   [lit "Warning: Invalid format in line: " ++ strip line;
    lit "Expected format: rating - date - title - author - description"]
   ++ snd (parse_books rest)).
Proof.
  intros Hne Hc Hlen. cbn [parse_books].
  destruct (parse_books rest) as (books, printed).
  unfold parse_book_line. unfold Spec.segments in Hlen.
  destruct (strip line) as [|c l] eqn:E; [congruence|].
  rewrite Hc, length_map.
  apply Nat.ltb_lt in Hlen. now rewrite Hlen.
Qed.

(** C4.  The warning for a malformed line names the line by its trimmed
    text, and not by its number: what the loop over the lines returns
    and prints is the same whatever the numbers of the lines are, and
    the same malformed line prints the same two lines as line 1 of a
    file and as line 3.  (A blank line and a line that starts with [#]
    print nothing, and the loop goes on after a malformed line:
    [parse_books_skips], [parse_books_malformed].) *)
Theorem malformed_line_warning_has_no_line_number :
  (forall (n m : nat) (lines : list str),
      parse_books (enumerate n lines) = parse_books (enumerate m lines)) /\
  parse_books (enumerate 1 (readlines (lit "bad line" ++ [nl]))) =
    ([], [lit "Warning: Invalid format in line: bad line";
          lit "Expected format: rating - date - title - author - description"]) /\
  parse_books (enumerate 1 (readlines ([nl; nl] ++ lit "bad line" ++ [nl]))) =
    ([], [lit "Warning: Invalid format in line: bad line";
          lit "Expected format: rating - date - title - author - description"]).
Proof.
  split; [exact parse_books_ignores_numbers|].
  split; vm_compute; reflexivity.
Qed.

End Parser.

(* ================================================================== *)
(** * The renderer of the book fragments *)
(* ================================================================== *)

Section Renderer.

Import BookRegistry.

Lemma html_escape_cons (c : char) (s : str) :
  html_escape (c :: s) = Spec.escape_char c ++ html_escape s.
Proof.
  unfold html_escape, replace_char, Spec.escape_char.
  cbn [flat_map]. rewrite !flat_map_app. f_equal.
  repeat match goal with
         | |- context [if (c =? ?x)%N then _ else _] =>
             destruct (c =? x)%N; [reflexivity|]; cbn [flat_map app]
         end.
  reflexivity.
Qed.


(** The cases of one character: one of the five, or any other. *)
Lemma escape_char_cases (c : char) :
  (c = ch "&" \/ c = ch "<" \/ c = ch ">" \/ c = dq \/ c = ch "'") \/
  ((c =? ch "&")%N = false /\ (c =? ch "<")%N = false /\
   (c =? ch ">")%N = false /\ Spec.escape_char c = [c]).
Proof.
  unfold Spec.escape_char.
  destruct (c =? ch "&")%N eqn:E1; [apply N.eqb_eq in E1; tauto|].
  destruct (c =? ch "<")%N eqn:E2; [apply N.eqb_eq in E2; tauto|].
  destruct (c =? ch ">")%N eqn:E3; [apply N.eqb_eq in E3; tauto|].
  destruct (c =? dq)%N eqn:E4; [apply N.eqb_eq in E4; tauto|].
  destruct (c =? ch "'")%N eqn:E5; [apply N.eqb_eq in E5; tauto|].
  right. repeat split; reflexivity.
Qed.

(** ** Taking the tags out *)








(** ** Reading the character references back *)

Lemma unescape_from_skip (k : nat) (s : str) :
  k <= length s -> Spec.unescape_from k s = Spec.unescape_from 0 (skipn k s).
Proof.
  revert s; induction k as [|k IH]; intros s Hk; [reflexivity|].
  destruct s as [|c s]; simpl in *; [lia|]. apply IH. lia.
Qed.





(** ** The text of the rendered entries *)







Lemma html_escape_no_markup (s : str) :
  forallb (fun c => negb (Spec.is_markup c)) (html_escape s) = true.
Proof.
  induction s as [|c s IH]; [reflexivity|].
  rewrite html_escape_cons, forallb_app, IH, andb_true_r.
  unfold Spec.escape_char, Spec.is_markup.
  destruct (c =? ch "&")%N; [reflexivity|].
  destruct (c =? ch "<")%N eqn:E2; [reflexivity|].
  destruct (c =? ch ">")%N eqn:E3; [reflexivity|].
  destruct (c =? dq)%N eqn:E4; [reflexivity|].
  destruct (c =? ch "'")%N eqn:E5; [reflexivity|].
  cbn [forallb]. now rewrite E2, E3, E4, E5.
Qed.


End Renderer.

(* ================================================================== *)
(** * The scan of [re.sub] *)
(* ================================================================== *)

Section SubLoop.

Variable r : regex.
Variable tpl : list titem.

Lemma sub_loop_skip (k : nat) (s : str) :
  k <= length s -> sub_loop r tpl k s = sub_loop r tpl 0 (skipn k s).
Proof.
  revert s; induction k as [|k IH]; intros s Hk; [reflexivity|].
  destruct s as [|c s]; simpl in Hk; [lia|].
  cbn [sub_loop skipn]. apply IH. lia.
Qed.

(** At an offset where the pattern does not match, the character is
    copied. *)
Lemma sub_loop_copy (c : char) (s : str) :
  match_at r (c :: s) = None ->
  sub_loop r tpl 0 (c :: s) = c :: sub_loop r tpl 0 s.
Proof. intros H. cbn [sub_loop]. now rewrite H. Qed.

(** At an offset where the pattern matches [n > 0] characters, the
    expanded template is written and the scan goes on after them. *)
Lemma sub_loop_match (s : str) (st : mstate) :
  match_at r s = Some st -> 0 < pos st -> pos st <= length s ->
  sub_loop r tpl 0 s = expand tpl s st ++ sub_loop r tpl 0 (skipn (pos st) s).
Proof.
  intros H Hpos Hlen. destruct s as [|c s]; [simpl in Hlen; lia|].
  cbn [sub_loop]. rewrite H. f_equal.
  destruct (pos st) as [|n]; [lia|].
  simpl in Hlen. rewrite sub_loop_skip by lia. reflexivity.
Qed.

End SubLoop.

(* ================================================================== *)
(** * Slugs *)
(* ================================================================== *)

Section Slugify.

Context {RT : Runtime}.
Import MdToHtml.

Lemma parse_template_plain (groups : nat) (f : str -> option N) (repl : str) :
  forallb (fun c => negb (c =? bs)%N) repl = true ->
  parse_template groups f repl = Some (map TChar repl).
Proof.
  unfold parse_template. induction repl as [|c repl IH]; intros H; [reflexivity|].
  cbn [forallb] in H. apply andb_true_iff in H as [Hc Hr].
  apply negb_true_iff in Hc.
  cbn [tparse tstep]. unfold normal_step. rewrite Hc, (IH Hr). reflexivity.
Qed.

Lemma expand_chars (u s : str) (st : mstate) : expand (map TChar u) s st = u.
Proof.
  unfold expand. induction u as [|c u IH]; [reflexivity|].
  cbn [map flat_map expand_item app]. now rewrite IH.
Qed.

(** The first substitution of [slugify] deletes the characters of the
    class. *)
Lemma sub_loop_delete (p : char -> bool) (s : str) :
  sub_loop (Cls p) [] 0 s = filter (fun c => negb (p c)) s.
Proof.
  induction s as [|c s IH]; [reflexivity|].
  cbn [sub_loop filter]. unfold match_at. cbn [rmatch].
  destruct (p c); cbn [negb pos advance Nat.add expand flat_map app];
    now rewrite IH.
Qed.

Lemma star_greedy_run (p : char -> bool) (st : mstate) (s : str) :
  star true p (fun st' _ => Some st') st s =
  Some (advance (Spec.run_length p s) st).
Proof.
  revert st; induction s as [|c s IH]; intros st.
  - cbn. unfold advance. now rewrite Nat.add_0_r; destruct st.
  - cbn [star Spec.run_length]. destruct (p c).
    + rewrite IH. unfold advance. cbn [pos caps].
      now rewrite <- Nat.add_assoc.
    + unfold advance. now rewrite Nat.add_0_r; destruct st.
Qed.

Lemma match_at_plus (p : char -> bool) (c : char) (s : str) :
  match_at (Plus p) (c :: s) =
  if p c then Some (MState (S (Spec.run_length p s)) []) else None.
Proof.
  unfold match_at, Plus. cbn [rmatch]. destruct (p c); [|reflexivity].
  rewrite star_greedy_run. reflexivity.
Qed.

Lemma run_le_length (p : char -> bool) (s : str) : Spec.run_length p s <= length s.
Proof.
  induction s as [|c s IH]; simpl; [lia|]. destruct (p c); lia.
Qed.

Lemma collapse_runs_in_run (p : char -> bool) (s : str) :
  Spec.collapse_runs p true s =
  Spec.collapse_runs p false (skipn (Spec.run_length p s) s).
Proof.
  induction s as [|c s IH]; [reflexivity|].
  cbn [Spec.collapse_runs Spec.run_length].
  destruct (p c) eqn:E; [exact IH|].
  cbn [skipn Spec.collapse_runs]. now rewrite E.
Qed.

(** The second substitution of [slugify] writes one hyphen for each run
    of characters of the class. *)
Lemma sub_loop_collapse (p : char -> bool) (n : nat) :
  forall s : str, length s <= n ->
    sub_loop (Plus p) [TChar (ch "-")] 0 s = Spec.collapse_runs p false s.
Proof.
  induction n as [|n IH]; intros s Hlen.
  - destruct s; [reflexivity|simpl in Hlen; lia].
  - destruct s as [|c s]; [reflexivity|].
    cbn [sub_loop Spec.collapse_runs]. rewrite match_at_plus.
    simpl in Hlen.
    destruct (p c).
    + cbn [pos expand flat_map expand_item app].
      rewrite sub_loop_skip by apply run_le_length.
      rewrite collapse_runs_in_run. f_equal.
      apply IH. rewrite length_skipn. lia.
    + f_equal. apply IH. lia.
Qed.

Lemma re_sub_delete (p : char -> bool) (text : str) :
  re_sub (Cls p) [] text = filter (fun c => negb (p c)) text.
Proof.
  unfold re_sub, Re.sub. rewrite parse_template_plain by reflexivity.
  apply sub_loop_delete.
Qed.

Lemma re_sub_collapse (p : char -> bool) (text : str) :
  re_sub (Plus p) (lit "-") text = Spec.collapse_runs p false text.
Proof.
  unfold re_sub, Re.sub. rewrite parse_template_plain by reflexivity.
  apply (sub_loop_collapse p (length text)). lia.
Qed.

Lemma slugify_slug (text : str) : slugify text = Spec.slug text.
Proof.
  unfold slugify, Spec.slug. rewrite re_sub_delete, re_sub_collapse.
  f_equal. f_equal. apply filter_ext. intros c.
  unfold Spec.keeps. now rewrite negb_involutive.
Qed.

(** A text of hyphens and white space collapses to at most one hyphen. *)
Lemma collapse_runs_all (p : char -> bool) (q : bool) (s : str) :
  forallb p s = true ->
  Spec.collapse_runs p q s = [] \/ Spec.collapse_runs p q s = [ch "-"].
Proof.
  revert q; induction s as [|c s IH]; intros q H; [now left|].
  cbn [forallb] in H. apply andb_true_iff in H as [Hc Hs].
  cbn [Spec.collapse_runs]. rewrite Hc.
  destruct q; [now apply IH|].
  right. f_equal.
  assert (E : forall t, forallb p t = true -> Spec.collapse_runs p true t = []).
  { clear. induction t as [|x t IHt]; intros H; [reflexivity|].
    cbn [forallb] in H. apply andb_true_iff in H as [Hx Ht].
    cbn [Spec.collapse_runs]. rewrite Hx. now apply IHt. }
  now apply E.
Qed.

Lemma slug_without_word_chars (text : str) :
  forallb (fun c => negb (is_word c)) (lower text) = true ->
  Spec.slug text = [].
Proof.
  intros H. unfold Spec.slug.
  assert (Hall : forallb Spec.hyphen_or_space
                   (filter Spec.keeps (lower text)) = true).
  { revert H. generalize (lower text) as s.
    induction s as [|c s IH]; intros H; [reflexivity|].
    cbn [forallb] in H. apply andb_true_iff in H as [Hc Hs].
    apply negb_true_iff in Hc.
    cbn [filter]. unfold Spec.keeps at 1. rewrite Hc. cbn [orb].
    destruct (is_space c || is_hyphen c) eqn:E.
    - cbn [forallb]. rewrite (IH Hs), andb_true_r.
      unfold Spec.hyphen_or_space. now rewrite orb_comm.
    - now apply IH. }
  destruct (collapse_runs_all Spec.hyphen_or_space false _ Hall) as [-> | ->];
    reflexivity.
Qed.

(** C9 (amended).  [slugify] is the composition the specification
    words: lower-case, delete what is not a word character, white space
    or a hyphen, collapse each run of white space and hyphens into one
    hyphen, trim the hyphens at both ends.  ["My Post: Part 2!"] gives
    ["my-post-part-2"], the empty title gives the empty slug, and so
    does every title that has no word character once lower-cased; the
    underscore is a word character and stays. *)
Theorem slugify_is_composition (text : str) :
  slugify text = Spec.slug text /\
  slugify (lit "My Post: Part 2!") = lit "my-post-part-2" /\
  slugify [] = [] /\
  slugify (lit "a_b") = lit "a_b" /\
  (forallb (fun c => negb (is_word c)) (lower text) = true -> slugify text = []).
Proof.
  split; [apply slugify_slug|].
  split; [vm_compute; reflexivity|].
  split; [vm_compute; reflexivity|].
  split; [vm_compute; reflexivity|].
  intros H. rewrite slugify_slug. now apply slug_without_word_chars.
Qed.

End Slugify.

Lemma slugify_is_composition_witness :
  forallb (fun c => negb (@MdToHtml.is_word ascii_runtime c))
          (@MdToHtml.lower ascii_runtime (lit "?! -- ...")) = true /\
  @MdToHtml.slugify ascii_runtime (lit "?! -- ...") = [].
Proof.
  split.
  - vm_compute. reflexivity.
  - apply (proj2 (proj2 (proj2 (proj2
             (@slugify_is_composition ascii_runtime (lit "?! -- ...")))))).
    vm_compute. reflexivity.
Defined.

(** C9 as it is written fails: the underscore is a punctuation
    character, and a title made of it alone keeps it as its slug. *)
Lemma punctuation_only_slug_not_empty :
  forallb Spec.is_punctuation (lit "_") = true /\
  @MdToHtml.slugify ascii_runtime (lit "_") = lit "_" /\
  @MdToHtml.slugify ascii_runtime (lit "_") <> [].
Proof.
  split; [vm_compute; reflexivity|].
  split; [vm_compute; reflexivity|].
  vm_compute. discriminate.
Qed.

(* ================================================================== *)
(** * Dates *)
(* ================================================================== *)

(** Boolean tests on characters, as arithmetic. *)
Ltac char_props :=
  cbv [in_range is_ascii_digit is_ascii ch N_of_ascii N_of_digits] in *;
  cbn [N.add N.mul Pos.add Pos.mul Pos.succ] in *;
  repeat match goal with
         | H : (_ && _)%bool = true |- _ => apply andb_true_iff in H as [? ?]
         | H : (_ && _)%bool = false |- _ => apply andb_false_iff in H
         | H : (_ =? _)%N = true |- _ => apply N.eqb_eq in H
         | H : (_ =? _)%N = false |- _ => apply N.eqb_neq in H
         | H : (_ <=? _)%N = true |- _ => apply N.leb_le in H
         | H : (_ <=? _)%N = false |- _ => apply N.leb_gt in H
         | H : (_ <? _)%N = true |- _ => apply N.ltb_lt in H
         | H : (_ <? _)%N = false |- _ => apply N.ltb_ge in H
         end.

Ltac char_test_true :=
  cbv [in_range is_ascii_digit is_ascii ch N_of_ascii N_of_digits];
  cbn [N.add N.mul Pos.add Pos.mul Pos.succ];
  repeat (apply andb_true_iff; split);
  first [apply N.eqb_eq | apply N.leb_le | apply N.ltb_lt]; lia.

Ltac char_test_false :=
  cbv [in_range is_ascii_digit is_ascii ch N_of_ascii N_of_digits];
  cbn [N.add N.mul Pos.add Pos.mul Pos.succ];
  first [ apply N.eqb_neq; lia
        | apply N.leb_gt; lia
        | apply N.ltb_ge; lia
        | apply andb_false_iff; left; apply N.leb_gt; lia
        | apply andb_false_iff; right; apply N.leb_gt; lia ].

Section Dates.

Context {RT : Runtime}.
Import MdToHtml.

Lemma rmatch_hyphen (k : cont mstate) (st : mstate) (s : str) :
  rmatch (Lit (lit "-")) k st s =
  match s with
  | c :: s' => if (ch "-" =? c)%N then k (advance 1 st) s' else None
  | [] => None
  end.
Proof.
  change (lit "-") with [ch "-"]. destruct s as [|c s]; [reflexivity|].
  cbn [rmatch startswith length skipn]. now rewrite andb_true_r.
Qed.

(** The year: four digits. *)
Lemma rmatch_year (k : cont mstate) (s : str) :
  rmatch (Group 1 year_re) k (MState 0 []) s =
  match s with
  | c1 :: c2 :: c3 :: c4 :: s' =>
      if is_decimal c1 && is_decimal c2 && is_decimal c3 && is_decimal c4
      then k (MState 4 [(1, (0, 4))]) s' else None
  | _ => None
  end.
Proof.
  unfold year_re, digit.
  destruct s as [|c1 [|c2 [|c3 [|c4 s]]]]; cbn [rmatch];
    repeat match goal with
           | |- context [is_decimal ?c] => destruct (is_decimal c)
           end; reflexivity.
Qed.

(** The month, in front of a hyphen. *)
Lemma rmatch_month (k : cont mstate) (s : str) :
  (forall st c s', (ch "-" =? c)%N = false -> k st (c :: s') = None) ->
  (forall st, k st [] = None) ->
  rmatch (Group 2 month_re) k (MState 5 [(1, (0, 4))]) s =
  match Spec.month_field s with
  | Some (M, rest) =>
      k (MState (5 + length M) [(2, (5, 5 + length M)); (1, (0, 4))]) rest
  | None => None
  end.
Proof.
  intros Hk Hnil. unfold month_re, one, range, Spec.month_field.
  assert (Hfin : forall (x : option mstate),
             match x with Some y => Some y | None => None end = x)
    by (now intros [y|]).
  destruct s as [|a [|b s]]; cbn [rmatch advance set_cap pos caps Nat.add].
  - reflexivity.
  - destruct (ch "1" =? a)%N, (ch "0" =? a)%N, (in_range (ch "1") (ch "9") a);
      cbn [length Nat.add]; rewrite ?Hnil; reflexivity.
  - destruct (ch "1" =? a)%N eqn:E1.
    + apply N.eqb_eq in E1. subst a.
      change (ch "0" =? ch "1")%N with false.
      change (in_range (ch "1") (ch "9") (ch "1")) with true.
      cbn [andb length Nat.add].
      destruct (in_range (ch "0") (ch "2") b) eqn:E2.
      * rewrite (Hk _ b s) by (clear -E2; char_props; char_test_false).
        cbn [advance set_cap pos caps Nat.add]. apply Hfin.
      * reflexivity.
    + cbn [andb].
      destruct (ch "0" =? a)%N eqn:E3.
      * apply N.eqb_eq in E3. subst a.
        change (in_range (ch "1") (ch "9") (ch "0")) with false.
        cbn [andb length Nat.add].
        destruct (in_range (ch "1") (ch "9") b);
          cbn [advance set_cap pos caps Nat.add]; [apply Hfin|reflexivity].
      * cbn [andb length Nat.add].
        destruct (in_range (ch "1") (ch "9") a); reflexivity.
Qed.

(** The day, at the end of the pattern. *)
Lemma rmatch_day (p : nat) (cs : list (nat * (nat * nat))) (s : str) :
  rmatch (Group 3 day_re) Spec.accept (MState p cs) s =
  match Spec.day_field s with
  | Some (D, rest) =>
      Some (MState (p + length D) ((3, (p, p + length D)) :: cs))
  | None => None
  end.
Proof.
  unfold day_re, one, range, digit, Spec.day_field, Spec.accept.
  destruct s as [|a [|b s]]; cbn [rmatch].
  - reflexivity.
  - destruct (ch "3" =? a)%N, (in_range (ch "1") (ch "2") a), (ch "0" =? a)%N,
      (in_range (ch "1") (ch "9") a), (ch " " =? a)%N;
      cbn [andb]; try reflexivity;
      unfold advance, set_cap; cbn [pos caps length];
      rewrite <- ?Nat.add_assoc; reflexivity.
  - destruct (ch "3" =? a)%N, (in_range (ch "0") (ch "1") b),
      (in_range (ch "1") (ch "2") a), (is_decimal b), (ch "0" =? a)%N,
      (in_range (ch "1") (ch "9") b), (in_range (ch "1") (ch "9") a),
      (ch " " =? a)%N;
      cbn [andb]; try reflexivity;
      unfold advance, set_cap; cbn [pos caps length];
      rewrite <- ?Nat.add_assoc; reflexivity.
Qed.

Lemma match_at_date_regex (s : str) :
  match_at date_regex s =
  match Spec.date_parts s with
  | Some (_, M, D, _) => Some (Spec.date_match M D)
  | None => None
  end.
Proof.
  unfold match_at, date_regex, Spec.date_parts.
  change (rmatch (Group 1 year_re ;; Lit (lit "-") ;; Group 2 month_re ;;
                  Lit (lit "-") ;; Group 3 day_re) (fun st _ => Some st))
    with (rmatch (Group 1 year_re)
            (rmatch (Lit (lit "-"))
               (rmatch (Group 2 month_re)
                  (rmatch (Lit (lit "-")) (rmatch (Group 3 day_re) Spec.accept))))).
  rewrite rmatch_year.
  destruct s as [|c1 [|c2 [|c3 [|c4 [|h1 s]]]]]; try reflexivity.
  - destruct (is_decimal c1 && is_decimal c2 && is_decimal c3 && is_decimal c4);
      [now rewrite rmatch_hyphen|reflexivity].
  - destruct (is_decimal c1 && is_decimal c2 && is_decimal c3 && is_decimal c4);
      [|reflexivity].
    cbn [andb]. rewrite rmatch_hyphen.
    destruct (ch "-" =? h1)%N; [|reflexivity].
    unfold advance; cbn [pos caps Nat.add].
    rewrite rmatch_month.
    + destruct (Spec.month_field s) as [[M rest]|]; [|reflexivity].
      rewrite rmatch_hyphen.
      destruct rest as [|h2 rest]; [reflexivity|].
      destruct (ch "-" =? h2)%N; [|reflexivity].
      unfold advance; cbn [pos caps]. rewrite rmatch_day.
      destruct (Spec.day_field rest) as [[D rest']|]; [|reflexivity].
      unfold Spec.date_match.
      replace (5 + length M + 1) with (6 + length M) by lia. reflexivity.
    + intros st c s' Hc. rewrite rmatch_hyphen. now rewrite Hc.
    + intros st. now rewrite rmatch_hyphen.
Qed.

(** ** The numbers of the three texts *)

Lemma ascii_digit_not_space (c : char) :
  is_ascii_digit c = true -> is_space c = false.
Proof.
  intros H. destruct (is_space c) eqn:E; [exfalso|reflexivity].
  unfold is_space in E.
  repeat (apply orb_true_iff in E as [E|E]); char_props; lia.
Qed.

Lemma decimal_value_digit (c : char) (v : N) :
  decimal_value c = Some v -> is_space c = false /\ (v < 10)%N.
Proof.
  unfold decimal_value. destruct (is_ascii_digit c) eqn:E.
  - intros [= <-]. split; [now apply ascii_digit_not_space|].
    char_props. lia.
  - destruct (is_ascii c); [discriminate|].
    intros H. apply decimal_nonascii_digit in H. tauto.
Qed.

Lemma decimal_value_ascii (c : char) :
  is_ascii_digit c = true -> decimal_value c = Some (c - 48)%N.
Proof. intros H. unfold decimal_value. now rewrite H. Qed.

Lemma is_decimal_value (c : char) :
  is_decimal c = true -> exists v, decimal_value c = Some v.
Proof.
  unfold is_decimal. destruct (decimal_value c) as [v|]; [now exists v|discriminate].
Qed.

Lemma decimal_value_is_decimal (c : char) (v : N) :
  decimal_value c = Some v -> is_decimal c = true.
Proof. unfold is_decimal. now intros ->. Qed.

(** [strip] leaves a text alone when its first and last characters are
    not white space. *)
Lemma strip_keeps (c : char) (s : str) (z : char) :
  is_space c = false -> is_space z = false ->
  strip (c :: s ++ [z]) = c :: s ++ [z].
Proof.
  intros Hc Hz. unfold strip, strip_of, rstrip_of.
  cbn [lstrip_of]. rewrite Hc.
  change (c :: s ++ [z]) with ((c :: s) ++ [z]).
  rewrite rev_app_distr. cbn [rev app lstrip_of]. rewrite Hz.
  change (z :: rev s ++ [c]) with ([z] ++ rev (c :: s)).
  rewrite rev_app_distr, rev_involutive. reflexivity.
Qed.

Lemma strip_keeps_one (c : char) :
  is_space c = false -> strip [c] = [c].
Proof.
  intros Hc. unfold strip, strip_of, rstrip_of.
  cbn [lstrip_of rev app]. rewrite Hc. cbn [rev app lstrip_of]. now rewrite Hc.
Qed.

Lemma range_digit (lo hi : ascii) (a : char) :
  in_range (ch lo) (ch hi) a = true ->
  (48 <= ch lo)%N -> (ch hi <= 57)%N ->
  is_ascii_digit a = true.
Proof.
  intros H Hlo Hhi. unfold in_range in H.
  apply andb_true_iff in H as [H1 H2].
  apply N.leb_le in H1. apply N.leb_le in H2.
  unfold is_ascii_digit, in_range.
  apply andb_true_iff. split; apply N.leb_le; lia.
Qed.

Ltac digit_of H :=
  eapply range_digit; [exact H | vm_compute; discriminate | vm_compute; discriminate].

Lemma int_year_text (Y : str) (y : N) : Spec.year_text Y y -> int Y = Some y.
Proof.
  intros [c1 c2 c3 c4 v1 v2 v3 v4 H1 H2 H3 H4].
  destruct (decimal_value_digit _ _ H1) as (S1 & _).
  destruct (decimal_value_digit _ _ H4) as (S4 & _).
  unfold int.
  pose proof (strip_keeps c1 [c2; c3] c4 S1 S4) as E. cbn [app] in E.
  rewrite E. cbn [int_digits]. rewrite H1, H2, H3, H4. f_equal; lia.
Qed.

Lemma int_two_digits (a b : char) (va vb : N) :
  decimal_value a = Some va -> decimal_value b = Some vb ->
  int [a; b] = Some (10 * va + vb)%N.
Proof.
  intros Ha Hb.
  destruct (decimal_value_digit _ _ Ha) as (Sa & _).
  destruct (decimal_value_digit _ _ Hb) as (Sb & _).
  unfold int.
  pose proof (strip_keeps a [] b Sa Sb) as E. cbn [app] in E.
  rewrite E. cbn [int_digits]. rewrite Ha, Hb. f_equal; lia.
Qed.

Lemma int_one_digit (a : char) (va : N) :
  decimal_value a = Some va -> int [a] = Some va.
Proof.
  intros Ha. destruct (decimal_value_digit _ _ Ha) as (Sa & _).
  unfold int. rewrite (strip_keeps_one a Sa).
  cbn [int_digits]. rewrite Ha. f_equal.
Qed.

Lemma int_space_digit (a : char) (va : N) :
  decimal_value a = Some va -> int [ch " "; a] = Some va.
Proof.
  intros Ha. destruct (decimal_value_digit _ _ Ha) as (Sa & _).
  unfold int, strip, strip_of, rstrip_of.
  change (lstrip_of is_space [ch " "; a]) with (lstrip_of is_space [a]).
  cbn [lstrip_of]. rewrite Sa. cbn [rev app lstrip_of]. rewrite Sa.
  cbn [rev app int_digits]. rewrite Ha. f_equal.
Qed.

Lemma int_month_text (M : str) (m : N) : Spec.month_text M m -> int M = Some m.
Proof.
  intros [a H|a H|a H].
  - rewrite (int_two_digits (ch "1") a 1 (a - 48)); [f_equal|reflexivity|].
    apply decimal_value_ascii. digit_of H.
  - rewrite (int_two_digits (ch "0") a 0 (a - 48)); [f_equal|reflexivity|].
    apply decimal_value_ascii. digit_of H.
  - apply int_one_digit, decimal_value_ascii. digit_of H.
Qed.

Lemma int_day_text (D : str) (d : N) : Spec.day_text D d -> int D = Some d.
Proof.
  intros [a H|a b v H Hb|a H|a H|a H].
  - rewrite (int_two_digits (ch "3") a 3 (a - 48)); [f_equal|reflexivity|].
    apply decimal_value_ascii. digit_of H.
  - apply int_two_digits; [|exact Hb].
    apply decimal_value_ascii. digit_of H.
  - rewrite (int_two_digits (ch "0") a 0 (a - 48)); [f_equal|reflexivity|].
    apply decimal_value_ascii. digit_of H.
  - apply int_one_digit, decimal_value_ascii. digit_of H.
  - apply int_space_digit, decimal_value_ascii. digit_of H.
Qed.

(** ** The three texts of an accepted string *)

Lemma month_field_shape (s M rest : str) :
  Spec.month_field s = Some (M, rest) ->
  s = M ++ rest /\ exists m, Spec.month_text M m.
Proof.
  unfold Spec.month_field.
  destruct s as [|a [|b s2]]; [discriminate| |].
  - destruct (in_range (ch "1") (ch "9") a) eqn:E; [|discriminate].
    intros [= <- <-]. split; [reflexivity|]. eexists. now apply Spec.month_digit.
  - destruct (ch "1" =? a)%N eqn:E1; cbn [andb].
    + apply N.eqb_eq in E1. subst a.
      destruct (in_range (ch "0") (ch "2") b) eqn:E2.
      * intros [= <- <-]. split; [reflexivity|]. eexists. now apply Spec.month_ten.
      * intros [= <- <-]. split; [reflexivity|]. eexists.
        now apply Spec.month_digit.
    + destruct (ch "0" =? a)%N eqn:E3; cbn [andb].
      * apply N.eqb_eq in E3. subst a.
        destruct (in_range (ch "1") (ch "9") b) eqn:E4.
        -- intros [= <- <-]. split; [reflexivity|]. eexists.
           now apply Spec.month_padded.
        -- discriminate.
      * destruct (in_range (ch "1") (ch "9") a) eqn:E5; [|discriminate].
        intros [= <- <-]. split; [reflexivity|]. eexists.
        now apply Spec.month_digit.
Qed.

Lemma day_field_shape (s D rest : str) :
  Spec.day_field s = Some (D, rest) ->
  s = D ++ rest /\ exists d, Spec.day_text D d.
Proof.
  unfold Spec.day_field.
  destruct s as [|a [|b s2]]; [discriminate| |].
  - destruct (in_range (ch "1") (ch "9") a) eqn:E; [|discriminate].
    intros [= <- <-]. split; [reflexivity|]. eexists. now apply Spec.day_digit.
  - destruct ((ch "3" =? a)%N && in_range (ch "0") (ch "1") b) eqn:E1.
    { apply andb_true_iff in E1 as [Ea Eb]. apply N.eqb_eq in Ea. subst a.
      intros [= <- <-]. split; [reflexivity|]. eexists. now apply Spec.day_thirty. }
    destruct (in_range (ch "1") (ch "2") a && is_decimal b) eqn:E2.
    { apply andb_true_iff in E2 as [Ea Eb].
      destruct (is_decimal_value b Eb) as (v & Hv).
      intros [= <- <-]. split; [reflexivity|]. eexists.
      now apply (Spec.day_teens a b v). }
    destruct ((ch "0" =? a)%N && in_range (ch "1") (ch "9") b) eqn:E3.
    { apply andb_true_iff in E3 as [Ea Eb]. apply N.eqb_eq in Ea. subst a.
      intros [= <- <-]. split; [reflexivity|]. eexists. now apply Spec.day_padded. }
    destruct (in_range (ch "1") (ch "9") a) eqn:E4.
    { intros [= <- <-]. split; [reflexivity|]. eexists. now apply Spec.day_digit. }
    destruct ((ch " " =? a)%N && in_range (ch "1") (ch "9") b) eqn:E5; [|discriminate].
    apply andb_true_iff in E5 as [Ea Eb]. apply N.eqb_eq in Ea. subst a.
    intros [= <- <-]. split; [reflexivity|]. eexists. now apply Spec.day_spaced.
Qed.

Lemma date_parts_shape (s Y M D rest : str) :
  Spec.date_parts s = Some (Y, M, D, rest) ->
  s = Y ++ lit "-" ++ M ++ lit "-" ++ D ++ rest /\
  exists y m d, Spec.year_text Y y /\ Spec.month_text M m /\ Spec.day_text D d.
Proof.
  unfold Spec.date_parts.
  destruct s as [|c1 [|c2 [|c3 [|c4 [|h1 s]]]]]; try discriminate.
  destruct (is_decimal c1) eqn:E1; [|discriminate].
  destruct (is_decimal c2) eqn:E2; [|discriminate].
  destruct (is_decimal c3) eqn:E3; [|discriminate].
  destruct (is_decimal c4) eqn:E4; [|discriminate].
  destruct (ch "-" =? h1)%N eqn:E5; [|discriminate].
  cbn [andb].
  destruct (Spec.month_field s) as [[M' [|h2 s2]]|] eqn:EM; try discriminate.
  destruct (ch "-" =? h2)%N eqn:E6; [|discriminate].
  destruct (Spec.day_field s2) as [[D' rest']|] eqn:ED; [|discriminate].
  intros [= <- <- <- <-].
  apply N.eqb_eq in E5, E6. subst h1 h2.
  apply month_field_shape in EM as (-> & m & Hm).
  apply day_field_shape in ED as (-> & d & Hd).
  split; [reflexivity|].
  destruct (is_decimal_value c1 E1) as (v1 & H1).
  destruct (is_decimal_value c2 E2) as (v2 & H2).
  destruct (is_decimal_value c3 E3) as (v3 & H3).
  destruct (is_decimal_value c4 E4) as (v4 & H4).
  eexists _, m, d. split; [|split; assumption].
  exact (Spec.year_digits c1 c2 c3 c4 v1 v2 v3 v4 H1 H2 H3 H4).
Qed.

Lemma month_field_text (M : str) (m : N) (rest : str) :
  Spec.month_text M m ->
  Spec.month_field (M ++ ch "-" :: rest) = Some (M, ch "-" :: rest).
Proof.
  intros [a H|a H|a H]; unfold Spec.month_field; cbn [app].
  - change (ch "1" =? ch "1")%N with true. cbn [andb]. now rewrite H.
  - change (ch "1" =? ch "0")%N with false.
    change (ch "0" =? ch "0")%N with true. cbn [andb]. now rewrite H.
  - change (in_range (ch "0") (ch "2") (ch "-")) with false.
    change (in_range (ch "1") (ch "9") (ch "-")) with false.
    rewrite !andb_false_r. now rewrite H.
Qed.

Lemma day_field_text (D : str) (d : N) :
  Spec.day_text D d -> Spec.day_field D = Some (D, []).
Proof.
  intros [a H|a b v H Hb|a H|a H|a H]; unfold Spec.day_field.
  - change (ch "3" =? ch "3")%N with true. cbn [andb]. now rewrite H.
  - assert (E : (ch "3" =? a)%N = false)
      by (clear -H; char_props; char_test_false).
    rewrite E, H, (decimal_value_is_decimal b v Hb). reflexivity.
  - change (ch "3" =? ch "0")%N with false.
    change (in_range (ch "1") (ch "2") (ch "0")) with false.
    change (ch "0" =? ch "0")%N with true. cbn [andb]. now rewrite H.
  - now rewrite H.
  - change (ch "3" =? ch " ")%N with false.
    change (in_range (ch "1") (ch "2") (ch " ")) with false.
    change (ch "0" =? ch " ")%N with false.
    change (in_range (ch "1") (ch "9") (ch " ")) with false.
    change (ch " " =? ch " ")%N with true. cbn [andb]. now rewrite H.
Qed.

Lemma date_parts_text (Y M D : str) (y m d : N) :
  Spec.year_text Y y -> Spec.month_text M m -> Spec.day_text D d ->
  Spec.date_parts (Y ++ lit "-" ++ M ++ lit "-" ++ D) = Some (Y, M, D, []).
Proof.
  intros [c1 c2 c3 c4 v1 v2 v3 v4 H1 H2 H3 H4] Hm Hd.
  change (lit "-") with [ch "-"]. cbn [app]. unfold Spec.date_parts.
  rewrite (decimal_value_is_decimal _ _ H1), (decimal_value_is_decimal _ _ H2),
    (decimal_value_is_decimal _ _ H3), (decimal_value_is_decimal _ _ H4).
  change (ch "-" =? ch "-")%N with true. cbn [andb].
  rewrite (month_field_text M m D Hm).
  change (ch "-" =? ch "-")%N with true. cbn iota.
  now rewrite (day_field_text D d Hd).
Qed.

(** [strptime], through the three texts. *)
Lemma strptime_parts (s : str) :
  strptime s =
  match Spec.date_parts s with
  | Some (Y, M, D, []) => Spec.fields_date Y M D
  | _ => None
  end.
Proof.
  unfold strptime. rewrite match_at_date_regex.
  destruct (Spec.date_parts s) as [[[[Y M] D] rest]|] eqn:E; [|reflexivity].
  apply date_parts_shape in E as (-> & y & m & d & HY & HM & HD).
  change (lit "-") with [ch "-"].
  destruct HY as [c1 c2 c3 c4 v1 v2 v3 v4 _ _ _ _].
  destruct HM, HD;
    cbn [app length Spec.date_match pos caps Nat.add Nat.eqb negb
         group_text get_cap firstn skipn Nat.sub];
    (destruct rest as [|r rest];
     cbn [app length Nat.eqb negb firstn]; reflexivity).
Qed.

Theorem strptime_accepted (s : str) (y m d : N) :
  strptime s = Some (y, m, d) <-> Spec.accepted_date s y m d.
Proof.
  rewrite strptime_parts. split.
  - destruct (Spec.date_parts s) as [[[[Y M] D] [|r rest]]|] eqn:E;
      try discriminate.
    apply date_parts_shape in E as (-> & y' & m' & d' & HY & HM & HD).
    unfold Spec.fields_date.
    rewrite (int_year_text Y y' HY), (int_month_text M m' HM),
      (int_day_text D d' HD).
    destruct (valid_date y' m' d') eqn:V; [|discriminate].
    intros [= <- <- <-]. exists Y, M, D. rewrite app_nil_r. auto.
  - intros (Y & M & D & -> & HY & HM & HD & V).
    rewrite (date_parts_text Y M D y m d HY HM HD).
    unfold Spec.fields_date.
    rewrite (int_year_text Y y HY), (int_month_text M m HM),
      (int_day_text D d HD), V. reflexivity.
Qed.

(** C8 (amended).  [format_date] on a string never fails.  A string
    that [strptime] accepts -- four decimal digits, a hyphen, a month
    written 1 to 9, 01 to 09 or 10 to 12, a hyphen, and a day written
    30 or 31, 10 to 29, 01 to 09, 1 to 9, or a space and 1 to 9, which
    make a date of the calendar -- comes back as the name of the month,
    the day on two digits, a comma and the year; any other string comes
    back as it is.  ["2024-03-05"] gives ["March 05, 2024"] and
    ["circa 1990"] is kept. *)
Theorem format_date_parse_or_passthrough (s : str) :
  (forall y m d : N,
      Spec.accepted_date s y m d ->
      format_date (DStr s) =
      month_name m ++ lit " " ++ pad2 d ++ lit ", " ++ strftime_Y y) /\
  ((forall y m d : N, ~ Spec.accepted_date s y m d) ->
   format_date (DStr s) = s) /\
  (forall y : N, (1000 <= y)%N -> strftime_Y y = str_of_N y) /\
  format_date (DStr (lit "2024-03-05")) = lit "March 05, 2024" /\
  format_date (DStr (lit "circa 1990")) = lit "circa 1990".
Proof.
  split; [|split; [|split; [|split]]].
  - intros y m d H. apply strptime_accepted in H.
    cbn [format_date]. now rewrite H.
  - intros H. cbn [format_date].
    destruct (strptime s) as [[[y m] d]|] eqn:E; [|reflexivity].
    apply strptime_accepted in E. now destruct (H y m d).
  - intros y Hy. unfold strftime_Y. apply N.leb_le in Hy. now rewrite Hy.
  - vm_compute. reflexivity.
  - vm_compute. reflexivity.
Qed.

End Dates.

Lemma format_date_parse_or_passthrough_witness :
  (Spec.accepted_date (RT := ascii_runtime) (lit "2024-3-5") 2024 3 5 /\
   @MdToHtml.format_date ascii_runtime (MdToHtml.DStr (lit "2024-3-5")) =
     lit "March 05, 2024") /\
  ((forall y m d : N,
       ~ Spec.accepted_date (RT := ascii_runtime) (lit "circa 1990") y m d) /\
   @MdToHtml.format_date ascii_runtime (MdToHtml.DStr (lit "circa 1990")) =
     lit "circa 1990").
Proof.
  assert (A : Spec.accepted_date (RT := ascii_runtime) (lit "2024-3-5") 2024 3 5)
    by (apply strptime_accepted; vm_compute; reflexivity).
  assert (B : forall y m d : N,
             ~ Spec.accepted_date (RT := ascii_runtime) (lit "circa 1990") y m d)
    by (intros y m d H; apply strptime_accepted in H; vm_compute in H;
        discriminate H).
  split; split.
  - exact A.
  - exact (proj1 (@format_date_parse_or_passthrough ascii_runtime
                    (lit "2024-3-5")) 2024%N 3%N 5%N A).
  - exact B.
  - exact (proj1 (proj2 (@format_date_parse_or_passthrough ascii_runtime
                           (lit "circa 1990"))) B).
Defined.

(** C8 as it is written fails both ways: ["2024-3-5"] is not in the form
    YYYY-MM-DD and is rewritten, and ["2024-02-30"] is in that form and
    is returned as it is. *)
Lemma format_date_not_by_iso_form :
  Spec.is_iso_form (lit "2024-3-5") = false /\
  @MdToHtml.format_date ascii_runtime (MdToHtml.DStr (lit "2024-3-5")) =
    lit "March 05, 2024" /\
  Spec.is_iso_form (lit "2024-02-30") = true /\
  @MdToHtml.format_date ascii_runtime (MdToHtml.DStr (lit "2024-02-30")) =
    lit "2024-02-30".
Proof. repeat split; vm_compute; reflexivity. Qed.

(* ================================================================== *)
(** * The exit status of the article converter *)
(* ================================================================== *)

Section Converter.

Context {RT : Runtime}.
Variable CSS_STYLES NAVIGATION : str.
Variable env : MdToHtml.Env.
Variable io_error : str.

Import MdToHtml.

Let convert := convert_markdown_to_html CSS_STYLES NAVIGATION env io_error.
Let status := exit_code CSS_STYLES NAVIGATION env io_error.

(** Without an argument the script prints its usage and ends with 1. *)
Lemma exit_code_usage (prog : str) : status [] = 1%N /\ status [prog] = 1%N.
Proof. split; reflexivity. Qed.

(** With an argument, [main] drops what the conversion returns. *)
Lemma exit_code_ignores_result (prog md_file : str) (rest : list str) :
  status (prog :: md_file :: rest) =
  match result (convert md_file
                  (match rest with [] => None | dir :: _ => Some dir end)) with
  | Returned _ => 0%N
  | Uncaught => 1%N
  end.
Proof.
  unfold status, exit_code, main, convert.
  destruct rest as [|dir rest]; cbn [length Nat.ltb Nat.leb nth].
  - destruct (result (convert_markdown_to_html CSS_STYLES NAVIGATION env
                        io_error md_file None)); reflexivity.
  - destruct (result (convert_markdown_to_html CSS_STYLES NAVIGATION env
                        io_error md_file (Some dir))); reflexivity.
Qed.

(** A file that is missing after the look into [drafts/] is reported,
    and the conversion returns [None]. *)
Lemma convert_missing_file (md_file : str) (output_dir : option str) :
  path_exists env md_file = false ->
  (path_is_absolute env md_file = true \/
   path_exists env (path_join env (lit "drafts") md_file) = false) ->
  convert md_file output_dir =
  {| result := Returned None;
     stdout := [lit "Error: File '" ++ md_file ++ lit "' not found."];
     written := [] |}.
Proof.
  intros H1 H2. unfold convert, convert_markdown_to_html.
  rewrite H1. cbn [negb andb].
  destruct (path_is_absolute env md_file); cbn [negb].
  - now rewrite H1.
  - destruct H2 as [H2|H2]; [discriminate|]. rewrite H2. now rewrite H1.
Qed.

End Converter.

(** C5.  With no argument the converter ends with status 1.  With the
    name of a file that is missing, also in [drafts/], it prints the
    error, [convert_markdown_to_html] returns [None], and the process
    ends with status 0: [main] never looks at what the conversion
    returned. *)
Theorem missing_input_exits_with_zero :
  let run := @MdToHtml.main ascii_runtime [] [] Spec.empty_env []
               [lit "md_to_html.py"; lit "missing.md"] in
  MdToHtml.result run = Returned 0%N /\
  MdToHtml.stdout run = [lit "Error: File 'missing.md' not found."] /\
  MdToHtml.written run = [] /\
  @MdToHtml.exit_code ascii_runtime [] [] Spec.empty_env []
    [lit "md_to_html.py"; lit "missing.md"] = 0%N /\
  @MdToHtml.exit_code ascii_runtime [] [] Spec.empty_env []
    [lit "md_to_html.py"] = 1%N /\
  (forall (RT : Runtime) (css nav : str) (env : MdToHtml.Env) (err : str)
          (prog md_file : str),
      @MdToHtml.exit_code RT css nav env err [prog; md_file] =
      match MdToHtml.result
              (@MdToHtml.convert_markdown_to_html RT css nav env err md_file None) with
      | Returned _ => 0%N
      | Uncaught => 1%N
      end).
Proof.
  cbv zeta.
  split; [vm_compute; reflexivity|].
  split; [vm_compute; reflexivity|].
  split; [vm_compute; reflexivity|].
  split; [vm_compute; reflexivity|].
  split; [vm_compute; reflexivity|].
  intros RT css nav env err prog md_file.
  apply (@exit_code_ignores_result RT css nav env err prog md_file []).
Qed.

(* ================================================================== *)
(** * The matcher: what a match is, and when there is one *)
(* ================================================================== *)

Section MatcherFacts.

Lemma pos_advance (n : nat) (st : mstate) : pos (advance n st) = pos st + n.
Proof. reflexivity. Qed.

(** A match consumes a string of the pattern and hands the rest to the
    continuation. *)
Lemma star_sound (g : bool) (p : char -> bool) (k : cont mstate) :
  forall (s : str) (st res : mstate),
    star g p k st s = Some res ->
    exists u s' st',
      s = u ++ s' /\ forallb p u = true /\
      pos st' = pos st + length u /\ k st' s' = Some res.
Proof.
  induction s as [|c s IH]; intros st res H.
  - exists [], [], st. cbn [star] in H.
    assert (Hk : k st [] = Some res).
    { destruct g; [exact H|]. destruct (k st []); [exact H|discriminate]. }
    repeat split; [simpl; lia|exact Hk].
  - assert (Hcase : k st (c :: s) = Some res \/
                    (p c = true /\ star g p k (advance 1 st) s = Some res)).
    { cbn [star] in H. destruct g.
      - destruct (p c); [|now left].
        destruct (star true p k (advance 1 st) s) as [x|] eqn:E.
        + right. split; [reflexivity|]. now rewrite <- H.
        + now left.
      - destruct (k st (c :: s)) as [x|]; [now left|].
        destruct (p c); [now right|discriminate]. }
    destruct Hcase as [Hk|(Hp & Hs)].
    + exists [], (c :: s), st. repeat split; [simpl; lia|exact Hk].
    + destruct (IH _ _ Hs) as (u & s' & st' & -> & Hu & Hpos & Hk).
      exists (c :: u), s', st'. cbn [forallb]. rewrite Hp, Hu.
      repeat split; [|exact Hk].
      rewrite Hpos, pos_advance. simpl. lia.
Qed.

Lemma rmatch_sound (r : regex) :
  forall (k : cont mstate) (st : mstate) (s : str) (res : mstate),
    rmatch r k st s = Some res ->
    exists u s' st',
      s = u ++ s' /\ Spec.matches r u /\
      pos st' = pos st + length u /\ k st' s' = Some res.
Proof.
  induction r as [l|p|g p|r1 IH1 r2 IH2|r1 IH1 r2 IH2|r1 IH1|n r1 IH1];
    intros k st s res H; cbn [rmatch Spec.matches] in *.
  - destruct (startswith l s) eqn:E; [|discriminate].
    exists l, (skipn (length l) s), (advance (length l) st).
    repeat split; [now apply startswith_split|exact H].
  - destruct s as [|c s]; [discriminate|].
    destruct (p c) eqn:E; [|discriminate].
    exists [c], s, (advance 1 st). repeat split; [now exists c|exact H].
  - now apply star_sound in H.
  - apply IH1 in H as (u1 & s1 & st1 & -> & M1 & P1 & H).
    apply IH2 in H as (u2 & s2 & st2 & -> & M2 & P2 & H).
    exists (u1 ++ u2), s2, st2. rewrite <- app_assoc.
    repeat split; [now exists u1, u2| |exact H].
    rewrite P2, P1, length_app. lia.
  - destruct (rmatch r1 k st s) as [x|] eqn:E.
    + injection H as ->.
      apply IH1 in E as (u & s' & st' & -> & M & P & H).
      exists u, s', st'. repeat split; [now left|exact P|exact H].
    + apply IH2 in H as (u & s' & st' & -> & M & P & H).
      exists u, s', st'. repeat split; [now right|exact P|exact H].
  - destruct (rmatch r1 k st s) as [x|] eqn:E.
    + injection H as ->.
      apply IH1 in E as (u & s' & st' & -> & M & P & H).
      exists u, s', st'. repeat split; [now right|exact P|exact H].
    + exists [], s, st. repeat split; [now left|simpl; lia|exact H].
  - apply IH1 in H as (u & s' & st' & -> & M & P & H).
    exists u, s', (set_cap n (pos st) (pos st') st').
    repeat split; [exact M|exact P|exact H].
Qed.

(** Whether a match is found does not depend on the state. *)
Lemma star_follows (g : bool) (p : char -> bool) (k1 k2 : cont mstate) :
  Spec.follows k1 k2 -> Spec.follows (star g p k1) (star g p k2).
Proof.
  intros Hk st st' s. revert st st'.
  induction s as [|c s IH]; intros st st' H; cbn [star] in *.
  - destruct g; [now apply (Hk st)|].
    destruct (k1 st []) eqn:E; [|congruence].
    assert (E' : k2 st' [] <> None) by (apply (Hk st); congruence).
    destruct (k2 st' []); congruence.
  - destruct g.
    + destruct (p c); [|now apply (Hk st)].
      destruct (star true p k1 (advance 1 st) s) eqn:E.
      * assert (E' : star true p k2 (advance 1 st') s <> None)
          by (apply (IH (advance 1 st)); congruence).
        destruct (star true p k2 (advance 1 st') s); congruence.
      * destruct (star true p k2 (advance 1 st') s); [congruence|].
        now apply (Hk st).
    + destruct (k1 st (c :: s)) eqn:E.
      * assert (E' : k2 st' (c :: s) <> None) by (apply (Hk st); congruence).
        destruct (k2 st' (c :: s)); congruence.
      * destruct (k2 st' (c :: s)); [congruence|].
        destruct (p c); [|congruence].
        now apply (IH (advance 1 st)).
Qed.

Lemma rmatch_follows (r : regex) :
  forall k1 k2 : cont mstate,
    Spec.follows k1 k2 -> Spec.follows (rmatch r k1) (rmatch r k2).
Proof.
  induction r as [l|p|g p|r1 IH1 r2 IH2|r1 IH1 r2 IH2|r1 IH1|n r1 IH1];
    intros k1 k2 Hk; cbn [rmatch].
  - intros st st' s H. destruct (startswith l s); [|congruence].
    now apply (Hk (advance (length l) st)).
  - intros st st' s H. destruct s as [|c s]; [congruence|].
    destruct (p c); [|congruence]. now apply (Hk (advance 1 st)).
  - now apply star_follows.
  - apply IH1, IH2, Hk.
  - intros st st' s H.
    destruct (rmatch r1 k1 st s) eqn:E.
    + assert (E' : rmatch r1 k2 st' s <> None)
        by (apply (IH1 k1 k2 Hk st); congruence).
      destruct (rmatch r1 k2 st' s); congruence.
    + destruct (rmatch r1 k2 st' s); [congruence|].
      now apply (IH2 k1 k2 Hk st).
  - intros st st' s H.
    destruct (rmatch r1 k1 st s) eqn:E.
    + assert (E' : rmatch r1 k2 st' s <> None)
        by (apply (IH1 k1 k2 Hk st); congruence).
      destruct (rmatch r1 k2 st' s); congruence.
    + destruct (rmatch r1 k2 st' s); [congruence|].
      now apply (Hk st).
  - intros st st' s. apply IH1.
    intros a b x Hx. now apply (Hk (set_cap n (pos st) (pos a) a)).
Qed.

Lemma accept_follows : Spec.follows Spec.accept Spec.accept.
Proof. intros st st' s _. discriminate. Qed.

(** The matcher finds a match whenever the string starts with a string
    of the pattern after which the continuation succeeds. *)
Lemma star_complete (g : bool) (p : char -> bool) (k : cont mstate) :
  Spec.follows k k ->
  forall (u s' : str) (st st' : mstate),
    forallb p u = true -> k st' s' <> None ->
    star g p k st (u ++ s') <> None.
Proof.
  intros Hk. induction u as [|c u IH]; intros s' st st' Hu Hs.
  - cbn [app]. assert (H0 : k st s' <> None) by now apply (Hk st').
    destruct s' as [|c s']; cbn [star]; destruct g.
    + exact H0.
    + destruct (k st []); congruence.
    + destruct (p c); [|exact H0].
      destruct (star true p k (advance 1 st) s'); congruence.
    + destruct (k st (c :: s')); congruence.
  - cbn [forallb] in Hu. apply andb_true_iff in Hu as [Hc Hu].
    specialize (IH s' (advance 1 st) st' Hu Hs).
    cbn [app star]. rewrite Hc. destruct g.
    + destruct (star true p k (advance 1 st) (u ++ s')); congruence.
    + destruct (k st (c :: u ++ s')); [congruence|exact IH].
Qed.

Lemma rmatch_complete (r : regex) :
  forall (k : cont mstate) (u s' : str) (st st' : mstate),
    Spec.follows k k -> Spec.matches r u -> k st' s' <> None ->
    rmatch r k st (u ++ s') <> None.
Proof.
  induction r as [l|p|g p|r1 IH1 r2 IH2|r1 IH1 r2 IH2|r1 IH1|n r1 IH1];
    intros k u s' st st' Hk M Hs; cbn [rmatch Spec.matches] in *.
  - subst u. rewrite startswith_app, skipn_app, skipn_all, Nat.sub_diag.
    cbn [skipn app]. now apply (Hk st').
  - destruct M as (c & -> & Hc). cbn [app]. rewrite Hc.
    now apply (Hk st').
  - now apply (star_complete g p k Hk u s' st st').
  - destruct M as (u1 & u2 & -> & M1 & M2). rewrite <- app_assoc.
    apply (IH1 (rmatch r2 k) u1 (u2 ++ s') st st);
      [now apply rmatch_follows|exact M1|].
    now apply (IH2 k u2 s' st st').
  - destruct M as [M|M].
    + pose proof (IH1 k u s' st st' Hk M Hs) as H.
      destruct (rmatch r1 k st (u ++ s')); congruence.
    + destruct (rmatch r1 k st (u ++ s')); [congruence|].
      now apply (IH2 k u s' st st').
  - destruct M as [->|M].
    + cbn [app]. destruct (rmatch r1 k st s'); [congruence|].
      now apply (Hk st').
    + pose proof (IH1 k u s' st st' Hk M Hs) as H.
      destruct (rmatch r1 k st (u ++ s')); congruence.
  - apply (IH1 _ u s' st st'); [|exact M|].
    + intros a b x Hx. now apply (Hk (set_cap n (pos st) (pos a) a)).
    + now apply (Hk st').
Qed.

(** A match at the start of [s], as a string of the pattern. *)
Lemma match_at_sound (r : regex) (s : str) (st : mstate) :
  match_at r s = Some st ->
  exists u s', s = u ++ s' /\ Spec.matches r u /\ pos st = length u.
Proof.
  intros H. apply rmatch_sound in H as (u & s' & st' & -> & M & P & [= <-]).
  now exists u, s'.
Qed.

Lemma match_at_complete (r : regex) (u s' : str) :
  Spec.matches r u -> match_at r (u ++ s') <> None.
Proof.
  intros M.
  apply (rmatch_complete r Spec.accept u s' (MState 0 []) (MState 0 []));
    [exact accept_follows|exact M|discriminate].
Qed.

End MatcherFacts.

(* ================================================================== *)
(** * The replacement template *)
(* ================================================================== *)

Section TemplateFacts.

Import BookRegistry.

Variable groups : nat.
Variable f : str -> option N.

Lemma replacement_shape (summary_html detail_html : str) (g : char) :
  replacement summary_html detail_html g =
  Spec.replacement_text summary_html detail_html ++ [bs; g].
Proof.
  unfold replacement, Spec.replacement_text, Spec.REPL_1, Spec.REPL_2, Spec.REPL_3.
  cbn [join]. rewrite <- !app_assoc. reflexivity.
Qed.

Lemma tparse_app (x y : str) (q : tstate) :
  tparse groups f q (x ++ y) =
  match Spec.trun groups f q x with
  | None => None
  | Some (items, q') =>
      match tparse groups f q' y with
      | None => None
      | Some rest => Some (items ++ rest)
      end
  end.
Proof.
  revert q; induction x as [|c x IH]; intros q; cbn [app tparse Spec.trun].
  - now destruct (tparse groups f q y).
  - destruct (tstep groups f q c) as [[items q']|]; [|reflexivity].
    rewrite IH. destruct (Spec.trun groups f q' x) as [[rest q'']|]; [|reflexivity].
    destruct (tparse groups f q'' y); [|reflexivity].
    now rewrite app_assoc.
Qed.

(** Text without a backslash is copied. *)
Lemma tparse_plain (u v : str) :
  forallb (fun c => negb (c =? bs)%N) u = true ->
  tparse groups f TNormal (u ++ v) =
  match tparse groups f TNormal v with
  | Some rest => Some (map TChar u ++ rest)
  | None => None
  end.
Proof.
  induction u as [|c u IH]; intros H.
  - cbn [app map]. now destruct (tparse groups f TNormal v).
  - cbn [forallb] in H. apply andb_true_iff in H as [Hc Hu].
    apply negb_true_iff in Hc.
    cbn [app tparse tstep]. unfold normal_step. rewrite Hc, (IH Hu).
    now destruct (tparse groups f TNormal v).
Qed.

(** Inside [\g<], up to the [>]. *)
Lemma tparse_name (u v acc : str) :
  forallb (fun c => negb (c =? ch ">")%N) u = true ->
  tparse groups f (TName acc) (u ++ ch ">" :: v) =
  match group_of_name f (rev (rev u ++ acc)) with
  | Some index =>
      match addgroup groups index with
      | Some items =>
          match tparse groups f TNormal v with
          | Some rest => Some (items ++ rest)
          | None => None
          end
      | None => None
      end
  | None => None
  end.
Proof.
  revert acc; induction u as [|c u IH]; intros acc H.
  - cbn [app rev tparse tstep].
    change (ch ">" =? 62)%N with true. cbn iota.
    destruct (group_of_name f (rev acc)) as [index|]; [|reflexivity].
    now destruct (addgroup groups index).
  - cbn [forallb] in H. apply andb_true_iff in H as [Hc Hu].
    apply negb_true_iff in Hc.
    cbn [app tparse tstep]. change 62%N with (ch ">"). rewrite Hc.
    rewrite (IH (c :: acc) Hu). cbn [rev]. rewrite <- app_assoc. cbn [app].
    destruct (group_of_name f (rev (rev u ++ c :: acc))) as [index|];
      [|reflexivity].
    destruct (addgroup groups index) as [items|]; [|reflexivity].
    now destruct (tparse groups f TNormal v).
Qed.

Variable g : char.
Variable gi : nat.
Hypothesis group_reference :
  tparse groups f TNormal [bs; g] = Some [TGroup gi].

Lemma ends_with_group_app (items rest : list titem) :
  (exists t, rest = t ++ [TGroup gi]) ->
  exists t, items ++ rest = t ++ [TGroup gi].
Proof. intros (t & ->). exists (items ++ t). apply app_assoc. Qed.

Lemma tparse_plain_tail (u : str) (items : list titem) :
  forallb (fun c => negb (c =? bs)%N) u = true ->
  tparse groups f TNormal (u ++ [bs; g]) = Some items ->
  exists t, items = t ++ [TGroup gi].
Proof.
  intros Hu. rewrite (tparse_plain u [bs; g] Hu), group_reference.
  intros [= <-]. now exists (map TChar u).
Qed.

(** Whatever state the parser is in before the last lines of the
    replacement, it has come back to plain text before the group
    reference at the end. *)
Lemma tparse_last_lines (q : tstate) (items : list titem) :
  tparse groups f q (Spec.REPL_3 ++ [bs; g]) = Some items ->
  exists t, items = t ++ [TGroup gi].
Proof.
  set (tail3 := sp 12 ++ lit "</ul>" ++ [nl] ++ sp 8 ++ lit "</div>").
  change (Spec.REPL_3 ++ [bs; g]) with (nl :: tail3 ++ [bs; g]).
  assert (Hplain : forall its : list titem,
             tparse groups f TNormal (tail3 ++ [bs; g]) = Some its ->
             exists t, its = t ++ [TGroup gi])
    by (intros its; apply (tparse_plain_tail tail3); vm_compute; reflexivity).
  assert (Hnext : forall (first : list titem) (its : list titem),
             match tparse groups f TNormal (tail3 ++ [bs; g]) with
             | Some rest => Some (first ++ rest)
             | None => None
             end = Some its ->
             exists t, its = t ++ [TGroup gi]).
  { intros first its H.
    destruct (tparse groups f TNormal (tail3 ++ [bs; g])) as [rest|] eqn:E;
      [|discriminate].
    injection H as <-. apply ends_with_group_app. now apply Hplain. }
  cbn [tparse].
  destruct q as [| | |acc|ds|d1|d1 d2]; cbn [tstep].
  - apply Hnext.
  - apply Hnext.
  - discriminate.
  - change (nl =? 62)%N with false. cbn iota.
    change (tail3 ++ [bs; g])
      with ((sp 12 ++ lit "</ul") ++ ch ">" ::
            (([nl] ++ sp 8 ++ lit "</div>") ++ [bs; g])).
    rewrite tparse_name by reflexivity.
    destruct (group_of_name f _) as [index|]; [|discriminate].
    destruct (addgroup groups index) as [its|]; [|discriminate].
    intros H.
    destruct (tparse groups f TNormal (([nl] ++ sp 8 ++ lit "</div>") ++ [bs; g]))
      as [rest|] eqn:E; [|discriminate].
    injection H as <-. cbn [app]. apply ends_with_group_app.
    apply (tparse_plain_tail ([nl] ++ sp 8 ++ lit "</div>")); [reflexivity|exact E].
  - change (is_oct nl) with false. cbn iota. unfold normal_step.
    change (nl =? bs)%N with false. cbn iota. apply Hnext.
  - change (is_ascii_digit nl) with false. cbn iota.
    destruct (addgroup groups d1) as [its|]; [|discriminate].
    unfold normal_step. change (nl =? bs)%N with false. cbn iota. apply Hnext.
  - change (is_oct nl) with false. cbn iota.
    destruct (addgroup groups (10 * d1 + d2)) as [its|]; [|discriminate].
    unfold normal_step. change (nl =? bs)%N with false. cbn iota. apply Hnext.
Qed.

(** A replacement that parses ends with its group reference, whatever
    the two fragments are. *)
Lemma template_ends_with_group (summary_html detail_html : str)
      (tpl : list titem) :
  parse_template groups f (replacement summary_html detail_html g) = Some tpl ->
  exists t, tpl = t ++ [TGroup gi].
Proof.
  unfold parse_template. rewrite replacement_shape.
  unfold Spec.replacement_text.
  replace ((OPEN_LIST ++ Spec.REPL_1 ++ summary_html ++ Spec.REPL_2 ++
            detail_html ++ Spec.REPL_3) ++ [bs; g])
    with ((OPEN_LIST ++ Spec.REPL_1 ++ summary_html ++ Spec.REPL_2 ++
           detail_html) ++ (Spec.REPL_3 ++ [bs; g]))
    by (now rewrite <- !app_assoc).
  rewrite tparse_app.
  destruct (Spec.trun groups f TNormal _) as [[items q]|]; [|discriminate].
  destruct (tparse groups f q (Spec.REPL_3 ++ [bs; g])) as [rest|] eqn:E;
    [|discriminate].
  intros [= <-]. apply ends_with_group_app. now apply (tparse_last_lines q).
Qed.

(** Fragments without a backslash are copied as they are. *)
Lemma template_plain (summary_html detail_html : str) :
  forallb (fun c => negb (c =? bs)%N) summary_html = true ->
  forallb (fun c => negb (c =? bs)%N) detail_html = true ->
  parse_template groups f (replacement summary_html detail_html g) =
  Some (map TChar (Spec.replacement_text summary_html detail_html)
        ++ [TGroup gi]).
Proof.
  intros HS HD. unfold parse_template. rewrite replacement_shape.
  rewrite tparse_plain.
  - now rewrite group_reference.
  - unfold Spec.replacement_text. rewrite !forallb_app.
    repeat (apply andb_true_iff; split); try assumption; reflexivity.
Qed.

End TemplateFacts.

(* ================================================================== *)
(** * The two patterns of the registry *)
(* ================================================================== *)

Section Patterns.

Import BookRegistry.

Lemma match_at_pattern (s : str) :
  match_at pattern s =
  rmatch Spec.HEAD (rmatch (Group 2 Spec.TRAILER) Spec.accept) (MState 0 []) s.
Proof. reflexivity. Qed.

Lemma match_at_pattern_simple (s : str) :
  match_at pattern_simple s =
  rmatch Spec.HEAD_simple (rmatch (Group 4 Spec.TRAILER) Spec.accept)
         (MState 0 []) s.
Proof. reflexivity. Qed.

Lemma matches_trailer (t : str) : Spec.matches Spec.TRAILER t -> Spec.is_trailer t.
Proof.
  intros (w & l & -> & Hw & Hl). cbn [Spec.matches] in Hw, Hl. subst l.
  now exists w.
Qed.

Lemma trailer_nonempty (t : str) : Spec.is_trailer t -> 0 < length t.
Proof.
  intros (w & -> & _). rewrite length_app. cbn [length lit map list_ascii_of_string].
  lia.
Qed.

Lemma app_same_length (a b x y : str) :
  length a = length b -> a ++ x = b ++ y -> a = b /\ x = y.
Proof.
  revert b; induction a as [|c a IH]; intros [|d b] Hl H;
    try discriminate; [now split|].
  cbn [app] in H. injection H as -> H. injection Hl as Hl.
  destruct (IH b Hl H) as (-> & ->). now split.
Qed.

Lemma spliced_cases (r : regex) (g : nat) (body : str -> mstate -> str)
      (s out : str) :
  Spec.spliced r g body s out ->
  (out = s /\ forall i, match_at r (skipn i s) = None) \/
  exists (pre region w post post' : str) (st : mstate),
    s = pre ++ region ++ w ++ lit "</main>" ++ post /\
    out = pre ++ body (region ++ w ++ lit "</main>" ++ post) st
              ++ w ++ lit "</main>" ++ post' /\
    (forall i, i < length pre -> match_at r (skipn i s) = None) /\
    match_at r (region ++ w ++ lit "</main>" ++ post) = Some st /\
    pos st = length (region ++ w ++ lit "</main>") /\
    group_text (region ++ w ++ lit "</main>" ++ post) st g
      = w ++ lit "</main>" /\
    Spec.spliced r g body post post'.
Proof.
  intros [s' Hs|pre region w post post' st Hpre Hm Hp Hg Hw Hd Hpost].
  - left. now split.
  - right. exists pre, region, w, post, post', st. repeat split; assumption.
Qed.

(** The relation leaves no choice: a text is spliced to one text only. *)
Lemma spliced_functional (r : regex) (g : nat) (body : str -> mstate -> str)
      (s out out' : str) :
  Spec.spliced r g body s out -> Spec.spliced r g body s out' -> out = out'.
Proof.
  intros H. revert out'.
  induction H as [s Hs|pre region w post post' st Hpre Hm Hp Hg Hw Hd Hpost IH];
    intros out' H'.
  - apply spliced_cases in H'
      as [(-> & _)|(pre2 & region2 & w2 & post2 & post2' & st2 & E1 & -> & Hpre2
                    & Hm2 & _)]; [reflexivity|].
    exfalso. specialize (Hs (length pre2)). rewrite E1 in Hs.
    rewrite skipn_app, skipn_all, Nat.sub_diag in Hs. cbn [skipn app] in Hs.
    congruence.
  - apply spliced_cases in H'
      as [(-> & Hs')|(pre2 & region2 & w2 & post2 & post2' & st2 & E1 & -> & Hpre2
                      & Hm2 & Hp2 & Hg2 & Hpost2)].
    + exfalso. specialize (Hs' (length pre)).
      rewrite skipn_app, skipn_all, Nat.sub_diag in Hs'. cbn [skipn app] in Hs'.
      congruence.
    + assert (Hl : length pre = length pre2).
      { destruct (Nat.lt_trichotomy (length pre) (length pre2)) as [L|[L|L]];
          [exfalso|exact L|exfalso].
        - specialize (Hpre2 _ L).
          rewrite skipn_app, skipn_all, Nat.sub_diag in Hpre2.
          cbn [skipn app] in Hpre2. congruence.
        - specialize (Hpre _ L). rewrite E1 in Hpre.
          rewrite skipn_app, skipn_all, Nat.sub_diag in Hpre.
          cbn [skipn app] in Hpre. congruence. }
      destruct (app_same_length _ _ _ _ Hl E1) as (<- & ER).
      rewrite <- ER in Hm2, Hg2. rewrite Hm in Hm2. injection Hm2 as <-.
      rewrite Hg in Hg2. apply app_inv_tail in Hg2. subst w2.
      rewrite Hp in Hp2.
      assert (Hr : length region = length region2)
        by (rewrite !length_app in Hp2; lia).
      destruct (app_same_length _ _ _ _ Hr ER) as (<- & EP).
      do 2 apply app_inv_head in EP. subst post2.
      now rewrite (IH _ Hpost2).
Qed.

(** What comes before the trailer ends with a closing [</div>]. *)
Lemma head_closed (region : str) :
  Spec.matches Spec.HEAD region -> exists inner, region = inner ++ lit "</div>".
Proof.
  unfold Spec.HEAD. cbn [Spec.matches].
  intros (u1 & u2 & -> & (a1 & a2 & -> & _ & b1 & b2 & -> & _
                           & c1 & c2 & -> & _ & d1 & d2 & -> & _ & ->)
          & u3 & u4 & -> & H3 & H4).
  destruct H4 as [->|(e1 & e2 & -> & _ & f1 & f2 & -> & _ & g1 & g2 & -> & _
                      & h1 & h2 & -> & _ & i1 & i2 & -> & _ & ->)].
  - destruct H3 as [->|(e1 & e2 & -> & _ & f1 & f2 & -> & _
                        & g1 & g2 & -> & _ & ->)].
    + eexists. rewrite !app_nil_r, !app_assoc. reflexivity.
    + eexists. rewrite !app_nil_r, !app_assoc. reflexivity.
  - eexists. rewrite !app_assoc. reflexivity.
Qed.

Lemma head_simple_closed (region : str) :
  Spec.matches Spec.HEAD_simple region ->
  exists inner, region = inner ++ lit "</div>".
Proof.
  unfold Spec.HEAD_simple. cbn [Spec.matches].
  intros (u1 & u2 & -> & _ & u3 & u4 & -> & _ & a1 & a2 & -> & _
          & b1 & b2 & -> & _ & ->).
  eexists. rewrite !app_assoc. reflexivity.
Qed.

(** A pattern that ends with the trailer as its group [g]. *)
Section TrailerGroup.

Variable r head : regex.
Variable g : nat.
Hypothesis g_positive : g <> 0.
Hypothesis r_shape :
  forall s : str,
    match_at r s =
    rmatch head (rmatch (Group g Spec.TRAILER) Spec.accept) (MState 0 []) s.
Hypothesis head_ends :
  forall region : str,
    Spec.matches head region -> exists inner, region = inner ++ lit "</div>".

Lemma match_region (s : str) (st : mstate) :
  match_at r s = Some st ->
  exists region t post,
    s = region ++ t ++ post /\ Spec.matches head region /\ Spec.is_trailer t /\
    pos st = length (region ++ t) /\ group_text s st g = t.
Proof.
  rewrite r_shape. intros H.
  apply rmatch_sound in H as (region & s1 & st1 & -> & Mh & P1 & H).
  cbn [rmatch] in H.
  apply rmatch_sound in H as (t & post & st2 & -> & Mt & P2 & H).
  unfold Spec.accept in H. injection H as <-.
  exists region, t, post. cbn [pos] in P1.
  repeat split; [exact Mh|now apply matches_trailer| |].
  - cbn [set_cap pos]. rewrite P2, P1, length_app. lia.
  - unfold group_text. destruct g as [|g']; [congruence|].
    cbn [set_cap caps get_cap]. rewrite Nat.eqb_refl.
    rewrite P2, P1. replace (0 + length region + length t - (0 + length region))
      with (length t) by lia.
    rewrite skipn_app, skipn_all2 by lia.
    replace (0 + length region - length region) with 0 by lia.
    cbn [skipn app]. rewrite firstn_app, firstn_all, Nat.sub_diag.
    cbn [firstn]. apply app_nil_r.
Qed.

Lemma match_at_nil : match_at r [] = None.
Proof.
  destruct (match_at r []) as [st|] eqn:E; [|reflexivity].
  apply match_region in E as (region & t & post & E & _ & Ht & _).
  apply trailer_nonempty in Ht.
  apply (f_equal (@length char)) in E. rewrite !length_app in E.
  simpl in E. lia.
Qed.

Lemma spliced_cons (body : str -> mstate -> str) (c : char) (s out : str) :
  match_at r (c :: s) = None ->
  Spec.spliced r g body s out -> Spec.spliced r g body (c :: s) (c :: out).
Proof.
  intros Hc H.
  destruct H as [s Hs|pre region w post post' st Hpre Hm Hp Hg Hw Hd Hpost].
  - apply Spec.spliced_same. intros [|i]; [exact Hc|apply (Hs i)].
  - apply (Spec.spliced_region r g body (c :: pre) region w post post' st);
      try assumption.
    intros [|i] Hi; [exact Hc|]. apply Hpre. simpl in Hi. lia.
Qed.

(** The scan of [re.sub] with a template that ends with the group of the
    trailer. *)
Lemma sub_loop_spliced (tpl : list titem) (n : nat) :
  forall s : str, length s <= n ->
    Spec.spliced r g (expand tpl) s (sub_loop r (tpl ++ [TGroup g]) 0 s).
Proof.
  induction n as [|n IH]; intros s Hlen.
  - destruct s; [|simpl in Hlen; lia].
    cbn [sub_loop]. rewrite match_at_nil.
    apply Spec.spliced_same. intros i. rewrite skipn_nil. apply match_at_nil.
  - destruct s as [|c s].
    + cbn [sub_loop]. rewrite match_at_nil.
      apply Spec.spliced_same. intros i. rewrite skipn_nil. apply match_at_nil.
    + destruct (match_at r (c :: s)) as [st|] eqn:E.
      * destruct (match_region _ _ E)
          as (region & t & post & Es & Mh & (w & -> & Hw) & Hp & Hg).
        assert (Hpos : 0 < length (w ++ lit "</main>")).
        { rewrite length_app. cbn [length lit map list_ascii_of_string]. lia. }
        rewrite sub_loop_match with (st := st);
          [|exact E|rewrite Hp, length_app; lia|].
        2:{ rewrite Es, Hp, !length_app. lia. }
        assert (Ex : expand (tpl ++ [TGroup g]) (c :: s) st =
                     expand tpl (c :: s) st ++ group_text (c :: s) st g).
        { unfold expand. rewrite flat_map_app. cbn [flat_map expand_item].
          now rewrite app_nil_r. }
        rewrite Ex, Hg.
        assert (Ek : skipn (pos st) (c :: s) = post).
        { rewrite Es, Hp.
          replace (region ++ (w ++ lit "</main>") ++ post)
            with ((region ++ w ++ lit "</main>") ++ post)
            by (now rewrite <- !app_assoc).
          now rewrite skipn_app, skipn_all, Nat.sub_diag. }
        rewrite Ek. rewrite Es in *. rewrite <- !app_assoc in *.
        apply (Spec.spliced_region r g (expand tpl) [] region w post
                 (sub_loop r (tpl ++ [TGroup g]) 0 post) st).
        -- intros i Hi. simpl in Hi. lia.
        -- exact E.
        -- exact Hp.
        -- exact Hg.
        -- exact Hw.
        -- now apply head_ends.
        -- apply IH. rewrite !length_app in Hlen. simpl in Hlen. lia.
      * rewrite sub_loop_copy by exact E.
        apply spliced_cons; [exact E|]. apply IH. simpl in Hlen. lia.
Qed.

End TrailerGroup.

Section Splice.
Context {RT : Runtime}.

Lemma group_reference_2 (f : str -> option N) :
  tparse 2 f TNormal [bs; ch "2"] = Some [TGroup 2].
Proof. reflexivity. Qed.

Lemma group_reference_4 (f : str -> option N) :
  tparse 4 f TNormal [bs; ch "4"] = Some [TGroup 4].
Proof. reflexivity. Qed.

(** C7.  Whatever the two fragments are, when the substitution returns
    a document, the replacement parsed as a template that ends with the
    reference to the last group, and the document returned is the host
    document with each match of a pattern, taken from the left,
    replaced: the text before the match is kept; the match, up to the
    closing [</div>] in front of its last group, is replaced by what the
    rest of the template expands to; the last group, the white space and
    [</main>] it captured, is written back as it was captured; and the
    text after the match is kept up to the next match.  The pattern is
    the first one, or the simple one when the first one gave the host
    document back.  No other document stands in that relation to the
    host document. *)
Theorem splice_keeps_text_outside_regions
        (summary_html detail_html html_content new_html : str) :
  splice summary_html detail_html html_content = Some new_html ->
  exists (t2 : list titem) (first : str),
    parse_template 2 group_name_index
      (replacement summary_html detail_html (ch "2")) = Some (t2 ++ [TGroup 2]) /\
    Spec.spliced pattern 2 (expand t2) html_content first /\
    (forall other : str,
        Spec.spliced pattern 2 (expand t2) html_content other -> other = first) /\
    ((first <> html_content /\ new_html = first) \/
     (first = html_content /\
      exists t4 : list titem,
        parse_template 4 group_name_index
          (replacement summary_html detail_html (ch "4"))
          = Some (t4 ++ [TGroup 4]) /\
        Spec.spliced pattern_simple 4 (expand t4) html_content new_html /\
        (forall other : str,
            Spec.spliced pattern_simple 4 (expand t4) html_content other ->
            other = new_html))).
Proof.
  unfold splice, Re.sub.
  destruct (parse_template 2 group_name_index
              (replacement summary_html detail_html (ch "2"))) as [tpl|] eqn:E;
    [|discriminate].
  apply (template_ends_with_group 2 group_name_index (ch "2") 2
           (group_reference_2 _)) in E as (t & ->).
  intros H.
  exists t, (sub_loop pattern (t ++ [TGroup 2]) 0 html_content).
  assert (S2 : Spec.spliced pattern 2 (expand t) html_content
                 (sub_loop pattern (t ++ [TGroup 2]) 0 html_content)).
  { apply (sub_loop_spliced pattern Spec.HEAD 2
             ltac:(discriminate) match_at_pattern head_closed t
             (length html_content)).
    lia. }
  split; [reflexivity|]. split; [exact S2|].
  split; [intros other Ho; apply (spliced_functional _ _ _ _ _ _ Ho S2)|].
  revert H.
  destruct (PyStr.eqb (sub_loop pattern (t ++ [TGroup 2]) 0 html_content)
                      html_content) eqn:Eq.
  - destruct (parse_template 4 group_name_index
                (replacement summary_html detail_html (ch "4"))) as [tpl|] eqn:E;
      [|discriminate].
    apply (template_ends_with_group 4 group_name_index (ch "4") 4
             (group_reference_4 _)) in E as (t' & ->).
    intros [= <-]. right. split.
    + revert Eq. generalize (sub_loop pattern (t ++ [TGroup 2]) 0 html_content).
      intros a. generalize html_content.
      induction a as [|x a IH]; intros [|y b]; cbn [PyStr.eqb];
        try discriminate; [reflexivity|].
      intros H. apply andb_true_iff in H as [H1 H2].
      apply N.eqb_eq in H1. subst y. f_equal. now apply IH.
    + assert (S4 : Spec.spliced pattern_simple 4 (expand t') html_content
                     (sub_loop pattern_simple (t' ++ [TGroup 4]) 0 html_content)).
      { apply (sub_loop_spliced pattern_simple Spec.HEAD_simple 4
                 ltac:(discriminate) match_at_pattern_simple head_simple_closed
                 t' (length html_content)).
        lia. }
      exists t'. split; [reflexivity|]. split; [exact S4|].
      intros other Ho. apply (spliced_functional _ _ _ _ _ _ Ho S4).
  - intros [= <-]. left. split; [|reflexivity].
    intros H. rewrite H in Eq. revert Eq. clear.
    induction html_content as [|x a IH]; cbn [PyStr.eqb]; [discriminate|].
    rewrite N.eqb_refl. exact IH.
Qed.

End Splice.

Lemma splice_keeps_text_outside_regions_witness :
  exists (t2 : list titem) (first : str),
    parse_template 2 (@group_name_index ascii_runtime)
      (replacement (lit "S") (lit "D") (ch "2")) = Some (t2 ++ [TGroup 2]) /\
    Spec.spliced pattern 2 (expand t2)
      (lit "<h1>Books</h1>" ++ Spec.legacy_list ++ lit " </main><footer/>")
      first /\
    (forall other : str,
        Spec.spliced pattern 2 (expand t2)
          (lit "<h1>Books</h1>" ++ Spec.legacy_list ++ lit " </main><footer/>")
          other -> other = first) /\
    ((first <>
        lit "<h1>Books</h1>" ++ Spec.legacy_list ++ lit " </main><footer/>" /\
      lit "<h1>Books</h1>" ++ Spec.replacement_text (lit "S") (lit "D")
        ++ lit " </main><footer/>" = first) \/
     (first =
        lit "<h1>Books</h1>" ++ Spec.legacy_list ++ lit " </main><footer/>" /\
      exists t4 : list titem,
        parse_template 4 (@group_name_index ascii_runtime)
          (replacement (lit "S") (lit "D") (ch "4")) = Some (t4 ++ [TGroup 4]) /\
        Spec.spliced pattern_simple 4 (expand t4)
          (lit "<h1>Books</h1>" ++ Spec.legacy_list ++ lit " </main><footer/>")
          (lit "<h1>Books</h1>" ++ Spec.replacement_text (lit "S") (lit "D")
           ++ lit " </main><footer/>") /\
        (forall other : str,
            Spec.spliced pattern_simple 4 (expand t4)
              (lit "<h1>Books</h1>" ++ Spec.legacy_list
               ++ lit " </main><footer/>") other ->
            other = lit "<h1>Books</h1>"
                    ++ Spec.replacement_text (lit "S") (lit "D")
                    ++ lit " </main><footer/>"))).
Proof.
  apply (@splice_keeps_text_outside_regions ascii_runtime (lit "S") (lit "D")).
  vm_compute. reflexivity.
Defined.

End Patterns.

(* ================================================================== *)
(** * The matcher, step by step *)
(* ================================================================== *)

Section Steps.

Lemma advance_0 (st : mstate) : advance 0 st = st.
Proof. destruct st as [p cs]. unfold advance. cbn [pos caps]. now rewrite Nat.add_0_r. Qed.

Lemma advance_advance (n m : nat) (st : mstate) :
  advance n (advance m st) = advance (m + n) st.
Proof. unfold advance. cbn [pos caps]. now rewrite Nat.add_assoc. Qed.

Lemma rmatch_lit_app (l s : str) (k : cont mstate) (st : mstate) :
  rmatch (Lit l) k st (l ++ s) = k (advance (length l) st) s.
Proof.
  cbn [rmatch]. rewrite startswith_app, skipn_app, skipn_all, Nat.sub_diag.
  reflexivity.
Qed.

Lemma rmatch_lit_miss (l s : str) (k : cont mstate) (st : mstate) :
  startswith l s = false -> rmatch (Lit l) k st s = None.
Proof. intros H. cbn [rmatch]. now rewrite H. Qed.

Lemma star_lazy_hit (p : char -> bool) (k : cont mstate) (st x : mstate) (s : str) :
  k st s = Some x -> star false p k st s = Some x.
Proof. intros H. destruct s; cbn [star]; now rewrite H. Qed.

Lemma star_lazy_next (k : cont mstate) (st : mstate) (c : char) (s : str) :
  k st (c :: s) = None ->
  star false any_char k st (c :: s) = star false any_char k (advance 1 st) s.
Proof. intros H. cbn [star]. now rewrite H. Qed.

Lemma star_lazy_skip (k : cont mstate) (u s : str) :
  (forall (a b : str) (st' : mstate),
      u = a ++ b -> b <> [] -> k st' (b ++ s) = None) ->
  forall st : mstate,
    star false any_char k st (u ++ s) =
    star false any_char k (advance (length u) st) s.
Proof.
  induction u as [|c u IH]; intros H st.
  - cbn [app length]. now rewrite advance_0.
  - cbn [app]. rewrite star_lazy_next.
    + rewrite IH.
      * now rewrite advance_advance.
      * intros a b st' -> Hb. apply (H (c :: a) b st'); [reflexivity|exact Hb].
    + apply (H [] (c :: u) st); [reflexivity|discriminate].
Qed.

Lemma star_greedy_hit (p : char -> bool) (k : cont mstate) (w s : str) (x : mstate) :
  forallb p w = true -> Spec.head_in p s = false ->
  forall st : mstate,
    k (advance (length w) st) s = Some x ->
    star true p k st (w ++ s) = Some x.
Proof.
  intros Hw Hs. induction w as [|c w IH]; intros st H.
  - cbn [app length] in *. rewrite advance_0 in H.
    destruct s as [|c s]; cbn [star]; [exact H|].
    cbn [Spec.head_in] in Hs. now rewrite Hs.
  - cbn [forallb] in Hw. apply andb_true_iff in Hw as [Hc Hw].
    cbn [app star]. rewrite Hc.
    rewrite (IH Hw (advance 1 st)); [reflexivity|].
    now rewrite advance_advance.
Qed.

Lemma star_greedy_miss (p : char -> bool) (k : cont mstate) (w s : str) :
  forallb p w = true -> Spec.head_in p s = false ->
  (forall (a b : str) (st' : mstate), w = a ++ b -> k st' (b ++ s) = None) ->
  forall st : mstate, star true p k st (w ++ s) = None.
Proof.
  intros Hw Hs. induction w as [|c w IH]; intros H st.
  - cbn [app]. specialize (H [] [] st eq_refl). cbn [app] in H.
    destruct s as [|c s]; cbn [star]; [exact H|].
    cbn [Spec.head_in] in Hs. now rewrite Hs.
  - cbn [forallb] in Hw. apply andb_true_iff in Hw as [Hc Hw].
    cbn [app star]. rewrite Hc.
    rewrite (IH Hw).
    + apply (H [] (c :: w) st). reflexivity.
    + intros a b st' ->. apply (H (c :: a) b st'). reflexivity.
Qed.

Lemma rmatch_opt_hit (r : regex) (k : cont mstate) (st x : mstate) (s : str) :
  rmatch r k st s = Some x -> rmatch (Opt r) k st s = Some x.
Proof. intros H. cbn [rmatch]. now rewrite H. Qed.

(** ** Text in which the end of a list cannot be found *)

Lemma close_run_app (q : nat) (a b : str) :
  Spec.close_run q (a ++ b) = Spec.close_run (Spec.close_run q a) b.
Proof. apply fold_left_app. Qed.

Lemma close_run_dead (s : str) : Spec.close_run 3 s = 3.
Proof. induction s as [|c s IH]; [reflexivity|exact IH]. Qed.

Lemma no_list_end_app (a b : str) :
  Spec.no_list_end a = true -> Spec.no_list_end b = true ->
  Spec.no_list_end (a ++ b) = true.
Proof.
  unfold Spec.no_list_end. intros Ha Hb.
  apply Nat.eqb_eq in Ha. now rewrite close_run_app, Ha.
Qed.

Lemma no_list_end_no_lt (s : str) :
  forallb (fun c => negb (c =? ch "<")%N) s = true -> Spec.no_list_end s = true.
Proof.
  unfold Spec.no_list_end, Spec.close_run.
  induction s as [|c s IH]; intros H; [reflexivity|].
  cbn [forallb] in H. apply andb_true_iff in H as [Hc Hs].
  apply negb_true_iff in Hc. cbn [fold_left Spec.close_step].
  rewrite Hc. now apply IH.
Qed.

(** Inside such a text, [</ul>] starts nowhere, whatever follows it. *)
Lemma no_list_end_inside (u s : str) :
  Spec.no_list_end u = true ->
  forall a b : str,
    u = a ++ b -> b <> [] -> startswith (lit "</ul>") (b ++ s) = false.
Proof.
  unfold Spec.no_list_end. intros Hu a b -> Hb.
  apply Nat.eqb_eq in Hu. rewrite close_run_app in Hu.
  destruct (startswith (lit "</ul>") (b ++ s)) eqn:E; [exfalso|reflexivity].
  set (q := Spec.close_run 0 a) in Hu.
  assert (Hq : q <> 3).
  { intros Hq. rewrite Hq, close_run_dead in Hu. discriminate. }
  change (lit "</ul>") with [ch "<"; ch "/"; ch "u"; ch "l"; ch ">"] in E.
  destruct b as [|c1 b]; [congruence|].
  cbn [app startswith] in E. apply andb_true_iff in E as [E1 E].
  apply N.eqb_eq in E1. subst c1.
  assert (H1 : Spec.close_step q (ch "<") = 1).
  { destruct q as [|[|[|[|q]]]]; try reflexivity. congruence. }
  unfold Spec.close_run in Hu. cbn [fold_left] in Hu. rewrite H1 in Hu.
  destruct b as [|c2 b]; [discriminate|].
  cbn [app startswith] in E. apply andb_true_iff in E as [E2 E].
  apply N.eqb_eq in E2. subst c2.
  cbn [fold_left] in Hu. change (Spec.close_step 1 (ch "/")) with 2 in Hu.
  destruct b as [|c3 b]; [discriminate|].
  cbn [app startswith] in E. apply andb_true_iff in E as [E3 E].
  apply N.eqb_eq in E3. subst c3.
  cbn [fold_left] in Hu. change (Spec.close_step 2 (ch "u")) with 3 in Hu.
  fold (Spec.close_run 3 b) in Hu. rewrite close_run_dead in Hu. discriminate.
Qed.

(** A lazy star in front of [</ul>] runs over such a text. *)
Lemma star_lazy_over (k : cont mstate) (u s : str) (st : mstate) :
  Spec.no_list_end u = true ->
  star false any_char (rmatch (Lit (lit "</ul>")) k) st (u ++ s) =
  star false any_char (rmatch (Lit (lit "</ul>")) k) (advance (length u) st) s.
Proof.
  intros Hu. apply star_lazy_skip.
  intros a b st' E Hb. apply rmatch_lit_miss.
  now apply (no_list_end_inside u s Hu a b).
Qed.

End Steps.

(* ================================================================== *)
(** * The patterns on what the splice wrote *)
(* ================================================================== *)

Section Again.

Import BookRegistry.

Lemma rmatch_seq (r1 r2 : regex) (k : cont mstate) :
  rmatch (r1 ;; r2) k = rmatch r1 (rmatch r2 k).
Proof. reflexivity. Qed.

Lemma rmatch_star (g : bool) (p : char -> bool) (k : cont mstate) :
  rmatch (Star g p) k = star g p k.
Proof. reflexivity. Qed.

Lemma rmatch_group (n : nat) (r : regex) (k : cont mstate) (st : mstate) (s : str) :
  rmatch (Group n r) k st s =
  rmatch r (fun st' s' => k (set_cap n (pos st) (pos st') st') s') st s.
Proof. reflexivity. Qed.

Lemma replacement_text_pieces (S D : str) :
  Spec.replacement_text S D =
  OPEN_LIST ++ Spec.SKIP_1 S ++ Spec.UL_END ++ Spec.WS_1 ++ Spec.DIV_END
  ++ Spec.WS_2 ++ OPEN_SEPARATOR ++ Spec.DIV_END ++ Spec.WS_2 ++ OPEN_DETAILS
  ++ Spec.SKIP_2 D ++ Spec.UL_END ++ Spec.WS_1 ++ Spec.DIV_END.
Proof.
  unfold Spec.replacement_text, Spec.SKIP_1, Spec.SKIP_2, Spec.REPL_1,
    Spec.REPL_2, Spec.REPL_3, Spec.WS_1, Spec.WS_2, Spec.UL_END, Spec.DIV_END.
  rewrite <- !app_assoc. reflexivity.
Qed.

End Again.

Ltac lit_step := rewrite rmatch_lit_app.
Ltac ws_step :=
  rewrite rmatch_star; apply star_greedy_hit; [reflexivity|reflexivity|].
Ltac state_sums :=
  cbn [pos caps advance set_cap];
  unfold Spec.MAIN_END, Spec.UL_END, Spec.DIV_END;
  rewrite ?replacement_text_pieces;
  unfold Spec.MAIN_END, Spec.UL_END, Spec.DIV_END;
  rewrite ?length_app; lia.

Section AgainFirst.

Import BookRegistry.

Lemma group_text_at (s pre t post : str) (st : mstate) (g b e : nat) :
  g <> 0 -> get_cap g (caps st) = Some (b, e) ->
  b = length pre -> e = length pre + length t -> s = pre ++ t ++ post ->
  group_text s st g = t.
Proof.
  intros Hg Hc -> -> ->. unfold group_text.
  destruct g as [|g]; [congruence|]. rewrite Hc.
  rewrite skipn_app, skipn_all, Nat.sub_diag. cbn [skipn app].
  replace (length pre + length t - length pre) with (length t) by lia.
  rewrite firstn_app, firstn_all, Nat.sub_diag. cbn [firstn]. apply app_nil_r.
Qed.

Lemma no_list_end_skip_1 (S : str) :
  Spec.no_list_end S = true -> Spec.no_list_end (Spec.SKIP_1 S) = true.
Proof.
  intros H. unfold Spec.SKIP_1.
  repeat (apply no_list_end_app; [try reflexivity; try assumption|]); reflexivity.
Qed.

Lemma no_list_end_skip_2 (D : str) :
  Spec.no_list_end D = true -> Spec.no_list_end (Spec.SKIP_2 D) = true.
Proof.
  intros H. unfold Spec.SKIP_2.
  repeat (apply no_list_end_app; [try reflexivity; try assumption|]); reflexivity.
Qed.


(** The first pattern, on a region the splice wrote: it matches the
    region again, and nothing more. *)
Lemma pattern_again (S D w X : str) :
  Spec.no_list_end S = true -> Spec.no_list_end D = true ->
  forallb is_space w = true ->
  exists st,
    match_at pattern (Spec.replacement_text S D ++ (w ++ Spec.MAIN_END) ++ X)
      = Some st /\
    pos st = length (Spec.replacement_text S D ++ w ++ Spec.MAIN_END) /\
    group_text (Spec.replacement_text S D ++ (w ++ Spec.MAIN_END) ++ X) st 2
      = w ++ Spec.MAIN_END.
Proof.
  intros HS HD Hw. eexists. split; [|split].
  - rewrite replacement_text_pieces, <- !app_assoc.
    unfold Spec.UL_END, Spec.DIV_END, Spec.MAIN_END.
    unfold match_at, pattern.
    rewrite !rmatch_seq, rmatch_group, !rmatch_seq.
    lit_step. rewrite rmatch_star.
    rewrite (star_lazy_over _ _ _ _ (no_list_end_skip_1 S HS)).
    apply star_lazy_hit. lit_step. ws_step. lit_step. cbv beta.
    apply rmatch_opt_hit. rewrite !rmatch_seq. ws_step. lit_step.
    rewrite rmatch_star. apply star_lazy_hit. lit_step.
    apply rmatch_opt_hit. rewrite !rmatch_seq. ws_step. lit_step.
    rewrite rmatch_star.
    rewrite (star_lazy_over _ _ _ _ (no_list_end_skip_2 D HD)).
    apply star_lazy_hit. lit_step. ws_step. lit_step.
    rewrite rmatch_group, rmatch_seq, rmatch_star.
    apply star_greedy_hit; [exact Hw|reflexivity|].
    lit_step. reflexivity.
  - state_sums.
  - eapply (group_text_at _ (Spec.replacement_text S D) (w ++ Spec.MAIN_END) X);
      [discriminate|reflexivity| | |reflexivity]; state_sums.
Qed.

(** ** The simple pattern *)

Lemma replacement_text_simple_pieces (S D : str) :
  Spec.replacement_text S D =
  OPEN_LIST ++ Spec.WS_0 ++ lit "<ul>" ++ Spec.SKIP_S S ++ lit "</ul>"
  ++ Spec.MIDDLE D ++ lit "</ul>" ++ Spec.WS_1 ++ lit "</div>".
Proof.
  unfold Spec.replacement_text, Spec.SKIP_1, Spec.SKIP_2, Spec.REPL_1,
    Spec.REPL_2, Spec.REPL_3, Spec.WS_0, Spec.WS_1, Spec.WS_2, Spec.MIDDLE,
    Spec.SKIP_S, Spec.SKIP_2.
  rewrite <- !app_assoc. reflexivity.
Qed.

Lemma space_not_lt (c : char) : is_space c = true -> (ch "<" =? c)%N = false.
Proof.
  intros H. destruct (ch "<" =? c)%N eqn:E; [|reflexivity].
  apply N.eqb_eq in E. subst c. discriminate H.
Qed.

(** A literal that starts with [<] is not found at a white space. *)
Lemma tag_miss_at_space (l b r : str) :
  forallb is_space b = true -> b <> [] ->
  startswith (ch "<" :: l) (b ++ r) = false.
Proof.
  destruct b as [|c b]; intros H Hb; [congruence|].
  cbn [forallb] in H. apply andb_true_iff in H as [Hc _].
  cbn [app startswith]. now rewrite (space_not_lt c Hc).
Qed.

Lemma forallb_suffix (p : char -> bool) (u a b : str) :
  forallb p u = true -> u = a ++ b -> forallb p b = true.
Proof.
  intros H ->. rewrite forallb_app in H. now apply andb_true_iff in H as [_ H].
Qed.

(** At the end of the summary list the rest of the simple pattern does
    not match: the separator follows, not the end of the main element. *)
Lemma simple_rest_miss (st : mstate) (D r : str) :
  rmatch (Group 3 (Lit (lit "</ul>") ;; Star true is_space ;; Lit (lit "</div>")))
         (rmatch (Group 4 (Star true is_space ;; Lit (lit "</main>")))
                 (fun st0 _ => Some st0))
         st (lit "</ul>" ++ Spec.MIDDLE D ++ r) = None.
Proof.
  rewrite rmatch_group, !rmatch_seq. lit_step. rewrite rmatch_star.
  unfold Spec.MIDDLE. rewrite <- !app_assoc.
  apply star_greedy_miss; [reflexivity|reflexivity|].
  intros a b st1 E.
  assert (Hb : forallb is_space b = true)
    by (apply (forallb_suffix is_space Spec.WS_1 a b); [reflexivity|exact E]).
  destruct b as [|c b].
  - cbn [app]. lit_step. cbv beta.
    rewrite rmatch_group, rmatch_seq, rmatch_star.
    apply star_greedy_miss; [reflexivity|reflexivity|].
    intros a' b' st2 E'.
    assert (Hb' : forallb is_space b' = true)
      by (apply (forallb_suffix is_space Spec.WS_2 a' b'); [reflexivity|exact E']).
    apply rmatch_lit_miss.
    destruct b' as [|c' b']; [reflexivity|].
    apply (tag_miss_at_space (lit "/main>")); [exact Hb'|discriminate].
  - apply rmatch_lit_miss.
    apply (tag_miss_at_space (lit "/div>")); [exact Hb|discriminate].
Qed.

Lemma no_list_end_skip_s (S : str) :
  Spec.no_list_end S = true -> Spec.no_list_end (Spec.SKIP_S S) = true.
Proof.
  intros H. unfold Spec.SKIP_S.
  repeat (apply no_list_end_app; [try reflexivity; try assumption|]); reflexivity.
Qed.

Lemma no_list_end_middle (D : str) :
  Spec.no_list_end D = true ->
  Spec.no_list_end (lit "/ul>" ++ Spec.MIDDLE D) = true.
Proof.
  intros H. unfold Spec.MIDDLE, Spec.SKIP_2.
  repeat (apply no_list_end_app; [try reflexivity; try assumption|]); reflexivity.
Qed.

End AgainFirst.

Ltac simple_sums :=
  cbn [pos caps advance set_cap];
  unfold Spec.MAIN_END, Spec.UL_END, Spec.DIV_END;
  rewrite ?replacement_text_simple_pieces;
  rewrite ?length_app;
  change (length (lit "</ul>")) with 5;
  change (length (lit "/ul>")) with 4;
  lia.

Section AgainSimple.

Import BookRegistry.

(** The simple pattern, on a region the splice wrote: it matches the
    region again, and nothing more. *)
Lemma pattern_simple_again (S D w X : str) :
  Spec.no_list_end S = true -> Spec.no_list_end D = true ->
  forallb is_space w = true ->
  exists st,
    match_at pattern_simple
      (Spec.replacement_text S D ++ (w ++ Spec.MAIN_END) ++ X) = Some st /\
    pos st = length (Spec.replacement_text S D ++ w ++ Spec.MAIN_END) /\
    group_text (Spec.replacement_text S D ++ (w ++ Spec.MAIN_END) ++ X) st 4
      = w ++ Spec.MAIN_END.
Proof.
  intros HS HD Hw. eexists. split; [|split].
  - rewrite replacement_text_simple_pieces, <- !app_assoc.
    unfold Spec.UL_END, Spec.DIV_END, Spec.MAIN_END.
    unfold match_at, pattern_simple.
    rewrite !rmatch_seq, rmatch_group, !rmatch_seq.
    lit_step. ws_step. lit_step. cbv beta.
    rewrite rmatch_group, rmatch_star.
    rewrite star_lazy_skip.
    2:{ intros a b st' E Hb. rewrite rmatch_group, !rmatch_seq.
        apply rmatch_lit_miss.
        now apply (no_list_end_inside (Spec.SKIP_S S) _
                     (no_list_end_skip_s S HS) a b). }
    change (lit "</ul>" ++ Spec.MIDDLE D ++ lit "</ul>" ++ Spec.WS_1 ++
            lit "</div>" ++ w ++ lit "</main>" ++ X)
      with (ch "<" :: (lit "/ul>" ++ Spec.MIDDLE D ++ lit "</ul>" ++ Spec.WS_1 ++
            lit "</div>" ++ w ++ lit "</main>" ++ X)).
    rewrite star_lazy_next.
    2:{ cbv beta.
        change (ch "<" :: (lit "/ul>" ++ Spec.MIDDLE D ++ lit "</ul>" ++
                Spec.WS_1 ++ lit "</div>" ++ w ++ lit "</main>" ++ X))
          with (lit "</ul>" ++ Spec.MIDDLE D ++ lit "</ul>" ++ Spec.WS_1 ++
                lit "</div>" ++ w ++ lit "</main>" ++ X).
        apply simple_rest_miss. }
    rewrite (app_assoc (lit "/ul>") (Spec.MIDDLE D)).
    rewrite star_lazy_skip.
    2:{ intros a b st' E Hb. rewrite rmatch_group, !rmatch_seq.
        apply rmatch_lit_miss.
        now apply (no_list_end_inside (lit "/ul>" ++ Spec.MIDDLE D) _
                     (no_list_end_middle D HD) a b). }
    apply star_lazy_hit. rewrite rmatch_group, !rmatch_seq.
    lit_step. ws_step. lit_step. cbv beta.
    rewrite rmatch_group, rmatch_seq, rmatch_star.
    apply star_greedy_hit; [exact Hw|reflexivity|].
    lit_step. reflexivity.
  - simple_sums.
  - eapply (group_text_at _ (Spec.replacement_text S D) (w ++ Spec.MAIN_END) X);
      [discriminate|reflexivity| | |reflexivity]; simple_sums.
Qed.

End AgainSimple.

(* ================================================================== *)
(** * The rendered fragments, as the patterns see them *)
(* ================================================================== *)

Section Fragments.

Import BookRegistry.

Lemma html_escape_no_list_end (s : str) : Spec.no_list_end (html_escape s) = true.
Proof.
  apply no_list_end_no_lt. apply forallb_forall. intros c Hc.
  pose proof (html_escape_no_markup s) as H.
  rewrite forallb_forall in H. specialize (H c Hc).
  unfold Spec.is_markup in H.
  destruct (c =? ch "<")%N; [discriminate H|reflexivity].
Qed.

Ltac no_list_end_pieces :=
  repeat (apply no_list_end_app;
          [first [apply html_escape_no_list_end | reflexivity]|]);
  first [apply html_escape_no_list_end | reflexivity].

Lemma summary_item_no_list_end (b : Book) : Spec.no_list_end (summary_item b) = true.
Proof. unfold summary_item, format_date. no_list_end_pieces. Qed.

Lemma detail_item_no_list_end (b : Book) : Spec.no_list_end (detail_item b) = true.
Proof. unfold detail_item. no_list_end_pieces. Qed.

Lemma join_no_list_end (item : Book -> str) (books : list Book) :
  (forall b, Spec.no_list_end (item b) = true) ->
  Spec.no_list_end (join [nl] (map item books)) = true.
Proof.
  intros H. induction books as [|b books IH]; [reflexivity|].
  destruct books as [|b' books]; [apply H|].
  change (join [nl] (map item (b :: b' :: books)))
    with (item b ++ [nl] ++ join [nl] (map item (b' :: books))).
  apply no_list_end_app; [apply H|].
  apply no_list_end_app; [reflexivity|exact IH].
Qed.

Lemma no_backslash_app (a b : str) :
  Spec.no_backslash a = true -> Spec.no_backslash b = true ->
  Spec.no_backslash (a ++ b) = true.
Proof.
  unfold Spec.no_backslash. intros Ha Hb. rewrite forallb_app.
  apply andb_true_iff. now split.
Qed.

Lemma html_escape_no_backslash (s : str) :
  Spec.no_backslash s = true -> Spec.no_backslash (html_escape s) = true.
Proof.
  induction s as [|c s IH]; intros H; [reflexivity|].
  unfold Spec.no_backslash in H. cbn [forallb] in H.
  apply andb_true_iff in H as [Hc Hs].
  rewrite html_escape_cons. apply no_backslash_app; [|now apply IH].
  destruct (escape_char_cases c) as [[->|[->|[->|[->| ->]]]]|(_ & _ & _ & ->)];
    try reflexivity.
  unfold Spec.no_backslash. cbn [forallb]. now rewrite Hc.
Qed.

Ltac no_backslash_pieces :=
  repeat (apply no_backslash_app;
          [first [apply html_escape_no_backslash; assumption | reflexivity]|]);
  first [apply html_escape_no_backslash; assumption | reflexivity].

Lemma plain_book_fields (b : Book) :
  Spec.plain_book b = true ->
  Spec.no_backslash (rating b) = true /\ Spec.no_backslash (date_read b) = true /\
  Spec.no_backslash (title b) = true /\ Spec.no_backslash (author b) = true /\
  Spec.no_backslash (description b) = true.
Proof.
  unfold Spec.plain_book. intros H.
  repeat (apply andb_true_iff in H as [H ?]). auto.
Qed.

Lemma summary_item_no_backslash (b : Book) :
  Spec.plain_book b = true -> Spec.no_backslash (summary_item b) = true.
Proof.
  intros H. apply plain_book_fields in H as (H1 & H2 & H3 & H4 & H5).
  unfold summary_item, format_date. no_backslash_pieces.
Qed.

Lemma detail_item_no_backslash (b : Book) :
  Spec.plain_book b = true -> Spec.no_backslash (detail_item b) = true.
Proof.
  intros H. apply plain_book_fields in H as (H1 & H2 & H3 & H4 & H5).
  unfold detail_item. no_backslash_pieces.
Qed.

Lemma join_no_backslash (item : Book -> str) (books : list Book) :
  (forall b, Spec.plain_book b = true -> Spec.no_backslash (item b) = true) ->
  forallb Spec.plain_book books = true ->
  Spec.no_backslash (join [nl] (map item books)) = true.
Proof.
  intros H. induction books as [|b books IH]; intros Hall; [reflexivity|].
  cbn [forallb] in Hall. apply andb_true_iff in Hall as [Hb Hall].
  destruct books as [|b' books]; [now apply H|].
  change (join [nl] (map item (b :: b' :: books)))
    with (item b ++ [nl] ++ join [nl] (map item (b' :: books))).
  apply no_backslash_app; [now apply H|].
  apply no_backslash_app; [reflexivity|now apply IH].
Qed.

Lemma generate_book_html_plain (books : list Book) :
  forallb Spec.plain_book books = true ->
  Spec.no_list_end (fst (generate_book_html books)) = true /\
  Spec.no_list_end (snd (generate_book_html books)) = true /\
  Spec.no_backslash (fst (generate_book_html books)) = true /\
  Spec.no_backslash (snd (generate_book_html books)) = true.
Proof.
  intros H. destruct books as [|b books]; [repeat split|].
  cbn [generate_book_html fst snd].
  split; [apply join_no_list_end, summary_item_no_list_end|].
  split; [apply join_no_list_end, detail_item_no_list_end|].
  split; [now apply join_no_backslash; [apply summary_item_no_backslash|]|].
  now apply join_no_backslash; [apply detail_item_no_backslash|].
Qed.

End Fragments.

(* ================================================================== *)
(** * Splicing twice *)
(* ================================================================== *)

Section Twice.

Import BookRegistry.

Lemma eqb_eq (a b : str) : PyStr.eqb a b = true <-> a = b.
Proof.
  revert b; induction a as [|x a IH]; intros [|y b]; cbn [PyStr.eqb];
    try (split; [discriminate|discriminate]); [split; reflexivity|].
  rewrite andb_true_iff, N.eqb_eq, IH. split.
  - now intros [-> ->].
  - now intros [= -> ->].
Qed.

Lemma eqb_refl (a : str) : PyStr.eqb a a = true.
Proof. now apply eqb_eq. Qed.

(** ** Where the patterns can start *)

Lemma startswith_short (l z r : str) :
  length l <= length z -> startswith l (z ++ r) = startswith l z.
Proof.
  revert z; induction l as [|x l IH]; intros z H; [reflexivity|].
  destruct z as [|y z]; [simpl in H; lia|].
  cbn [app startswith]. rewrite IH by (simpl in H; lia). reflexivity.
Qed.

Lemma startswith_behind (l d a x : str) :
  startswith l d = true -> startswith l a = true ->
  startswith l (x ++ d) = startswith l (x ++ a).
Proof.
  intros Hd Ha.
  rewrite (startswith_split l d Hd), (startswith_split l a Ha).
  rewrite !app_assoc.
  rewrite !(startswith_short l (x ++ l)) by (rewrite length_app; lia).
  reflexivity.
Qed.

Lemma pattern_needs_open (u : str) :
  startswith OPEN_LIST u = false ->
  match_at pattern u = None /\ match_at pattern_simple u = None.
Proof.
  intros H. unfold match_at, pattern, pattern_simple.
  rewrite !rmatch_seq, !rmatch_group, !rmatch_seq.
  now rewrite !(rmatch_lit_miss OPEN_LIST u) by exact H.
Qed.

Lemma pattern_starts_with_open (u : str) :
  match_at pattern u <> None -> startswith OPEN_LIST u = true.
Proof.
  intros H. destruct (startswith OPEN_LIST u) eqn:E; [reflexivity|].
  now apply pattern_needs_open in E as [E _].
Qed.

(** What the first pattern matches can start earlier, at another opening
    tag of the list: the lazy star takes what lies between. *)
Lemma pattern_matches_extend (x v : str) :
  Spec.matches pattern (OPEN_LIST ++ v) ->
  Spec.matches pattern (OPEN_LIST ++ x ++ v).
Proof.
  unfold pattern. cbn [Spec.matches].
  intros (u1 & u2 & E & (a & b & -> & -> & c & d & -> & Hc & Hd) & H2).
  rewrite <- app_assoc in E. apply app_inv_head in E. subst v.
  exists (OPEN_LIST ++ (x ++ c) ++ d), u2. split; [|split].
  - now rewrite <- !app_assoc.
  - exists OPEN_LIST, ((x ++ c) ++ d). split; [reflexivity|].
    split; [reflexivity|]. exists (x ++ c), d.
    split; [reflexivity|]. split; [|exact Hd].
    apply forallb_forall. reflexivity.
  - exact H2.
Qed.

Lemma pattern_matches_open (v : str) :
  Spec.matches pattern v -> exists v', v = OPEN_LIST ++ v'.
Proof.
  unfold pattern. cbn [Spec.matches].
  intros (u1 & u2 & -> & (a & b & -> & -> & _) & _).
  exists (b ++ u2). now rewrite <- app_assoc.
Qed.

Lemma pattern_earlier (u : str) (i : nat) :
  startswith OPEN_LIST u = true ->
  match_at pattern (skipn i u) <> None ->
  match_at pattern u <> None.
Proof.
  intros Hu H.
  destruct (match_at pattern (skipn i u)) as [st|] eqn:E; [|congruence].
  apply match_at_sound in E as (v & rest & E & M & _).
  destruct (pattern_matches_open v M) as (v' & ->).
  assert (Eu : u = (firstn i u ++ OPEN_LIST) ++ v' ++ rest).
  { rewrite <- (firstn_skipn i u) at 1. rewrite E. now rewrite <- !app_assoc. }
  assert (Hz : startswith OPEN_LIST (firstn i u ++ OPEN_LIST) = true).
  { rewrite Eu in Hu. rewrite startswith_short in Hu; [exact Hu|].
    rewrite length_app. lia. }
  apply startswith_split in Hz.
  set (x := skipn (length OPEN_LIST) (firstn i u ++ OPEN_LIST)) in Hz.
  rewrite Hz in Eu. rewrite Eu.
  replace ((OPEN_LIST ++ x) ++ v' ++ rest) with ((OPEN_LIST ++ x ++ v') ++ rest)
    by (now rewrite <- !app_assoc).
  apply match_at_complete. now apply pattern_matches_extend.
Qed.

(** What the simple pattern matches, the first pattern matches. *)
Lemma pattern_simple_matches (v : str) :
  Spec.matches pattern_simple v -> Spec.matches pattern v.
Proof.
  unfold pattern, pattern_simple. cbn [Spec.matches].
  intros (g1 & r1 & -> & (a & b & -> & -> & w0 & ul & -> & Hw0 & ->)
          & g2 & r2 & -> & Hg2
          & g3 & g4 & -> & (e & f & -> & -> & w1 & dv & -> & Hw1 & ->) & Hg4).
  exists (OPEN_LIST ++ (w0 ++ lit "<ul>" ++ g2) ++ lit "</ul>" ++ w1 ++ lit "</div>"),
    g4.
  split; [now rewrite <- !app_assoc|]. split.
  - exists OPEN_LIST, ((w0 ++ lit "<ul>" ++ g2) ++ lit "</ul>" ++ w1 ++ lit "</div>").
    split; [reflexivity|]. split; [reflexivity|].
    exists (w0 ++ lit "<ul>" ++ g2), (lit "</ul>" ++ w1 ++ lit "</div>").
    split; [reflexivity|]. split; [apply forallb_forall; reflexivity|].
    exists (lit "</ul>"), (w1 ++ lit "</div>").
    split; [reflexivity|]. split; [reflexivity|].
    exists w1, (lit "</div>"). now repeat split.
  - exists [], g4. split; [reflexivity|]. split; [now left|].
    exists [], g4. split; [reflexivity|]. split; [now left|exact Hg4].
Qed.

Lemma pattern_simple_none (u : str) :
  match_at pattern u = None -> match_at pattern_simple u = None.
Proof.
  intros H. destruct (match_at pattern_simple u) as [st|] eqn:E; [|reflexivity].
  apply match_at_sound in E as (v & rest & -> & M & _).
  apply pattern_simple_matches in M.
  now destruct (match_at_complete pattern v rest M).
Qed.

End Twice.

Section SpliceAgain.

Import BookRegistry.

Variable S D : str.
Hypothesis S_closed : Spec.no_list_end S = true.
Hypothesis D_closed : Spec.no_list_end D = true.

Let REPL : str := Spec.replacement_text S D.
Let tpl2 : list titem := map TChar REPL ++ [TGroup 2].
Let tpl4 : list titem := map TChar REPL ++ [TGroup 4].

Lemma expand_region (s : str) (st : mstate) :
  match_at pattern s = Some st ->
  exists region w post,
    s = region ++ (w ++ Spec.MAIN_END) ++ post /\
    forallb is_space w = true /\
    pos st = length (region ++ w ++ Spec.MAIN_END) /\
    expand tpl2 s st = REPL ++ w ++ Spec.MAIN_END.
Proof.
  intros H.
  destruct (match_region pattern Spec.HEAD 2 ltac:(discriminate)
              match_at_pattern s st H)
    as (region & t & post & -> & _ & (w & -> & Hw) & Hp & Hg).
  exists region, w, post. repeat split; [exact Hw|exact Hp|].
  unfold expand, tpl2. rewrite flat_map_app. cbn [flat_map expand_item].
  rewrite Hg, app_nil_r. f_equal. apply expand_chars.
Qed.

Lemma REPL_starts_with_open (r : str) : startswith OPEN_LIST (REPL ++ r) = true.
Proof.
  unfold REPL, Spec.replacement_text. rewrite <- !app_assoc.
  apply startswith_app.
Qed.

(** The scan of the first pattern over what it has written finds the
    same regions and writes the same text; so does the scan of the simple
    pattern. *)
Lemma sub_loop_again (n : nat) :
  forall doc : str, length doc <= n ->
    let A := sub_loop pattern tpl2 0 doc in
    sub_loop pattern tpl2 0 A = A /\
    sub_loop pattern_simple tpl4 0 A = A /\
    (forall x, startswith OPEN_LIST (x ++ doc) = startswith OPEN_LIST (x ++ A)) /\
    ((A = doc /\ forall i, match_at pattern (skipn i doc) = None) \/
     (exists i, match_at pattern (skipn i doc) <> None)).
Proof.
  induction n as [|n IH]; intros doc Hlen A.
  - destruct doc; [|simpl in Hlen; lia]. subst A.
    cbn [sub_loop].
    rewrite (match_at_nil pattern Spec.HEAD 2 ltac:(discriminate) match_at_pattern).
    cbn [sub_loop].
    rewrite (match_at_nil pattern Spec.HEAD 2 ltac:(discriminate) match_at_pattern).
    rewrite (match_at_nil pattern_simple Spec.HEAD_simple 4 ltac:(discriminate)
               match_at_pattern_simple).
    repeat split. left. split; [reflexivity|]. intros i. rewrite skipn_nil.
    apply (match_at_nil pattern Spec.HEAD 2 ltac:(discriminate) match_at_pattern).
  - destruct doc as [|c s].
    { apply (IH []). simpl. lia. }
    destruct (match_at pattern (c :: s)) as [st|] eqn:E.
    + (* a region starts here *)
      destruct (expand_region _ _ E) as (region & w & post & Es & Hw & Hp & Hx).
      assert (Hlen' : length post <= n).
      { apply (f_equal (@length char)) in Es. rewrite !length_app in Es.
        unfold Spec.MAIN_END in Es. simpl in Es, Hlen. lia. }
      assert (Hpos : 0 < pos st <= length (c :: s)).
      { rewrite Hp, Es, !length_app.
        unfold Spec.MAIN_END. simpl. lia. }
      assert (EA : A = REPL ++ (w ++ Spec.MAIN_END) ++ sub_loop pattern tpl2 0 post).
      { subst A. rewrite (sub_loop_match pattern tpl2 (c :: s) st E) by lia.
        rewrite Hx, <- app_assoc. do 2 f_equal.
        rewrite Es, Hp.
        replace (region ++ (w ++ Spec.MAIN_END) ++ post)
          with ((region ++ w ++ Spec.MAIN_END) ++ post)
          by (now rewrite <- !app_assoc).
        rewrite skipn_app, skipn_all, Nat.sub_diag. reflexivity. }
      destruct (IH post Hlen') as (IH1 & IH2 & _ & _).
      set (A' := sub_loop pattern tpl2 0 post) in *.
      rewrite EA.
      destruct (pattern_again S D w A' S_closed D_closed Hw)
        as (st2 & M2 & P2 & G2).
      destruct (pattern_simple_again S D w A' S_closed D_closed Hw)
        as (st4 & M4 & P4 & G4).
      fold REPL in M2, P2, G2, M4, P4, G4.
      assert (Hl : 0 < length (REPL ++ w ++ Spec.MAIN_END) <=
                   length (REPL ++ (w ++ Spec.MAIN_END) ++ A')).
      { rewrite !length_app. unfold Spec.MAIN_END. simpl. lia. }
      assert (Hskip : skipn (length (REPL ++ w ++ Spec.MAIN_END))
                        (REPL ++ (w ++ Spec.MAIN_END) ++ A') = A').
      { replace (REPL ++ (w ++ Spec.MAIN_END) ++ A')
          with ((REPL ++ w ++ Spec.MAIN_END) ++ A')
          by (now rewrite <- !app_assoc).
        now rewrite skipn_app, skipn_all, Nat.sub_diag. }
      split; [|split; [|split]].
      * rewrite (sub_loop_match pattern tpl2 _ st2 M2) by (rewrite P2; lia).
        rewrite P2, Hskip, IH1.
        unfold expand, tpl2. rewrite flat_map_app. cbn [flat_map expand_item].
        rewrite G2, app_nil_r.
        change (flat_map (expand_item (REPL ++ (w ++ Spec.MAIN_END) ++ A') st2)
                  (map TChar REPL))
          with (expand (map TChar REPL) (REPL ++ (w ++ Spec.MAIN_END) ++ A') st2).
        rewrite expand_chars. now rewrite <- !app_assoc.
      * rewrite (sub_loop_match pattern_simple tpl4 _ st4 M4) by (rewrite P4; lia).
        rewrite P4, Hskip, IH2.
        unfold expand, tpl4. rewrite flat_map_app. cbn [flat_map expand_item].
        rewrite G4, app_nil_r.
        change (flat_map (expand_item (REPL ++ (w ++ Spec.MAIN_END) ++ A') st4)
                  (map TChar REPL))
          with (expand (map TChar REPL) (REPL ++ (w ++ Spec.MAIN_END) ++ A') st4).
        rewrite expand_chars. now rewrite <- !app_assoc.
      * intros x. apply startswith_behind.
        -- apply pattern_starts_with_open. congruence.
        -- apply REPL_starts_with_open.
      * right. exists 0. cbn [skipn]. congruence.
    + (* the character is copied *)
      assert (Hlen' : length s <= n) by (simpl in Hlen; lia).
      destruct (IH s Hlen') as (IH1 & IH2 & IH3 & IH4).
      assert (EA : A = c :: sub_loop pattern tpl2 0 s)
        by (subst A; now rewrite sub_loop_copy).
      set (A' := sub_loop pattern tpl2 0 s) in *.
      assert (Hnone : match_at pattern (c :: A') = None /\
                      match_at pattern_simple (c :: A') = None).
      { destruct IH4 as [(EA' & _)|(i & Hi)].
        - rewrite EA'. split; [exact E|now apply pattern_simple_none].
        - apply pattern_needs_open.
          change (c :: A') with ([c] ++ A').
          rewrite <- (IH3 [c]). cbn [app].
          destruct (startswith OPEN_LIST (c :: s)) eqn:Eo; [|reflexivity].
          exfalso. apply (pattern_earlier (c :: s) (Datatypes.S i) Eo); [exact Hi|exact E]. }
      destruct Hnone as (Hn2 & Hn4).
      rewrite EA.
      split; [|split; [|split]].
      * rewrite sub_loop_copy by exact Hn2. now rewrite IH1.
      * rewrite sub_loop_copy by exact Hn4. now rewrite IH2.
      * intros x.
        change (x ++ c :: s) with (x ++ [c] ++ s).
        change (x ++ c :: A') with (x ++ [c] ++ A').
        rewrite !app_assoc. apply IH3.
      * destruct IH4 as [(EA' & Hno)|(i & Hi)].
        -- left. split; [now rewrite EA'|].
           intros [|i]; [exact E|apply Hno].
        -- right. now exists (Datatypes.S i).
Qed.

End SpliceAgain.
(* ================================================================== *)
(** * The splice applied twice, and a page without the list *)
(* ================================================================== *)

Section SpliceTwice.

Import BookRegistry.
Context {RT : Runtime}.

(** Where the pattern matches at no offset, the substitution returns the
    text as it is. *)
Lemma sub_loop_no_match (r : regex) (tpl : list titem) (s : str) :
  (forall i, match_at r (skipn i s) = None) -> sub_loop r tpl 0 s = s.
Proof.
  induction s as [|c s IH]; intros H.
  - specialize (H 0). cbn [skipn] in H. cbn [sub_loop]. now rewrite H.
  - rewrite sub_loop_copy by exact (H 0). f_equal.
    apply IH. intros i. exact (H (Datatypes.S i)).
Qed.

(** With fragments that hold no backslash and no end of a list, the
    substitution step returns the scan of the first pattern, and returns
    the same text when it is given that text. *)
Lemma splice_plain (summary_html detail_html html_content : str) :
  Spec.no_list_end summary_html = true ->
  Spec.no_list_end detail_html = true ->
  Spec.no_backslash summary_html = true ->
  Spec.no_backslash detail_html = true ->
  exists new_html,
    splice summary_html detail_html html_content = Some new_html /\
    splice summary_html detail_html new_html = Some new_html.
Proof.
  intros HSc HDc HS HD.
  pose proof (sub_loop_again summary_html detail_html HSc HDc
                (length html_content) html_content (le_n _)) as H.
  cbv zeta in H. destruct H as (H1 & H2 & _ & _).
  unfold splice, Re.sub.
  rewrite (template_plain 2 group_name_index (ch "2") 2 (group_reference_2 _)
             summary_html detail_html HS HD).
  rewrite (template_plain 4 group_name_index (ch "4") 4 (group_reference_4 _)
             summary_html detail_html HS HD).
  set (A := sub_loop pattern _ 0 html_content) in *.
  exists A. split.
  - destruct (PyStr.eqb A html_content) eqn:E; [|reflexivity].
    apply eqb_eq in E. rewrite <- E. now rewrite H2.
  - now rewrite H1, eqb_refl, H2.
Qed.

(** Where the first pattern matches at no offset of the page, neither
    does the simple one, and the substitution step returns the page. *)
Lemma splice_no_match (summary_html detail_html html_content : str) :
  Spec.no_backslash summary_html = true ->
  Spec.no_backslash detail_html = true ->
  (forall i, match_at pattern (skipn i html_content) = None) ->
  splice summary_html detail_html html_content = Some html_content.
Proof.
  intros HS HD H.
  unfold splice, Re.sub.
  rewrite (template_plain 2 group_name_index (ch "2") 2 (group_reference_2 _)
             summary_html detail_html HS HD).
  rewrite (template_plain 4 group_name_index (ch "4") 4 (group_reference_4 _)
             summary_html detail_html HS HD).
  rewrite (sub_loop_no_match pattern _ html_content H), eqb_refl.
  rewrite sub_loop_no_match; [reflexivity|].
  intros i. apply pattern_simple_none, H.
Qed.

(** What the code gets right: for every host document and every list
    of records no field of which holds a backslash, the substitution
    step returns a document, and applied to that document with the same
    records it returns that document again. *)
Lemma splice_twice_without_backslash
        (books : list Book) (html_content : str) :
  forallb Spec.plain_book books = true ->
  exists new_html,
    splice (fst (generate_book_html books)) (snd (generate_book_html books))
           html_content = Some new_html /\
    splice (fst (generate_book_html books)) (snd (generate_book_html books))
           new_html = Some new_html.
Proof.
  intros H.
  destruct (generate_book_html_plain books H) as (A & B & C & E).
  now apply splice_plain.
Qed.

End SpliceTwice.

Lemma splice_twice_without_backslash_witness :
  forallb Spec.plain_book [Spec.example_book] = true /\
  exists new_html,
    @BookRegistry.splice ascii_runtime
      (fst (BookRegistry.generate_book_html [Spec.example_book]))
      (snd (BookRegistry.generate_book_html [Spec.example_book]))
      Spec.legacy_page = Some new_html /\
    @BookRegistry.splice ascii_runtime
      (fst (BookRegistry.generate_book_html [Spec.example_book]))
      (snd (BookRegistry.generate_book_html [Spec.example_book]))
      new_html = Some new_html.
Proof.
  split; [reflexivity|].
  apply (@splice_twice_without_backslash ascii_runtime
           [Spec.example_book] Spec.legacy_page).
  reflexivity.
Defined.

(** C6.  The code does not do what the claim says.  The fragments,
    escaped for HTML, are handed to [re.sub] as its replacement, where a
    backslash starts an escape.  A description that is a backslash and
    the digit 1 is expanded to the first group of the match, the list
    the page held before: the substitution applied to its own output
    then writes a different document.  A description that is a
    backslash and the letter q makes [re.sub] raise, with a page that
    holds the list and with a page that does not, and no document is
    written at all. *)
Theorem splice_twice_differs_on_backslash :
  (exists once twice : str,
      @BookRegistry.splice ascii_runtime
        (fst (BookRegistry.generate_book_html [Spec.backslash_book]))
        (snd (BookRegistry.generate_book_html [Spec.backslash_book]))
        Spec.legacy_page = Some once /\
      @BookRegistry.splice ascii_runtime
        (fst (BookRegistry.generate_book_html [Spec.backslash_book]))
        (snd (BookRegistry.generate_book_html [Spec.backslash_book]))
        once = Some twice /\
      once <> twice) /\
  @BookRegistry.splice ascii_runtime
    (fst (BookRegistry.generate_book_html [Spec.bad_escape_book]))
    (snd (BookRegistry.generate_book_html [Spec.bad_escape_book]))
    Spec.legacy_page = None /\
  @BookRegistry.splice ascii_runtime
    (fst (BookRegistry.generate_book_html [Spec.bad_escape_book]))
    (snd (BookRegistry.generate_book_html [Spec.bad_escape_book]))
    Spec.unmarked_page = None.
Proof.
  split; [|split; vm_compute; reflexivity].
  eexists. eexists.
  split; [vm_compute; reflexivity|].
  split; [vm_compute; reflexivity|].
  intros H. apply (f_equal (@length char)) in H. vm_compute in H.
  discriminate.
Qed.
(* ================================================================== *)
(** * A page in which no pattern matches *)
(* ================================================================== *)

Section Unmatched.

Import BookRegistry.
Context {RT : Runtime}.
Variable BOOKS_FILE REGISTRY_HTML io_error : str.

(** C2.  The code does not do what the claim says.  For a page in which
    the first pattern matches at no offset, the simple pattern matches at
    no offset either; with at least one record read, no backslash in a
    field and a writable page, [update_book_registry] writes the page
    back as it was and returns [True], and the process ends with status
    0 after the line that reports success. *)
Theorem unmatched_document_reported_as_success
        (w : World) (text html_content : str) :
  books_txt w = Text text ->
  fst (parse_books (enumerate 1 (readlines text))) <> [] ->
  forallb Spec.plain_book
          (fst (parse_books (enumerate 1 (readlines text)))) = true ->
  registry_html w = Text html_content ->
  registry_writable w = true ->
  (forall i, match_at pattern (skipn i html_content) = None) ->
  (forall i, match_at pattern_simple (skipn i html_content) = None) /\
  result (update_book_registry BOOKS_FILE REGISTRY_HTML io_error w)
    = Returned true /\
  registry_html (final (update_book_registry BOOKS_FILE REGISTRY_HTML io_error w))
    = Text html_content /\
  exit_code BOOKS_FILE REGISTRY_HTML io_error w = 0%N /\
  In ([check_mark] ++ lit " Book registry updated successfully!")
     (stdout (main BOOKS_FILE REGISTRY_HTML io_error w)).
Proof.
  intros Hb Hne Hplain Hr Hw Hno.
  split; [intros i; apply pattern_simple_none, Hno|].
  destruct (generate_book_html_plain _ Hplain) as (_ & _ & HS & HD).
  pose proof (splice_no_match _ _ html_content HS HD Hno) as Hs.
  assert (R : result (update_book_registry BOOKS_FILE REGISTRY_HTML io_error w)
                = Returned true /\
              registry_html
                (final (update_book_registry BOOKS_FILE REGISTRY_HTML io_error w))
                = Text html_content).
  { unfold update_book_registry. rewrite Hb.
    destruct (parse_books (enumerate 1 (readlines text))) as (books & printed).
    cbn [fst] in *.
    destruct books as [|b books]; [congruence|].
    rewrite Hr.
    destruct (generate_book_html (b :: books)) as (summary_html & detail_html).
    cbn [fst snd] in Hs. rewrite Hs, Hw. split; reflexivity. }
  destruct R as (R1 & R2).
  split; [exact R1|]. split; [exact R2|].
  unfold exit_code, main. rewrite R1. cbn [result stdout exit_status].
  split; [reflexivity|].
  apply in_or_app. right. left. reflexivity.
Qed.

End Unmatched.

Lemma unmatched_document_reported_as_success_witness :
  BookRegistry.result
    (@BookRegistry.update_book_registry ascii_runtime
       (lit "books.txt") (lit "book-registry.html") (lit "error")
       Spec.unmarked_world) = Returned true /\
  @BookRegistry.exit_code ascii_runtime
    (lit "books.txt") (lit "book-registry.html") (lit "error")
    Spec.unmarked_world = 0%N /\
  BookRegistry.registry_html
    (BookRegistry.final
       (@BookRegistry.update_book_registry ascii_runtime
          (lit "books.txt") (lit "book-registry.html") (lit "error")
          Spec.unmarked_world)) = BookRegistry.Text Spec.unmarked_page.
Proof.
  assert (Hno : forall i,
             match_at BookRegistry.pattern (skipn i Spec.unmarked_page) = None).
  { assert (H : forallb
                  (fun i => match match_at BookRegistry.pattern
                                    (skipn i Spec.unmarked_page) with
                            | None => true
                            | Some _ => false
                            end)
                  (seq 0 (Datatypes.S (length Spec.unmarked_page))) = true)
      by (vm_compute; reflexivity).
    intros i.
    destruct (Nat.le_gt_cases i (length Spec.unmarked_page)) as [Hi|Hi].
    - rewrite forallb_forall in H. specialize (H i).
      destruct (match_at BookRegistry.pattern (skipn i Spec.unmarked_page));
        [|reflexivity].
      discriminate H. apply in_seq. lia.
    - rewrite skipn_all2 by lia.
      rewrite forallb_forall in H.
      specialize (H (length Spec.unmarked_page)).
      rewrite skipn_all in H.
      destruct (match_at BookRegistry.pattern []); [|reflexivity].
      discriminate H. apply in_seq. lia. }
  destruct (@unmatched_document_reported_as_success ascii_runtime
              (lit "books.txt") (lit "book-registry.html") (lit "error")
              Spec.unmarked_world (Spec.example_line ++ [nl])
              Spec.unmarked_page
              eq_refl
              ltac:(vm_compute; discriminate)
              ltac:(vm_compute; reflexivity)
              eq_refl eq_refl Hno)
    as (_ & R1 & R2 & R3 & _).
  repeat split; assumption.
Defined.
(* ================================================================== *)
(** * More on the lines of the books file *)
(* ================================================================== *)

Section Strip.

Variable p : char -> bool.

Lemma lstrip_of_pad (ws s : str) :
  forallb p ws = true -> lstrip_of p (ws ++ s) = lstrip_of p s.
Proof.
  induction ws as [|c ws IH]; intros H; [reflexivity|].
  cbn [forallb] in H. apply andb_true_iff in H as [Hc H].
  cbn [app lstrip_of]. rewrite Hc. now apply IH.
Qed.

Lemma lstrip_of_all (s : str) : forallb p s = true -> lstrip_of p s = [].
Proof.
  intros H. rewrite <- (app_nil_r s). now rewrite lstrip_of_pad.
Qed.

Lemma forallb_rev (s : str) : forallb p (rev s) = forallb p s.
Proof.
  induction s as [|c s IH]; [reflexivity|].
  cbn [rev forallb]. rewrite forallb_app, IH. cbn [forallb].
  rewrite andb_true_r. apply andb_comm.
Qed.

Lemma rstrip_of_pad (s ws : str) :
  forallb p ws = true -> rstrip_of p (s ++ ws) = rstrip_of p s.
Proof.
  intros H. unfold rstrip_of. rewrite rev_app_distr.
  rewrite lstrip_of_pad; [reflexivity|]. now rewrite forallb_rev.
Qed.

Lemma rstrip_of_all (s : str) : forallb p s = true -> rstrip_of p s = [].
Proof.
  intros H. unfold rstrip_of. rewrite lstrip_of_all; [reflexivity|].
  now rewrite forallb_rev.
Qed.

(** Characters of the set at both ends do not change what [strip]
    returns. *)
Lemma strip_of_pad (ws s ws' : str) :
  forallb p ws = true -> forallb p ws' = true ->
  strip_of p (ws ++ s ++ ws') = strip_of p s.
Proof.
  intros H H'. unfold strip_of. rewrite lstrip_of_pad by exact H.
  destruct (lstrip_of_suffix p s) as (pre & E & Hpre).
  pose proof (lstrip_of_no_leading p s) as Hl.
  destruct (lstrip_of p s) as [|c t] eqn:El.
  - rewrite app_nil_r in E. subst pre.
    rewrite lstrip_of_all by (rewrite forallb_app, Hpre, H'; reflexivity).
    reflexivity.
  - rewrite E at 1. rewrite <- app_assoc, lstrip_of_pad by exact Hpre.
    cbn [app lstrip_of]. rewrite Hl.
    change (c :: t ++ ws') with ((c :: t) ++ ws').
    now apply rstrip_of_pad.
Qed.

End Strip.

Section StripFix.

Lemma no_leading_fix (s : str) :
  Spec.no_leading_space s = true -> lstrip_of is_space s = s.
Proof.
  intros H. apply lstrip_of_fix. destruct s as [|c s]; [exact I|].
  cbn in H. now apply negb_true_iff in H.
Qed.

(** A text with no white space at its ends is what [strip] returns
    for it. *)
Lemma strip_fix (s : str) : Spec.trimmed s = true -> strip s = s.
Proof.
  unfold Spec.trimmed, Spec.no_trailing_space. intros H.
  apply andb_true_iff in H as [H1 H2].
  unfold strip, strip_of, rstrip_of.
  rewrite (no_leading_fix s H1), (no_leading_fix (rev s) H2).
  apply rev_involutive.
Qed.

End StripFix.

Section Lines.

Import BookRegistry.

(** X1.  White space before and after a line, the line terminator
    included, changes neither the record [parse_book_line] returns nor
    what it prints. *)
Theorem parse_book_line_ignores_padding (ws line ws' : str) :
  forallb is_space ws = true -> forallb is_space ws' = true ->
  parse_book_line (ws ++ line ++ ws') = parse_book_line line.
Proof.
  intros H H'.
  rewrite (parse_book_line_unfold (ws ++ line ++ ws')),
          (parse_book_line_unfold line).
  unfold Spec.segments, strip.
  now rewrite (strip_of_pad is_space ws line ws' H H').
Qed.

Lemma parse_book_line_ignores_padding_witness :
  forallb is_space (lit "  ") = true /\ forallb is_space [nl] = true /\
  parse_book_line (lit "  " ++ Spec.example_line ++ [nl]) =
  parse_book_line Spec.example_line.
Proof.
  split; [reflexivity|]. split; [reflexivity|].
  apply (parse_book_line_ignores_padding (lit "  ") Spec.example_line [nl]);
    reflexivity.
Defined.

Lemma parse_books_cons (n : nat) (line : str) (rest : list (nat * str)) :
  parse_books ((n, line) :: rest) =
  if Spec.skipped line then parse_books rest
  else (match fst (parse_book_line line) with
        | Some book => [book]
        | None => []
        end ++ fst (parse_books rest),
        snd (parse_book_line line) ++ snd (parse_books rest)).
Proof.
  cbn [parse_books]. unfold Spec.skipped.
  destruct (parse_books rest) as (books, printed).
  destruct (strip line) as [|c l]; [reflexivity|].
  destruct (startswith (lit "#") (c :: l)); [reflexivity|].
  destruct (parse_book_line line) as ([book|], out); reflexivity.
Qed.

(** X2.  The loop over the lines sees a line only through its trimmed
    text: two files whose lines have the same trimmed texts give the
    same records and the same warnings. *)
Theorem parse_books_by_trimmed_lines (n m : nat) (lines lines' : list str) :
  map strip lines = map strip lines' ->
  parse_books (enumerate n lines) = parse_books (enumerate m lines').
Proof.
  revert n m lines'.
  induction lines as [|l lines IH]; intros n m [|l' lines'] H;
    try discriminate; [reflexivity|].
  cbn [map] in H. injection H as Hl H.
  cbn [enumerate]. rewrite !parse_books_cons.
  rewrite (IH (S n) (S m) lines' H).
  unfold Spec.skipped. rewrite Hl.
  rewrite (parse_book_line_unfold l), (parse_book_line_unfold l').
  unfold Spec.segments. now rewrite Hl.
Qed.

Lemma parse_books_by_trimmed_lines_witness :
  map strip (readlines (Spec.example_line ++ [nl])) =
  map strip (readlines (lit "   " ++ Spec.example_line)) /\
  parse_books (enumerate 1 (readlines (Spec.example_line ++ [nl]))) =
  parse_books (enumerate 1 (readlines (lit "   " ++ Spec.example_line))).
Proof.
  split; [vm_compute; reflexivity|].
  apply (parse_books_by_trimmed_lines 1 1
           (readlines (Spec.example_line ++ [nl]))
           (readlines (lit "   " ++ Spec.example_line))).
  vm_compute. reflexivity.
Defined.

(** X3.  The records and the warnings of a file are those of its first
    lines followed by those of the lines after them: the records come in
    the order of the lines, and no line changes what another one
    gives. *)
Theorem parse_books_app (numbered numbered' : list (nat * str)) :
  parse_books (numbered ++ numbered') =
  (fst (parse_books numbered) ++ fst (parse_books numbered'),
   snd (parse_books numbered) ++ snd (parse_books numbered')).
Proof.
  induction numbered as [|(n, line) numbered IH].
  - cbn [app parse_books fst snd]. now destruct (parse_books numbered').
  - cbn [app]. rewrite !parse_books_cons, IH.
    destruct (Spec.skipped line); [reflexivity|].
    cbn [fst snd]. now rewrite !app_assoc.
Qed.

(** X4.  Every line is accounted for once: the loop returns one record
    for each line that is read and has five segments or more, prints two
    lines for each line that is read and has fewer, and nothing for a
    blank line or a comment. *)
Theorem parse_books_counts (numbered : list (nat * str)) :
  length (fst (parse_books numbered)) =
    length (filter Spec.well_formed (map snd numbered)) /\
  length (snd (parse_books numbered)) =
    2 * length (filter Spec.malformed (map snd numbered)) /\
  length (filter Spec.well_formed (map snd numbered))
  + length (filter Spec.malformed (map snd numbered))
  + length (filter Spec.skipped (map snd numbered)) = length numbered.
Proof.
  induction numbered as [|(n, line) numbered (IH1 & IH2 & IH3)];
    [repeat split|].
  rewrite parse_books_cons. cbn [map snd filter].
  change (Spec.well_formed line)
    with (negb (Spec.skipped line) && (5 <=? length (Spec.segments line))).
  change (Spec.malformed line)
    with (negb (Spec.skipped line) && (length (Spec.segments line) <? 5)).
  destruct (Spec.skipped line) eqn:Es; cbn [negb andb].
  - cbn [length]. repeat split; [exact IH1|exact IH2|lia].
  - rewrite (parse_book_line_unfold line).
    unfold Spec.skipped in Es.
    destruct (strip line) as [|c l] eqn:El; [discriminate|].
    rewrite Nat.leb_antisym.
    destruct (length (Spec.segments line) <? 5); cbn [negb fst snd app length].
    + repeat split; [exact IH1|lia|lia].
    + repeat split; [now rewrite IH1|exact IH2|lia].
Qed.

End Lines.
(* ================================================================== *)
(** * A line written from a record, read back *)
(* ================================================================== *)

Section RoundTrip.

Import BookRegistry.

Lemma DELIM_nonempty : DELIM <> [].
Proof. discriminate. Qed.

(** No delimiter starts inside a field that holds no space followed by
    a hyphen, also when a delimiter comes after the field. *)
Lemma field_then_delim (x rest cur : str) :
  Spec.has_space_hyphen x = false ->
  split_from DELIM 0 cur (x ++ DELIM ++ rest) =
  (rev cur ++ x) :: split_from DELIM 0 [] rest.
Proof.
  revert cur; induction x as [|c x IH]; intros cur H.
  - cbn [app]. rewrite (split_from_hit DELIM DELIM_nonempty)
      by apply startswith_app.
    now rewrite app_nil_r.
  - cbn [Spec.has_space_hyphen] in H. apply orb_false_iff in H as [Hc H].
    cbn [app]. rewrite split_from_miss.
    + rewrite (IH (c :: cur) H). cbn [rev]. now rewrite <- app_assoc.
    + unfold DELIM. change (lit " - ") with [ch " "; ch "-"; ch " "].
      cbn [startswith].
      destruct (ch " " =? c)%N eqn:E; [|reflexivity].
      apply N.eqb_eq in E. subst c. rewrite N.eqb_refl in Hc.
      destruct x as [|d x]; [reflexivity|].
      cbn [app andb] in *. rewrite N.eqb_sym, Hc. reflexivity.
Qed.

Lemma split_field (x rest : str) :
  Spec.has_space_hyphen x = false ->
  split DELIM (x ++ DELIM ++ rest) = x :: split DELIM rest.
Proof. intros H. unfold split. now rewrite field_then_delim. Qed.

Lemma field_ok_parts (x : str) :
  Spec.field_ok x = true ->
  x <> [] /\ Spec.trimmed x = true /\ Spec.has_space_hyphen x = false.
Proof.
  unfold Spec.field_ok. intros H.
  apply andb_true_iff in H as [H H3]. apply andb_true_iff in H as [H1 H2].
  repeat split; [now destruct x|exact H2|now apply negb_true_iff].
Qed.

Lemma map_strip_trimmed (l : list str) :
  forallb Spec.trimmed l = true -> map strip l = l.
Proof.
  induction l as [|x l IH]; [reflexivity|].
  cbn [forallb map]. intros H. apply andb_true_iff in H as [Hx H].
  now rewrite (strip_fix x Hx), IH.
Qed.

(** X5.  A line written in the documented format from a record is read
    back as that record, with nothing printed: the first four fields
    have to be non-empty, without white space at their ends and without
    a space followed by a hyphen; the description has to be non-empty
    and not to end with white space, and each of the pieces the
    delimiters cut it into has to be without white space at its ends
    (so a description that starts with white space is read back as it
    is only when it starts with a delimiter). *)
Theorem parse_book_line_of_book_line (b : Book) :
  Spec.field_ok (rating b) = true ->
  Spec.field_ok (date_read b) = true ->
  Spec.field_ok (title b) = true ->
  Spec.field_ok (author b) = true ->
  Spec.description_ok (description b) = true ->
  parse_book_line (Spec.book_line b) = (Some b, []).
Proof.
  destruct b as [r d t a x]. cbn [rating date_read title author description].
  intros Hr Hd Ht Ha Hx.
  apply field_ok_parts in Hr as (Nr & Tr & Sr).
  apply field_ok_parts in Hd as (Nd & Td & Sd).
  apply field_ok_parts in Ht as (Nt & Tt & St).
  apply field_ok_parts in Ha as (Na & Ta & Sa).
  unfold Spec.description_ok in Hx.
  apply andb_true_iff in Hx as [Hx Sx]. apply andb_true_iff in Hx as [Nx Tx].
  assert (Nx' : x <> []) by (now destruct x).
  assert (E : Spec.book_line {| rating := r; date_read := d; title := t;
                                author := a; description := x |} =
              r ++ DELIM ++ d ++ DELIM ++ t ++ DELIM ++ a ++ DELIM ++ x)
    by reflexivity.
  rewrite E.
  assert (Hs : strip (r ++ DELIM ++ d ++ DELIM ++ t ++ DELIM ++ a ++ DELIM ++ x)
               = r ++ DELIM ++ d ++ DELIM ++ t ++ DELIM ++ a ++ DELIM ++ x).
  { apply strip_fix. unfold Spec.trimmed. apply andb_true_iff. split.
    - rewrite no_leading_app by exact Nr.
      unfold Spec.trimmed in Tr. now apply andb_true_iff in Tr as [Tr _].
    - rewrite !app_assoc. rewrite no_trailing_app by exact Nx'. exact Tx. }
  assert (Hg : Spec.segments
                 (r ++ DELIM ++ d ++ DELIM ++ t ++ DELIM ++ a ++ DELIM ++ x)
               = r :: d :: t :: a :: split DELIM x).
  { unfold Spec.segments. rewrite Hs.
    now rewrite !split_field by assumption. }
  rewrite parse_book_line_unfold, Hs, Hg.
  destruct (r ++ DELIM ++ d ++ DELIM ++ t ++ DELIM ++ a ++ DELIM ++ x) eqn:El.
  { destruct r; [congruence|discriminate]. }
  assert (Hlen : (length (r :: d :: t :: a :: split DELIM x) <? 5) = false).
  { apply Nat.ltb_ge. cbn [length].
    pose proof (split_from_nonempty DELIM 0 [] x) as Hn. unfold split.
    destruct (split_from DELIM 0 [] x); [congruence|cbn [length]; lia]. }
  rewrite Hlen. cbn [nth skipn].
  rewrite (strip_fix r Tr), (strip_fix d Td), (strip_fix t Tt), (strip_fix a Ta).
  rewrite (map_strip_trimmed _ Sx), (join_split DELIM DELIM_nonempty).
  reflexivity.
Qed.

End RoundTrip.

Lemma parse_book_line_of_book_line_witness :
  Spec.book_line Spec.example_book = Spec.example_line /\
  BookRegistry.parse_book_line (Spec.book_line Spec.example_book) =
  (Some Spec.example_book, []).
Proof.
  split; [reflexivity|].
  apply (parse_book_line_of_book_line Spec.example_book); reflexivity.
Defined.
(* ================================================================== *)
(** * More on the two fragments *)
(* ================================================================== *)

Section Fragments2.

Import BookRegistry.

Lemma join_app (sep : str) (l l' : list str) :
  l <> [] -> l' <> [] ->
  join sep (l ++ l') = join sep l ++ sep ++ join sep l'.
Proof.
  induction l as [|x l IH]; intros H H'; [congruence|].
  destruct l as [|y l].
  - cbn [app]. now rewrite join_cons.
  - change ((x :: y :: l) ++ l') with (x :: ((y :: l) ++ l')).
    rewrite join_cons by discriminate.
    rewrite IH by (discriminate || exact H').
    rewrite (join_cons sep x (y :: l)) by discriminate.
    now rewrite <- !app_assoc.
Qed.

(** X6.  The fragments of a list of records made of two lists are the
    fragments of the two lists with a line feed between them: an entry
    does not depend on the records around it. *)
Theorem generate_book_html_app (books books' : list Book) :
  books <> [] -> books' <> [] ->
  generate_book_html (books ++ books') =
  (fst (generate_book_html books) ++ [nl] ++ fst (generate_book_html books'),
   snd (generate_book_html books) ++ [nl] ++ snd (generate_book_html books')).
Proof.
  intros H H'.
  destruct books as [|b books]; [congruence|].
  destruct books' as [|b' books']; [congruence|].
  cbn [app]. cbn [generate_book_html fst snd].
  change (b :: books ++ b' :: books') with ((b :: books) ++ (b' :: books')).
  rewrite !map_app.
  rewrite !join_app by discriminate. reflexivity.
Qed.

Lemma generate_book_html_app_witness :
  [Spec.example_book] <> [] /\ [Spec.backslash_book] <> [] /\
  generate_book_html ([Spec.example_book] ++ [Spec.backslash_book]) =
  (fst (generate_book_html [Spec.example_book]) ++ [nl]
     ++ fst (generate_book_html [Spec.backslash_book]),
   snd (generate_book_html [Spec.example_book]) ++ [nl]
     ++ snd (generate_book_html [Spec.backslash_book])).
Proof.
  split; [discriminate|]. split; [discriminate|].
  apply (generate_book_html_app [Spec.example_book] [Spec.backslash_book]);
    discriminate.
Defined.

Lemma count_app (c : char) (s t : str) :
  Spec.count c (s ++ t) = Spec.count c s + Spec.count c t.
Proof. apply count_occ_app. Qed.

Lemma count_escape (c : char) (s : str) :
  Spec.is_markup c = true -> Spec.count c (html_escape s) = 0.
Proof.
  intros H. apply count_occ_not_In. intros Hin.
  pose proof (html_escape_no_markup s) as Hn.
  rewrite forallb_forall in Hn. specialize (Hn c Hin).
  now rewrite H in Hn.
Qed.

Lemma count_summary_item (c : char) (b : Book) :
  Spec.is_markup c = true ->
  Spec.count c (summary_item b) =
  Spec.count c (lit "<li><strong></strong></li>").
Proof.
  intros H. unfold summary_item, format_date. cbv zeta.
  rewrite !count_app, !(count_escape c _ H).
  unfold Spec.is_markup in H.
  repeat (apply orb_true_iff in H as [H|H]);
    apply N.eqb_eq in H; subst c; vm_compute; reflexivity.
Qed.

Lemma count_detail_item (c : char) (b : Book) :
  Spec.is_markup c = true ->
  Spec.count c (detail_item b) =
  Spec.count c (qlit "<li><span class='book-title-author'><strong></strong></span><div class='book-description'></div></li>").
Proof.
  intros H. unfold detail_item. cbv zeta.
  rewrite !count_app, !(count_escape c _ H).
  unfold Spec.is_markup in H.
  repeat (apply orb_true_iff in H as [H|H]);
    apply N.eqb_eq in H; subst c; vm_compute; reflexivity.
Qed.

Lemma count_join_lines (c : char) (k : nat) (item : Book -> str)
      (books : list Book) :
  Spec.count c [nl] = 0 ->
  (forall b, Spec.count c (item b) = k) ->
  Spec.count c (join [nl] (map item books)) = length books * k.
Proof.
  intros Hnl Hitem. induction books as [|b books IH]; [reflexivity|].
  destruct books as [|b' books].
  - cbn [map join length]. rewrite Hitem. lia.
  - change (map item (b :: b' :: books))
      with (item b :: map item (b' :: books)).
    rewrite join_cons by discriminate.
    rewrite !count_app, Hnl, Hitem, IH. cbn [length]. lia.
Qed.

(** X7.  No field adds markup to a fragment: whatever the records hold,
    the summary list has four opening and four closing angle brackets
    for each record and no quote, and the details list sixteen angle
    brackets and the four double quotes of its two attributes for each
    record, and no apostrophe. *)
Theorem fragments_markup_is_fixed (books : list Book) :
  let summary_html := fst (generate_book_html books) in
  let detail_html := snd (generate_book_html books) in
  Spec.count (ch "<") summary_html = length books * 4 /\
  Spec.count (ch ">") summary_html = length books * 4 /\
  Spec.count dq summary_html = 0 /\
  Spec.count (ch "'") summary_html = 0 /\
  Spec.count (ch "<") detail_html = length books * 8 /\
  Spec.count (ch ">") detail_html = length books * 8 /\
  Spec.count dq detail_html = length books * 4 /\
  Spec.count (ch "'") detail_html = 0.
Proof.
  cbv zeta.
  assert (S : forall c k, Spec.is_markup c = true ->
                Spec.count c (lit "<li><strong></strong></li>") = k ->
                Spec.count c (fst (generate_book_html books)) = length books * k).
  { intros c k Hc Hk. destruct books as [|b books]; [reflexivity|].
    cbn [generate_book_html fst].
    apply count_join_lines.
    - unfold Spec.is_markup in Hc.
      repeat (apply orb_true_iff in Hc as [Hc|Hc]);
        apply N.eqb_eq in Hc; subst c; reflexivity.
    - intros b0. now rewrite count_summary_item. }
  assert (D : forall c k, Spec.is_markup c = true ->
                Spec.count c (qlit "<li><span class='book-title-author'><strong></strong></span><div class='book-description'></div></li>") = k ->
                Spec.count c (snd (generate_book_html books)) = length books * k).
  { intros c k Hc Hk. destruct books as [|b books]; [reflexivity|].
    cbn [generate_book_html snd].
    apply count_join_lines.
    - unfold Spec.is_markup in Hc.
      repeat (apply orb_true_iff in Hc as [Hc|Hc]);
        apply N.eqb_eq in Hc; subst c; reflexivity.
    - intros b0. now rewrite count_detail_item. }
  repeat split.
  - apply S; reflexivity.
  - apply S; reflexivity.
  - rewrite (S dq 0); [lia|reflexivity|reflexivity].
  - rewrite (S (ch "'") 0); [lia|reflexivity|reflexivity].
  - apply D; reflexivity.
  - apply D; reflexivity.
  - apply D; reflexivity.
  - rewrite (D (ch "'") 0); [lia|reflexivity|reflexivity].
Qed.



End Fragments2.
(* ================================================================== *)
(** * More on a run of the registry script *)
(* ================================================================== *)

Section RegistryRun.

Import BookRegistry.
Context {RT : Runtime}.
Variable BOOKS_FILE REGISTRY_HTML io_error : str.

Local Abbreviation update := (update_book_registry BOOKS_FILE REGISTRY_HTML io_error).
Local Abbreviation script := (main BOOKS_FILE REGISTRY_HTML io_error).
Local Abbreviation status := (exit_code BOOKS_FILE REGISTRY_HTML io_error).

(** The cases of [update_book_registry], taken apart. *)
Ltac update_cases w :=
  unfold update_book_registry;
  destruct (books_txt w) as [| |text] eqn:Eb;
    [| |destruct (parse_books (enumerate 1 (readlines text)))
          as ([|book books], printed) eqn:Ep;
        [|destruct (registry_html w) as [| |html_content] eqn:Er;
          [| |destruct (generate_book_html (book :: books))
                as (summary_html, detail_html) eqn:Eg;
              destruct (splice summary_html detail_html html_content)
                as [new_html|] eqn:Es;
              [destruct (registry_writable w) eqn:Ew|]]]];
  cbn [result stdout final].

(** What [update_book_registry] comes to once the records and the page
    are read. *)
Lemma update_at_page (w : World) (text html_content : str)
      (book : Book) (books : list Book) (printed : list str) :
  books_txt w = Text text ->
  parse_books (enumerate 1 (readlines text)) = (book :: books, printed) ->
  registry_html w = Text html_content ->
  update w =
  let count := str_of_N (N.of_nat (length (book :: books))) in
  let printed := printed ++ [lit "Found " ++ count ++ lit " book(s)"] in
  match splice (fst (generate_book_html (book :: books)))
               (snd (generate_book_html (book :: books))) html_content with
  | None => {| result := Uncaught; stdout := printed; final := w |}
  | Some new_html =>
      if registry_writable w then
        {| result := Returned true;
           stdout := printed ++
             [[check_mark] ++ lit " Updated " ++ REGISTRY_HTML_name
              ++ lit " with " ++ count ++ lit " book(s)"];
           final := {| books_txt := books_txt w;
                       registry_html := Text new_html;
                       registry_writable := registry_writable w;
                       registry_failure := registry_failure w |} |}
      else
        {| result := Returned false;
           stdout := printed ++
             [lit "Error writing book-registry.html: " ++ io_error];
           final := after_failure w new_html |}
  end.
Proof.
  intros Hb Hp Hr. unfold update_book_registry. rewrite Hb, Hp, Hr.
  now destruct (generate_book_html (book :: books)).
Qed.

Lemma after_failure_books (w : World) (new_html : str) :
  books_txt (after_failure w new_html) = books_txt w.
Proof. unfold after_failure. now destruct (registry_failure w). Qed.

(** X8.  A run never changes the books file, and it changes the page
    only in the block that writes it: when the files are not as they
    were, the records were read, the page was read and the substitution
    returned, and the page holds what the substitution returned or what
    a write that failed left of it.  [main] writes nothing of its
    own. *)
Theorem update_changes_page_only_in_write_block (w : World) :
  books_txt (final (update w)) = books_txt w /\
  (final (update w) <> w ->
   exists (text html_content new_html : str),
     books_txt w = Text text /\
     fst (parse_books (enumerate 1 (readlines text))) <> [] /\
     registry_html w = Text html_content /\
     splice (fst (generate_book_html
                    (fst (parse_books (enumerate 1 (readlines text))))))
            (snd (generate_book_html
                    (fst (parse_books (enumerate 1 (readlines text))))))
            html_content = Some new_html /\
     (registry_html (final (update w)) = Text new_html \/
      exists kept, registry_failure w = WriteRaised kept /\
                   registry_html (final (update w)) = Text kept)) /\
  final (script w) = final (update w).
Proof.
  split; [|split].
  - update_cases w; cbn [books_txt]; try congruence.
    now rewrite after_failure_books.
  - update_cases w; intros H; try congruence;
      exists text, html_content, new_html; rewrite Ep; cbn [fst];
      rewrite Eg; cbn [fst snd];
      (split; [reflexivity|]); (split; [discriminate|]);
      (split; [reflexivity|]); (split; [exact Es|]).
    + left. reflexivity.
    + unfold after_failure in *.
      destruct (registry_failure w) as [|kept|] eqn:Ef.
      * congruence.
      * right. exists kept. split; reflexivity.
      * left. reflexivity.
  - unfold main. destruct (result (update w)) as [[|]|]; reflexivity.
Qed.

(** X9.  The line of success is printed inside the block that writes
    the page: when the page is written and that [print] raises, the
    handler reports an error of writing, [update_book_registry] returns
    [False] and the process ends with status 1, while the page already
    holds what the substitution returned. *)
Theorem failed_print_leaves_page_rewritten
        (w : World) (text html_content new_html : str) :
  books_txt w = Text text ->
  fst (parse_books (enumerate 1 (readlines text))) <> [] ->
  registry_html w = Text html_content ->
  splice (fst (generate_book_html
                 (fst (parse_books (enumerate 1 (readlines text))))))
         (snd (generate_book_html
                 (fst (parse_books (enumerate 1 (readlines text))))))
         html_content = Some new_html ->
  registry_writable w = false ->
  registry_failure w = PrintRaised ->
  result (update w) = Returned false /\
  last (stdout (update w)) [] =
    lit "Error writing book-registry.html: " ++ io_error /\
  registry_html (final (update w)) = Text new_html /\
  status w = 1%N.
Proof.
  intros Hb Hne Hr Hs Hw Hf.
  destruct (parse_books (enumerate 1 (readlines text)))
    as ([|book books], printed) eqn:Ep; cbn [fst] in *; [congruence|].
  assert (E := update_at_page w text html_content book books printed Hb Ep Hr).
  cbv zeta in E. rewrite Hs, Hw in E.
  unfold exit_code, main. rewrite E. cbn [result stdout final exit_status].
  repeat split.
  - apply last_last.
  - unfold after_failure. now rewrite Hf.
Qed.

(** The process ends with status 0 exactly when
    [update_book_registry] returned [True], and with status 1 after any
    other outcome; when [update_book_registry] returned, the last line
    printed is the line of success or the line of failure, as the status
    says. *)
Lemma exit_code_by_result (w : World) :
  (status w = 0%N <-> result (update w) = Returned true) /\
  (status w = 1%N <-> result (update w) <> Returned true) /\
  (result (update w) = Returned true ->
   last (stdout (script w)) [] =
   [check_mark] ++ lit " Book registry updated successfully!") /\
  (result (update w) = Returned false ->
   last (stdout (script w)) [] =
   [ballot_x] ++ lit " Failed to update book registry").
Proof.
  unfold exit_code, main.
  destruct (result (update w)) as [[|]|] eqn:E;
    cbn [result stdout exit_status].
  - repeat split; intros; try congruence; try discriminate.
    apply last_last.
  - repeat split; intros; try congruence; try discriminate.
    apply last_last.
  - repeat split; intros; try congruence; try discriminate.
Qed.

(** X10.  A books file that gives no record, because it is empty or
    because every line of it is blank, a comment or malformed, ends the
    run before the page is looked at: whatever the state of the page,
    the warning is the last line [update_book_registry] prints, it
    returns [False], nothing is written and the status is 1. *)
Theorem no_record_fails_before_page (w : World) (text : str) :
  books_txt w = Text text ->
  fst (parse_books (enumerate 1 (readlines text))) = [] ->
  result (update w) = Returned false /\
  stdout (update w) =
    snd (parse_books (enumerate 1 (readlines text)))
    ++ [lit "Warning: No books found in books.txt"] /\
  final (update w) = w /\
  status w = 1%N.
Proof.
  intros Hb Hn.
  assert (E : update w =
              {| result := Returned false;
                 stdout := snd (parse_books (enumerate 1 (readlines text)))
                           ++ [lit "Warning: No books found in books.txt"];
                 final := w |}).
  { unfold update_book_registry. rewrite Hb.
    destruct (parse_books (enumerate 1 (readlines text)))
      as (books, printed). cbn [fst snd] in *. now subst books. }
  unfold exit_code, main. rewrite E. repeat split.
Qed.

(** X25.  With records that hold no backslash, a second run right
    after a run returns and prints what the first run did, and leaves
    the files as the first run left them. *)
Theorem update_twice (w : World) :
  (forall text, books_txt w = Text text ->
     forallb Spec.plain_book
             (fst (parse_books (enumerate 1 (readlines text)))) = true) ->
  update (final (update w)) = update w.
Proof.
  intros Hplain.
  assert (Same : final (update w) = w -> update (final (update w)) = update w)
    by (now intros ->).
  destruct (books_txt w) as [| |text] eqn:Eb;
    [apply Same; unfold update_book_registry; now rewrite Eb ..|].
  destruct (parse_books (enumerate 1 (readlines text)))
    as ([|book books], printed) eqn:Ep;
    [apply Same; unfold update_book_registry; now rewrite Eb, Ep|].
  destruct (registry_html w) as [| |html_content] eqn:Er;
    [apply Same; unfold update_book_registry; now rewrite Eb, Ep, Er ..|].
  clear Same.
  specialize (Hplain text eq_refl). rewrite Ep in Hplain. cbn [fst] in Hplain.
  destruct (generate_book_html_plain _ Hplain) as (HSc & HDc & HS & HD).
  destruct (splice_plain _ _ html_content HSc HDc HS HD)
    as (new_html & Hs1 & Hs2).
  assert (E := update_at_page w text html_content book books printed Eb Ep Er).
  cbv zeta in E. rewrite Hs1 in E.
  destruct (registry_writable w) eqn:Ew; rewrite E; cbn [final].
  - match goal with
    | |- update_book_registry _ _ _ ?w' = _ =>
        rewrite (update_at_page w' text new_html book books printed Eb Ep eq_refl)
    end.
    cbv zeta. rewrite Hs2. cbn [registry_writable]. rewrite ?Ew. reflexivity.
  - unfold after_failure. destruct (registry_failure w) as [|kept|] eqn:Ef.
    + rewrite E. unfold after_failure. rewrite ?Ef. reflexivity.
    + destruct (splice_plain _ _ kept HSc HDc HS HD) as (again & Hk & _).
      match goal with
    | |- update_book_registry _ _ _ ?w' = _ =>
        rewrite (update_at_page w' text kept book books printed Eb Ep eq_refl)
    end.
      cbv zeta. rewrite Hk. cbn [registry_writable]. rewrite ?Ew.
      unfold after_failure. cbn [registry_failure]. rewrite ?Ef. reflexivity.
    + match goal with
    | |- update_book_registry _ _ _ ?w' = _ =>
        rewrite (update_at_page w' text new_html book books printed Eb Ep eq_refl)
    end.
      cbv zeta. rewrite Hs2. cbn [registry_writable]. rewrite ?Ew.
      unfold after_failure. cbn [registry_failure]. rewrite ?Ef. reflexivity.
Qed.

End RegistryRun.

Lemma no_record_fails_before_page_witness :
  let w := {| BookRegistry.books_txt :=
                BookRegistry.Text (lit "# my books" ++ [nl; nl] ++ lit "bad line" ++ [nl]);
              BookRegistry.registry_html := BookRegistry.Absent;
              BookRegistry.registry_writable := false;
              BookRegistry.registry_failure := OpenRaised |} in
  BookRegistry.result
    (@BookRegistry.update_book_registry ascii_runtime
       (lit "books.txt") (lit "book-registry.html") (lit "error") w)
    = Returned false /\
  BookRegistry.stdout
    (@BookRegistry.update_book_registry ascii_runtime
       (lit "books.txt") (lit "book-registry.html") (lit "error") w)
    = [lit "Warning: Invalid format in line: bad line";
       lit "Expected format: rating - date - title - author - description";
       lit "Warning: No books found in books.txt"] /\
  @BookRegistry.exit_code ascii_runtime
    (lit "books.txt") (lit "book-registry.html") (lit "error") w = 1%N.
Proof.
  cbv zeta.
  destruct (@no_record_fails_before_page ascii_runtime
              (lit "books.txt") (lit "book-registry.html") (lit "error")
              {| BookRegistry.books_txt :=
                   BookRegistry.Text
                     (lit "# my books" ++ [nl; nl] ++ lit "bad line" ++ [nl]);
                 BookRegistry.registry_html := BookRegistry.Absent;
                 BookRegistry.registry_writable := false;
                 BookRegistry.registry_failure := OpenRaised |}
              (lit "# my books" ++ [nl; nl] ++ lit "bad line" ++ [nl])
              eq_refl ltac:(vm_compute; reflexivity))
    as (R1 & R2 & _ & R4).
  split; [exact R1|]. split; [|exact R4].
  rewrite R2. vm_compute. reflexivity.
Defined.

Lemma update_twice_witness :
  let w := {| BookRegistry.books_txt := BookRegistry.Text (Spec.example_line ++ [nl]);
              BookRegistry.registry_html := BookRegistry.Text Spec.legacy_page;
              BookRegistry.registry_writable := true;
              BookRegistry.registry_failure := OpenRaised |} in
  BookRegistry.registry_html
    (BookRegistry.final
       (@BookRegistry.update_book_registry ascii_runtime
          (lit "books.txt") (lit "book-registry.html") (lit "error") w))
    <> BookRegistry.registry_html w /\
  @BookRegistry.update_book_registry ascii_runtime
    (lit "books.txt") (lit "book-registry.html") (lit "error")
    (BookRegistry.final
       (@BookRegistry.update_book_registry ascii_runtime
          (lit "books.txt") (lit "book-registry.html") (lit "error") w)) =
  @BookRegistry.update_book_registry ascii_runtime
    (lit "books.txt") (lit "book-registry.html") (lit "error") w.
Proof.
  cbv zeta. split.
  - vm_compute. discriminate.
  - apply (@update_twice ascii_runtime
             (lit "books.txt") (lit "book-registry.html") (lit "error")).
    intros text H. cbn [BookRegistry.books_txt] in H.
    injection H as <-. vm_compute. reflexivity.
Defined.

Section RunWitnesses.

Import BookRegistry.

Lemma update_changes_page_only_in_write_block_witness :
  exists (text html_content new_html : str),
    BookRegistry.Text (Spec.example_line ++ [nl]) = BookRegistry.Text text /\
    fst (parse_books (enumerate 1 (readlines text))) <> [] /\
    BookRegistry.Text Spec.legacy_page = BookRegistry.Text html_content /\
    @BookRegistry.splice ascii_runtime
       (fst (generate_book_html
               (fst (parse_books (enumerate 1 (readlines text))))))
       (snd (generate_book_html
               (fst (parse_books (enumerate 1 (readlines text))))))
       html_content = Some new_html /\
    (registry_html
       (final (@BookRegistry.update_book_registry ascii_runtime
                 (lit "books.txt") (lit "book-registry.html") (lit "error")
                 {| books_txt := Text (Spec.example_line ++ [nl]);
                    registry_html := Text Spec.legacy_page;
                    registry_writable := false;
                    registry_failure := WriteRaised [] |}))
     = Text new_html \/
     exists kept,
       WriteRaised [] = WriteRaised kept /\
       registry_html
         (final (@BookRegistry.update_book_registry ascii_runtime
                   (lit "books.txt") (lit "book-registry.html") (lit "error")
                   {| books_txt := Text (Spec.example_line ++ [nl]);
                      registry_html := Text Spec.legacy_page;
                      registry_writable := false;
                      registry_failure := WriteRaised [] |}))
       = Text kept).
Proof.
  apply (@update_changes_page_only_in_write_block ascii_runtime
           (lit "books.txt") (lit "book-registry.html") (lit "error")
           {| books_txt := Text (Spec.example_line ++ [nl]);
              registry_html := Text Spec.legacy_page;
              registry_writable := false;
              registry_failure := WriteRaised [] |}).
  vm_compute. discriminate.
Defined.

Lemma failed_print_leaves_page_rewritten_witness :
  let w := {| books_txt := Text (Spec.example_line ++ [nl]);
              registry_html := Text Spec.legacy_page;
              registry_writable := false;
              registry_failure := PrintRaised |} in
  result (@update_book_registry ascii_runtime
            (lit "books.txt") (lit "book-registry.html") (lit "error") w)
    = Returned false /\
  registry_html
    (final (@update_book_registry ascii_runtime
              (lit "books.txt") (lit "book-registry.html") (lit "error") w))
    <> registry_html w /\
  @exit_code ascii_runtime
    (lit "books.txt") (lit "book-registry.html") (lit "error") w = 1%N.
Proof.
  cbv zeta.
  destruct (@splice_plain ascii_runtime
              (fst (generate_book_html [Spec.example_book]))
              (snd (generate_book_html [Spec.example_book]))
              Spec.legacy_page
              ltac:(vm_compute; reflexivity) ltac:(vm_compute; reflexivity)
              ltac:(vm_compute; reflexivity) ltac:(vm_compute; reflexivity))
    as (new_html & Hs & _).
  destruct (@failed_print_leaves_page_rewritten ascii_runtime
              (lit "books.txt") (lit "book-registry.html") (lit "error")
              {| books_txt := Text (Spec.example_line ++ [nl]);
                 registry_html := Text Spec.legacy_page;
                 registry_writable := false;
                 registry_failure := PrintRaised |}
              (Spec.example_line ++ [nl]) Spec.legacy_page new_html
              eq_refl ltac:(vm_compute; discriminate) eq_refl Hs
              eq_refl eq_refl)
    as (R1 & _ & _ & R4).
  split; [exact R1|]. split; [|exact R4].
  vm_compute. discriminate.
Defined.

End RunWitnesses.
(* ================================================================== *)
(** * More on the substitution step *)
(* ================================================================== *)

Section Fallback.

Import BookRegistry.
Context {RT : Runtime}.

(** X11.  With records that hold no backslash, the second attempt never
    changes the outcome: the substitution step returns what [re.sub]
    with the first pattern returns, also when that is the page as it
    was. *)
Theorem splice_is_first_substitution
        (books : list Book) (html_content : str) :
  forallb Spec.plain_book books = true ->
  splice (fst (generate_book_html books)) (snd (generate_book_html books))
         html_content =
  Re.sub group_name_index pattern 2
         (replacement (fst (generate_book_html books))
                      (snd (generate_book_html books)) (ch "2"))
         html_content.
Proof.
  intros H.
  destruct (generate_book_html_plain books H) as (HSc & HDc & HS & HD).
  set (summary_html := fst (generate_book_html books)) in *.
  set (detail_html := snd (generate_book_html books)) in *.
  pose proof (sub_loop_again summary_html detail_html HSc HDc
                (length html_content) html_content (le_n _)) as Hf.
  cbv zeta in Hf. destruct Hf as (_ & H2 & _ & _).
  unfold splice, Re.sub.
  rewrite (template_plain 2 group_name_index (ch "2") 2 (group_reference_2 _)
             summary_html detail_html HS HD).
  rewrite (template_plain 4 group_name_index (ch "4") 4 (group_reference_4 _)
             summary_html detail_html HS HD).
  set (A := sub_loop pattern _ 0 html_content) in *.
  destruct (PyStr.eqb A html_content) eqn:E; [|reflexivity].
  apply eqb_eq in E. rewrite <- E. now rewrite H2.
Qed.

(** X12.  Whatever the fragments are, a page in which the first pattern
    matches at no offset is returned as it is when the substitution
    step returns: the simple pattern finds nothing there either. *)
Theorem splice_without_region_keeps_page
        (summary_html detail_html html_content new_html : str) :
  (forall i, match_at pattern (skipn i html_content) = None) ->
  splice summary_html detail_html html_content = Some new_html ->
  new_html = html_content.
Proof.
  intros Hno. unfold splice, Re.sub.
  destruct (parse_template 2 group_name_index
              (replacement summary_html detail_html (ch "2"))) as [tpl|];
    [|discriminate].
  rewrite (sub_loop_no_match pattern tpl html_content Hno), eqb_refl.
  destruct (parse_template 4 group_name_index
              (replacement summary_html detail_html (ch "4"))) as [tpl'|];
    [|discriminate].
  rewrite sub_loop_no_match; [congruence|].
  intros i. apply pattern_simple_none, Hno.
Qed.

End Fallback.

Lemma splice_is_first_substitution_witness :
  forallb Spec.plain_book [Spec.example_book] = true /\
  @BookRegistry.splice ascii_runtime
    (fst (BookRegistry.generate_book_html [Spec.example_book]))
    (snd (BookRegistry.generate_book_html [Spec.example_book]))
    Spec.legacy_page =
  Re.sub (@group_name_index ascii_runtime) BookRegistry.pattern 2
    (BookRegistry.replacement
       (fst (BookRegistry.generate_book_html [Spec.example_book]))
       (snd (BookRegistry.generate_book_html [Spec.example_book])) (ch "2"))
    Spec.legacy_page.
Proof.
  split; [reflexivity|].
  apply (@splice_is_first_substitution ascii_runtime
           [Spec.example_book] Spec.legacy_page).
  reflexivity.
Defined.

Lemma unmarked_page_has_no_region (i : nat) :
  match_at BookRegistry.pattern (skipn i Spec.unmarked_page) = None.
Proof.
  assert (H : forallb
                (fun i => match match_at BookRegistry.pattern
                                  (skipn i Spec.unmarked_page) with
                          | None => true
                          | Some _ => false
                          end)
                (seq 0 (Datatypes.S (length Spec.unmarked_page))) = true)
    by (vm_compute; reflexivity).
  rewrite forallb_forall in H.
  destruct (Nat.le_gt_cases i (length Spec.unmarked_page)) as [Hi|Hi].
  - specialize (H i).
    destruct (match_at BookRegistry.pattern (skipn i Spec.unmarked_page));
      [|reflexivity].
    discriminate H. apply in_seq. lia.
  - rewrite skipn_all2 by lia.
    specialize (H (length Spec.unmarked_page)).
    rewrite skipn_all in H.
    destruct (match_at BookRegistry.pattern []); [|reflexivity].
    discriminate H. apply in_seq. lia.
Defined.

Lemma splice_without_region_keeps_page_witness :
  @BookRegistry.splice ascii_runtime (lit "S") (bs :: lit "1")
    Spec.unmarked_page = Some Spec.unmarked_page /\
  Spec.unmarked_page = Spec.unmarked_page.
Proof.
  split; [vm_compute; reflexivity|].
  apply (@splice_without_region_keeps_page ascii_runtime
           (lit "S") (bs :: lit "1") Spec.unmarked_page Spec.unmarked_page
           unmarked_page_has_no_region).
  vm_compute. reflexivity.
Defined.
(* ================================================================== *)
(** * More on the dates of the converter *)
(* ================================================================== *)

Section DatesAgain.

Context {RT : Runtime}.
Import MdToHtml.

Lemma month_name_head (m : N) :
  (1 <= m <= 12)%N ->
  exists c t, month_name m = c :: t /\ is_ascii_upper c = true.
Proof.
  intros H. unfold month_name.
  assert (Hk : 1 <= N.to_nat m <= 12) by lia.
  destruct (N.to_nat m) as [|k]; [lia|].
  do 12 (destruct k as [|k];
         [cbn [Nat.sub nth]; eexists; eexists; split; reflexivity|]).
  lia.
Qed.

Lemma upper_not_decimal (c : char) :
  is_ascii_upper c = true -> decimal_value c = None.
Proof.
  unfold is_ascii_upper, decimal_value, is_ascii_digit, is_ascii, in_range.
  intros H. apply andb_true_iff in H as [H1 H2].
  apply N.leb_le in H1. apply N.leb_le in H2.
  assert (E1 : ((48 <=? c) && (c <=? 57))%N = false).
  { apply andb_false_iff. right. apply N.leb_gt. lia. }
  assert (E2 : (c <? 128)%N = true) by (apply N.ltb_lt; lia).
  now rewrite E1, E2.
Qed.

(** What [strftime] writes starts with the name of a month, and
    [strptime] does not take it for a date. *)
Lemma strftime_not_parsed (y m d : N) :
  (1 <= m <= 12)%N -> strptime (strftime y m d) = None.
Proof.
  intros Hm.
  destruct (strptime (strftime y m d)) as [[[y' m'] d']|] eqn:E;
    [|reflexivity].
  apply strptime_accepted in E as (Y & M & D & Es & HY & _).
  destruct (month_name_head m Hm) as (c & t & Em & Hc).
  unfold strftime in Es. rewrite Em in Es.
  inversion HY as [c1 c2 c3 c4 v1 v2 v3 v4 H1 H2 H3 H4 EY Ey]. subst Y.
  cbn [app] in Es. injection Es as Ec _. subst c1.
  rewrite (upper_not_decimal c Hc) in H1. discriminate.
Qed.

(** X13.  [format_date] returns what it has written as it is: a date
    string that was reformatted once is not changed by a second call,
    and a string that was passed through is passed through again. *)
Theorem format_date_twice (s : str) :
  format_date (DStr (format_date (DStr s))) = format_date (DStr s).
Proof.
  cbn [format_date].
  destruct (strptime s) as [[[y m] d]|] eqn:E.
  - apply strptime_accepted in E as (Y & M & D & _ & _ & _ & _ & Hv).
    unfold valid_date in Hv.
    repeat (apply andb_true_iff in Hv as [Hv ?]).
    rewrite strftime_not_parsed; [reflexivity|].
    split; apply N.leb_le; assumption.
  - now rewrite E.
Qed.

End DatesAgain.
(* ================================================================== *)
(** * More on the slug *)
(* ================================================================== *)

Section Pieces.

Variable p : char -> bool.

(** What [strip] returns is a piece of the text. *)
Lemma strip_of_middle (s : str) :
  exists pre suf, s = pre ++ strip_of p s ++ suf.
Proof.
  unfold strip_of, rstrip_of.
  destruct (lstrip_of_suffix p s) as (pre & E & _).
  destruct (lstrip_of_suffix p (rev (lstrip_of p s))) as (pre' & E' & _).
  exists pre, (rev pre').
  rewrite <- rev_app_distr, <- E', rev_involutive. exact E.
Qed.

Lemma strip_of_no_leading (s : str) :
  Spec.no_leading p (strip_of p s) = true.
Proof.
  unfold strip_of. pose proof (lstrip_of_no_leading p s) as H.
  destruct (lstrip_of p s) as [|c t]; [reflexivity|].
  destruct (rstrip_of_head p c t H) as (t' & ->).
  cbn [Spec.no_leading]. now rewrite H.
Qed.

Lemma strip_of_no_trailing (s : str) :
  Spec.no_leading p (rev (strip_of p s)) = true.
Proof.
  unfold strip_of, rstrip_of. rewrite rev_involutive.
  pose proof (lstrip_of_no_leading p (rev (lstrip_of p s))) as H.
  destruct (lstrip_of p (rev (lstrip_of p s))) as [|c t]; [reflexivity|].
  cbn [Spec.no_leading]. now rewrite H.
Qed.

Lemma strip_of_fix (s : str) :
  Spec.no_leading p s = true -> Spec.no_leading p (rev s) = true ->
  strip_of p s = s.
Proof.
  intros H1 H2. unfold strip_of, rstrip_of.
  assert (F : forall u, Spec.no_leading p u = true -> lstrip_of p u = u).
  { intros u Hu. apply lstrip_of_fix. destruct u as [|c u]; [exact I|].
    cbn [Spec.no_leading] in Hu. now apply negb_true_iff in Hu. }
  rewrite (F s H1), (F (rev s) H2). apply rev_involutive.
Qed.

Variable q : char -> bool.

Lemma adjacent_app (a b : str) :
  Spec.adjacent q (a ++ b) = false ->
  Spec.adjacent q a = false /\ Spec.adjacent q b = false.
Proof.
  induction a as [|c a IH]; intros H; [split; [reflexivity|exact H]|].
  cbn [app Spec.adjacent] in H. apply orb_false_iff in H as [Hc H].
  destruct (IH H) as (Ha & Hb). split; [|exact Hb].
  cbn [Spec.adjacent]. rewrite Ha, orb_false_r.
  destruct a as [|d a]; [apply andb_false_r|exact Hc].
Qed.

Lemma strip_of_forallb (s : str) :
  forallb q s = true -> forallb q (strip_of p s) = true.
Proof.
  intros H. destruct (strip_of_middle s) as (pre & suf & E).
  rewrite E, !forallb_app in H.
  apply andb_true_iff in H as [_ H]. now apply andb_true_iff in H as [H _].
Qed.

Lemma strip_of_adjacent (s : str) :
  Spec.adjacent q s = false -> Spec.adjacent q (strip_of p s) = false.
Proof.
  intros H. destruct (strip_of_middle s) as (pre & suf & E).
  rewrite E in H. apply adjacent_app in H as [_ H].
  now apply adjacent_app in H as [H _].
Qed.

(** After the runs are collapsed, a character is the hyphen or a
    character of the text that is not of the class, and no two
    characters of the class are next to each other. *)
Lemma collapse_runs_chars (r : bool) (s : str) :
  forallb q s = true ->
  forallb (fun c => (c =? ch "-")%N || (q c && negb (p c)))
          (Spec.collapse_runs p r s) = true.
Proof.
  revert r; induction s as [|c s IH]; intros r H; [reflexivity|].
  cbn [forallb] in H. apply andb_true_iff in H as [Hc H].
  cbn [Spec.collapse_runs]. destruct (p c) eqn:Ep.
  - destruct r; [now apply IH|].
    cbn [forallb]. rewrite N.eqb_refl. now apply IH.
  - cbn [forallb]. rewrite Hc, Ep, orb_true_r. now apply IH.
Qed.

Lemma collapse_runs_adjacent (r : bool) (s : str) :
  Spec.adjacent p (Spec.collapse_runs p r s) = false /\
  (r = true -> Spec.no_leading p (Spec.collapse_runs p r s) = true).
Proof.
  revert r; induction s as [|c s IH]; intros r; [split; reflexivity|].
  cbn [Spec.collapse_runs]. destruct (p c) eqn:Ep.
  - destruct r; [apply IH|]. split; [|discriminate].
    destruct (IH true) as (Ha & Hl). specialize (Hl eq_refl).
    cbn [Spec.adjacent]. rewrite Ha, orb_false_r.
    destruct (Spec.collapse_runs p true s) as [|d t]; [apply andb_false_r|].
    cbn [Spec.no_leading] in Hl. apply negb_true_iff in Hl.
    rewrite Hl. apply andb_false_r.
  - destruct (IH false) as (Ha & _). split.
    + cbn [Spec.adjacent]. now rewrite Ep, Ha.
    + intros _. cbn [Spec.no_leading]. now rewrite Ep.
Qed.

(** A text in which the characters of the class are single hyphens is
    left as it is. *)
Lemma collapse_runs_fix (s : str) :
  forallb (fun c => negb (p c) || (c =? ch "-")%N) s = true ->
  Spec.adjacent p s = false ->
  Spec.collapse_runs p false s = s.
Proof.
  induction s as [|c s IH]; intros H Ha; [reflexivity|].
  cbn [forallb] in H. apply andb_true_iff in H as [Hc H].
  cbn [Spec.adjacent] in Ha. apply orb_false_iff in Ha as [Hcd Ha].
  cbn [Spec.collapse_runs]. destruct (p c) eqn:Ep.
  - cbn [negb orb] in Hc. apply N.eqb_eq in Hc. subst c. f_equal.
    destruct s as [|d s]; [reflexivity|].
    cbn [andb] in Hcd. cbn [Spec.collapse_runs]. rewrite Hcd.
    specialize (IH H Ha). cbn [Spec.collapse_runs] in IH.
    rewrite Hcd in IH. exact IH.
  - f_equal. now apply IH.
Qed.

End Pieces.

Section SlugFacts.

Context {RT : Runtime}.
Import MdToHtml.

Lemma ascii_lower_ascii (c : char) :
  is_ascii c = true ->
  is_ascii (ascii_lower c) = true /\ is_ascii_upper (ascii_lower c) = false.
Proof.
  unfold is_ascii, ascii_lower, is_ascii_upper, in_range. intros H.
  apply N.ltb_lt in H.
  destruct ((65 <=? c) && (c <=? 90))%N eqn:E.
  - apply andb_true_iff in E as [E1 E2].
    apply N.leb_le in E1. apply N.leb_le in E2. split.
    + apply N.ltb_lt. lia.
    + apply andb_false_iff. right. apply N.leb_gt. lia.
  - split; [now apply N.ltb_lt|exact E].
Qed.

Lemma lower_ascii (text : str) :
  forallb is_ascii text = true -> lower text = map ascii_lower text.
Proof. intros H. unfold lower. now rewrite H. Qed.

(** The characters of a slug. *)
Lemma slug_chars (q : char -> bool) (text : str) :
  forallb q (lower text) = true ->
  forallb (fun c => (c =? ch "-")%N
                    || ((q c && Spec.keeps c) && negb (Spec.hyphen_or_space c)))
          (Spec.slug text) = true.
Proof.
  intros H. unfold Spec.slug. apply strip_of_forallb.
  apply (collapse_runs_chars Spec.hyphen_or_space
           (fun c => q c && Spec.keeps c)).
  apply forallb_forall. intros c Hc. apply filter_In in Hc as [Hin Hk].
  rewrite forallb_forall in H. now rewrite (H c Hin), Hk.
Qed.

Lemma slug_char (text : str) (c : char) :
  In c (slugify text) ->
  c = ch "-" \/
  (is_word c = true /\ is_space c = false /\ is_hyphen c = false).
Proof.
  rewrite slugify_slug. intros Hin.
  assert (H : forallb (fun _ : char => true) (lower text) = true)
    by (apply forallb_forall; reflexivity).
  apply (slug_chars (fun _ => true) text) in H.
  rewrite forallb_forall in H. specialize (H c Hin).
  apply orb_true_iff in H as [H|H]; [left; now apply N.eqb_eq|right].
  cbn [andb] in H. apply andb_true_iff in H as [Hk Hh].
  apply negb_true_iff in Hh. unfold Spec.hyphen_or_space in Hh.
  apply orb_false_iff in Hh as [Hh Hs].
  unfold Spec.keeps in Hk. rewrite Hs, Hh, !orb_false_r in Hk.
  now repeat split.
Qed.

(** X14.  A slug is made of word characters and hyphens: it holds no
    white space, and none of the characters that would take the file
    name [article-<slug>.html] out of its directory or end it early. *)
Theorem slugify_characters (text : str) :
  forallb (fun c => is_hyphen c || is_word c) (slugify text) = true /\
  forallb (fun c => negb (is_space c)) (slugify text) = true /\
  ~ In (ch "/") (slugify text) /\
  ~ In bs (slugify text) /\
  ~ In (ch ".") (slugify text) /\
  ~ In 0%N (slugify text).
Proof.
  pose proof (slug_char text) as H.
  split; [|split; [|repeat split]].
  - apply forallb_forall. intros c Hc.
    destruct (H c Hc) as [->|(Hw & _)]; [reflexivity|].
    rewrite Hw. apply orb_true_r.
  - apply forallb_forall. intros c Hc.
    destruct (H c Hc) as [->|(_ & Hs & _)]; [reflexivity|now rewrite Hs].
  - intros Hc. destruct (H _ Hc) as [E|(Hw & _)]; discriminate.
  - intros Hc. destruct (H _ Hc) as [E|(Hw & _)]; discriminate.
  - intros Hc. destruct (H _ Hc) as [E|(Hw & _)]; discriminate.
  - intros Hc. destruct (H _ Hc) as [E|(Hw & _)]; discriminate.
Qed.

Lemma adjacent_mono (h p : char -> bool) (s : str) :
  (forall c, h c = true -> p c = true) ->
  Spec.adjacent p s = false -> Spec.adjacent h s = false.
Proof.
  intros Hhp. induction s as [|c s IH]; intros H; [reflexivity|].
  cbn [Spec.adjacent] in *. apply orb_false_iff in H as [Hc H].
  rewrite (IH H), orb_false_r.
  destruct (h c) eqn:Ec; [|reflexivity].
  rewrite (Hhp c Ec) in Hc.
  destruct s as [|d s]; [reflexivity|].
  cbn [andb] in *. destruct (h d) eqn:Ed; [|reflexivity].
  now rewrite (Hhp d Ed) in Hc.
Qed.

Lemma slug_adjacent (text : str) :
  Spec.adjacent Spec.hyphen_or_space (Spec.slug text) = false.
Proof.
  unfold Spec.slug. apply strip_of_adjacent.
  apply (collapse_runs_adjacent Spec.hyphen_or_space false).
Qed.

(** X15.  A slug does not start with a hyphen, does not end with one,
    and holds no two hyphens next to each other. *)
Theorem slugify_hyphens (text : str) :
  Spec.no_leading is_hyphen (slugify text) = true /\
  Spec.no_leading is_hyphen (rev (slugify text)) = true /\
  Spec.adjacent is_hyphen (slugify text) = false.
Proof.
  rewrite slugify_slug. split; [|split].
  - apply strip_of_no_leading.
  - apply strip_of_no_trailing.
  - apply (adjacent_mono is_hyphen Spec.hyphen_or_space).
    + intros c Hc. unfold Spec.hyphen_or_space. now rewrite Hc.
    + apply slug_adjacent.
Qed.

(** X16.  In a title of ASCII characters, a character that is not a
    word character, white space or a hyphen leaves no trace: the title
    with it and the title without it have the same slug. *)
Theorem slugify_drops_punctuation (before after : str) (c : char) :
  forallb is_ascii (before ++ c :: after) = true ->
  is_word c || is_space c || is_hyphen c = false ->
  slugify (before ++ c :: after) = slugify (before ++ after).
Proof.
  intros Ha Hc. rewrite !slugify_slug. unfold Spec.slug.
  assert (Ha' : forallb is_ascii (before ++ after) = true).
  { rewrite forallb_app in *. cbn [forallb] in Ha.
    apply andb_true_iff in Ha as [H1 H2].
    apply andb_true_iff in H2 as [_ H2]. now rewrite H1, H2. }
  rewrite (lower_ascii _ Ha), (lower_ascii _ Ha').
  rewrite !map_app, !filter_app. cbn [map filter].
  assert (E : ascii_lower c = c).
  { unfold ascii_lower. destruct (is_ascii_upper c) eqn:Eu; [|reflexivity].
    exfalso. apply orb_false_iff in Hc as [Hc _].
    apply orb_false_iff in Hc as [Hc _].
    unfold is_word, is_ascii_letter in Hc.
    rewrite forallb_app in Ha. cbn [forallb] in Ha.
    apply andb_true_iff in Ha as [_ Ha]. apply andb_true_iff in Ha as [Ha _].
    rewrite Ha, Eu in Hc. discriminate. }
  rewrite E. unfold Spec.keeps at 2. now rewrite Hc.
Qed.

(** X17.  The slug of a title of ASCII characters is its own slug. *)
Theorem slugify_twice (text : str) :
  forallb is_ascii text = true ->
  slugify (slugify text) = slugify text.
Proof.
  intros Ha. rewrite !slugify_slug.
  set (s := Spec.slug text).
  pose proof (slug_chars (fun c => is_ascii c && negb (is_ascii_upper c)) text)
    as H.
  assert (Hl : forallb (fun c => is_ascii c && negb (is_ascii_upper c))
                 (lower text) = true).
  { rewrite (lower_ascii _ Ha). apply forallb_forall. intros c Hc.
    apply in_map_iff in Hc as (x & <- & Hx).
    rewrite forallb_forall in Ha.
    destruct (ascii_lower_ascii x (Ha x Hx)) as (-> & ->). reflexivity. }
  specialize (H Hl). fold s in H. rewrite forallb_forall in H.
  assert (P : forall c, In c s ->
                is_ascii c = true /\ is_ascii_upper c = false /\
                Spec.keeps c = true /\
                (Spec.hyphen_or_space c = false \/ c = ch "-")).
  { intros c Hc. specialize (H c Hc).
    apply orb_true_iff in H as [H|H].
    - apply N.eqb_eq in H. subst c. repeat split. now right.
    - apply andb_true_iff in H as [H Hh]. apply andb_true_iff in H as [H Hk].
      apply andb_true_iff in H as [H1 H2].
      apply negb_true_iff in H2. apply negb_true_iff in Hh.
      repeat split; try assumption. now left. }
  assert (E1 : lower s = s).
  { rewrite lower_ascii
      by (apply forallb_forall; intros c Hc; now destruct (P c Hc)).
    rewrite <- (map_id s) at 2. apply map_ext_in. intros c Hc.
    destruct (P c Hc) as (_ & Hu & _). unfold ascii_lower. now rewrite Hu. }
  assert (E2 : filter Spec.keeps s = s).
  { apply forallb_filter_id. apply forallb_forall. intros c Hc.
    now destruct (P c Hc) as (_ & _ & Hk & _). }
  assert (E3 : Spec.collapse_runs Spec.hyphen_or_space false s = s).
  { apply collapse_runs_fix; [|apply slug_adjacent].
    apply forallb_forall. intros c Hc.
    destruct (P c Hc) as (_ & _ & _ & [Hh| ->]);
      [now rewrite Hh|apply orb_true_r]. }
  unfold Spec.slug at 1. fold s. rewrite E1, E2, E3.
  apply strip_of_fix.
  - apply strip_of_no_leading.
  - apply strip_of_no_trailing.
Qed.

End SlugFacts.

Lemma slugify_drops_punctuation_witness :
  forallb is_ascii (lit "My Post" ++ ch ":" :: lit " Part 2") = true /\
  @MdToHtml.slugify ascii_runtime (lit "My Post" ++ ch ":" :: lit " Part 2") =
  @MdToHtml.slugify ascii_runtime (lit "My Post" ++ lit " Part 2").
Proof.
  split; [reflexivity|].
  apply (@slugify_drops_punctuation ascii_runtime
           (lit "My Post") (lit " Part 2") (ch ":")); reflexivity.
Defined.

Lemma slugify_twice_witness :
  forallb is_ascii (lit "My Post: Part 2!") = true /\
  @MdToHtml.slugify ascii_runtime
    (@MdToHtml.slugify ascii_runtime (lit "My Post: Part 2!")) =
  @MdToHtml.slugify ascii_runtime (lit "My Post: Part 2!").
Proof.
  split; [reflexivity|].
  apply (@slugify_twice ascii_runtime (lit "My Post: Part 2!")). reflexivity.
Defined.
(* ================================================================== *)
(** * More on the converter *)
(* ================================================================== *)

Section Page.

Import MdToHtml.
Variable CSS_STYLES NAVIGATION : str.

Local Abbreviation page := (generate_html_template CSS_STYLES NAVIGATION).

(** X18.  The title and the date add no markup to a page: whatever
    they hold, the page has as many angle brackets, double quotes and
    apostrophes as the page with an empty title and no date. *)
Theorem page_fields_add_no_markup (title date content_html : str) (c : char) :
  Spec.is_markup c = true ->
  Spec.count c (page title date content_html) =
  Spec.count c (page [] [] content_html).
Proof.
  intros H. unfold generate_html_template. cbv zeta.
  destruct date as [|d date]; cbn [join];
    rewrite !count_app, !(count_escape c _ H); reflexivity.
Qed.

End Page.

Lemma page_fields_add_no_markup_witness :
  Spec.is_markup (ch "<") = true /\
  Spec.count (ch "<")
    (MdToHtml.generate_html_template [] [] (lit "<b>Tom & Jerry</b>")
       (lit "<2024>") (lit "<p>Hello</p>")) =
  Spec.count (ch "<")
    (MdToHtml.generate_html_template [] [] [] [] (lit "<p>Hello</p>")).
Proof.
  split; [reflexivity|].
  apply (page_fields_add_no_markup [] [] (lit "<b>Tom & Jerry</b>")
           (lit "<2024>") (lit "<p>Hello</p>") (ch "<")).
  reflexivity.
Defined.

Section Conversion.

Import MdToHtml.
Context {RT : Runtime}.
Variable CSS_STYLES NAVIGATION : str.
Variable env : Env.
Variable io_error : str.

Local Abbreviation convert :=
  (convert_markdown_to_html CSS_STYLES NAVIGATION env io_error).
Local Abbreviation page := (generate_html_template CSS_STYLES NAVIGATION).
Local Abbreviation status := (exit_code CSS_STYLES NAVIGATION env io_error).

(** The directory the page goes to. *)
Local Abbreviation directory output_dir :=
  (match output_dir with
   | Some (c :: d) => c :: d
   | _ => lit "posts"
   end).

(** The cases of [convert_markdown_to_html], taken apart. *)
Ltac convert_cases :=
  unfold convert_markdown_to_html; cbv zeta;
  repeat (match goal with
          | |- context [match load_post ?e ?p with _ => _ end] =>
              destruct (load_post e p) as [?post|] eqn:?
          | |- context [match meta_title ?p with _ => _ end] =>
              destruct (meta_title p) as [[?title|]|] eqn:?
          | |- context [match write_fails ?e ?p with _ => _ end] =>
              destruct (write_fails e p) as [|?kept|] eqn:?
          | |- context [if ?b then _ else _] =>
              match b with
              | context [if _ then _ else _] => fail 1
              | _ => destruct b eqn:?
              end
          end; cbv beta iota);
  cbn [result stdout written].

(** X19.  The conversion leaves one file at most, and its name is
    always [article-<slug>.html] with the slug of a title.  When the
    conversion returns the path, the file holds the page of that title;
    when it returns [None], a file is left only by the block that
    writes it, which then failed; when an exception leaves the
    conversion, no file was opened. *)
Theorem convert_writes_one_article
        (md_file_path : str) (output_dir : option str) :
  match result (convert md_file_path output_dir) with
  | Returned (Some html_file_path) =>
      exists title date content_html : str,
        html_file_path =
          path_join env (directory output_dir)
            (lit "article-" ++ slugify title ++ lit ".html") /\
        written (convert md_file_path output_dir) =
          [(html_file_path, page title date content_html)]
  | Returned None =>
      written (convert md_file_path output_dir) = [] \/
      exists title text : str,
        write_ok env (path_join env (directory output_dir)
                        (lit "article-" ++ slugify title ++ lit ".html"))
          = false /\
        written (convert md_file_path output_dir) =
          [(path_join env (directory output_dir)
              (lit "article-" ++ slugify title ++ lit ".html"), text)]
  | Uncaught => written (convert md_file_path output_dir) = []
  end.
Proof.
  convert_cases; try reflexivity; try (left; reflexivity);
    try (eexists; eexists; eexists; split; reflexivity);
    right; eexists; eexists; (split; [eassumption|reflexivity]).
Qed.

(** X20.  A relative path that names no file is looked up in
    [drafts/]: when the file is there, the conversion returns and writes
    what it returns and writes for the path in [drafts/]. *)
Theorem convert_looks_in_drafts (md_file_path : str) (output_dir : option str) :
  path_exists env md_file_path = false ->
  path_is_absolute env md_file_path = false ->
  path_exists env (path_join env (lit "drafts") md_file_path) = true ->
  result (convert md_file_path output_dir) =
    result (convert (path_join env (lit "drafts") md_file_path) output_dir) /\
  written (convert md_file_path output_dir) =
    written (convert (path_join env (lit "drafts") md_file_path) output_dir).
Proof.
  intros H1 H2 H3. unfold convert_markdown_to_html.
  rewrite H1, H2, H3. cbn [negb andb]. rewrite H3. cbn [negb].
  destruct (load_post env (path_join env (lit "drafts") md_file_path))
    as [post|]; [|split; reflexivity].
  cbv zeta.
  destruct (negb (mkdir_ok env _)); [split; reflexivity|].
  destruct (meta_title post) as [[title|]|]; [|split; reflexivity|];
    destruct (write_ok env _); split; reflexivity.
Qed.

(** X21.  A post with no title and no date in its front matter is
    converted under the title [Untitled]: the file is
    [posts/article-untitled.html], and the page has an empty date. *)
Theorem convert_without_front_matter (md_file_path : str) (post : Post) :
  path_exists env md_file_path = true ->
  load_post env md_file_path = Some post ->
  meta_title post = None ->
  meta_date post = None ->
  mkdir_ok env (lit "posts") = true ->
  write_ok env (path_join env (lit "posts") (lit "article-untitled.html")) = true ->
  convert md_file_path None =
  {| result :=
       Returned (Some (path_join env (lit "posts") (lit "article-untitled.html")));
     stdout :=
       [[check_mark] ++ lit " Converted '" ++ path_name env md_file_path
        ++ lit "' to 'posts/article-untitled.html'"];
     written :=
       [(path_join env (lit "posts") (lit "article-untitled.html"),
         page (lit "Untitled") [] (markdown_convert env (content post)))] |}.
Proof.
  intros H1 H2 H3 H4 H5 H6.
  assert (E : lit "article-" ++ slugify (lit "Untitled") ++ lit ".html" =
              lit "article-untitled.html").
  { rewrite slugify_slug. vm_compute. reflexivity. }
  unfold convert_markdown_to_html.
  rewrite H1. cbn [negb andb]. rewrite H1. cbn [negb].
  rewrite H2, H3, H4. cbn [truthy].
  rewrite H5. cbn [negb]. rewrite E, H6. reflexivity.
Qed.

(** X22.  The line of success names the page under [posts/], also when
    the page was written to the directory given on the command line. *)
Theorem convert_message_names_posts
        (md_file_path output_dir html_file_path : str) :
  output_dir <> [] ->
  result (convert md_file_path (Some output_dir)) =
    Returned (Some html_file_path) ->
  exists source html_filename : str,
    html_file_path = path_join env output_dir html_filename /\
    stdout (convert md_file_path (Some output_dir)) =
      [[check_mark] ++ lit " Converted '" ++ source
       ++ lit "' to 'posts/" ++ html_filename ++ lit "'"].
Proof.
  intros Hd. destruct output_dir as [|c d]; [congruence|].
  convert_cases; intros H; try discriminate;
    injection H as <-; eexists; eexists; split; reflexivity.
Qed.

(** X23.  The directory of the pages is made outside the handlers of
    the conversion: when the input is found and read and the directory,
    the default one or the one given, cannot be made, the exception
    leaves [convert_markdown_to_html], nothing is printed or written,
    and the process ends with status 1. *)
Theorem convert_mkdir_failure
        (prog md_file_path : str) (output_dir : option str) (post : Post) :
  path_exists env md_file_path = true ->
  load_post env md_file_path = Some post ->
  mkdir_ok env (directory output_dir) = false ->
  convert md_file_path output_dir =
    {| result := Uncaught; stdout := []; written := [] |} /\
  status (prog :: md_file_path ::
          match output_dir with Some dir => [dir] | None => [] end) = 1%N.
Proof.
  intros H1 H2 H3.
  assert (E : convert md_file_path output_dir =
              {| result := Uncaught; stdout := []; written := [] |}).
  { unfold convert_markdown_to_html.
    rewrite H1. cbn [negb andb]. rewrite H1. cbn [negb].
    rewrite H2. cbv zeta. rewrite H3. reflexivity. }
  split; [exact E|].
  unfold exit_code, main.
  destruct output_dir as [dir|]; cbn [length Nat.ltb Nat.leb nth];
    now rewrite E.
Qed.

(** X26.  A title that is not a string, as a [title:] key with no value
    gives, is not caught: when the input is found and read, [slugify]
    raises outside every handler, unless making the directory has
    raised before it; nothing is printed, no file is written, and the
    process ends with status 1. *)
Theorem convert_title_not_a_string
        (prog md_file_path : str) (output_dir : option str) (post : Post) :
  path_exists env md_file_path = true ->
  load_post env md_file_path = Some post ->
  meta_title post = Some TitleOther ->
  convert md_file_path output_dir =
    {| result := Uncaught; stdout := []; written := [] |} /\
  status (prog :: md_file_path ::
          match output_dir with Some dir => [dir] | None => [] end) = 1%N.
Proof.
  intros H1 H2 H3.
  assert (E : convert md_file_path output_dir =
              {| result := Uncaught; stdout := []; written := [] |}).
  { unfold convert_markdown_to_html.
    rewrite H1. cbn [negb andb]. rewrite H1. cbn [negb].
    rewrite H2, H3. cbv zeta.
    destruct (negb (mkdir_ok env _)); reflexivity. }
  split; [exact E|].
  unfold exit_code, main.
  destruct output_dir as [dir|]; cbn [length Nat.ltb Nat.leb nth];
    now rewrite E.
Qed.

End Conversion.

Lemma convert_looks_in_drafts_witness :
  MdToHtml.result
    (@MdToHtml.convert_markdown_to_html ascii_runtime [] []
       (Spec.drafts_env true) [] (lit "post.md") None) =
  Returned (Some (lit "posts/article-untitled.html")) /\
  MdToHtml.result
    (@MdToHtml.convert_markdown_to_html ascii_runtime [] []
       (Spec.drafts_env true) [] (lit "post.md") None) =
  MdToHtml.result
    (@MdToHtml.convert_markdown_to_html ascii_runtime [] []
       (Spec.drafts_env true) [] (lit "drafts/post.md") None).
Proof.
  split; [vm_compute; reflexivity|].
  apply (@convert_looks_in_drafts ascii_runtime [] [] (Spec.drafts_env true)
           [] (lit "post.md") None); reflexivity.
Defined.

Lemma convert_without_front_matter_witness :
  MdToHtml.written
    (@MdToHtml.convert_markdown_to_html ascii_runtime [] []
       (Spec.drafts_env true) [] (lit "drafts/post.md") None) =
  [(lit "posts/article-untitled.html",
    MdToHtml.generate_html_template [] [] (lit "Untitled") []
      (lit "<p>Hello</p>"))] /\
  MdToHtml.stdout
    (@MdToHtml.convert_markdown_to_html ascii_runtime [] []
       (Spec.drafts_env true) [] (lit "drafts/post.md") None) =
  [[check_mark] ++ lit " Converted 'post.md' to 'posts/article-untitled.html'"].
Proof.
  rewrite (@convert_without_front_matter ascii_runtime [] []
             (Spec.drafts_env true) [] (lit "drafts/post.md") Spec.bare_post
             eq_refl eq_refl eq_refl eq_refl eq_refl eq_refl).
  split; reflexivity.
Defined.

Lemma convert_message_names_posts_witness :
  exists source html_filename : str,
    lit "out/article-untitled.html" =
      MdToHtml.path_join (Spec.drafts_env true) (lit "out") html_filename /\
    MdToHtml.stdout
      (@MdToHtml.convert_markdown_to_html ascii_runtime [] []
         (Spec.drafts_env true) [] (lit "post.md") (Some (lit "out"))) =
    [[check_mark] ++ lit " Converted '" ++ source
     ++ lit "' to 'posts/" ++ html_filename ++ lit "'"].
Proof.
  apply (@convert_message_names_posts ascii_runtime [] []
           (Spec.drafts_env true) [] (lit "post.md") (lit "out")
           (lit "out/article-untitled.html")).
  - discriminate.
  - vm_compute. reflexivity.
Defined.

Lemma convert_mkdir_failure_witness :
  @MdToHtml.convert_markdown_to_html ascii_runtime [] []
    (Spec.drafts_env false) [] (lit "drafts/post.md") None =
  {| MdToHtml.result := Uncaught;
     MdToHtml.stdout := [];
     MdToHtml.written := [] |} /\
  @MdToHtml.exit_code ascii_runtime [] [] (Spec.drafts_env false) []
    [lit "md_to_html.py"; lit "drafts/post.md"] = 1%N.
Proof.
  apply (@convert_mkdir_failure ascii_runtime [] [] (Spec.drafts_env false)
           [] (lit "md_to_html.py") (lit "drafts/post.md") None
           Spec.bare_post);
    reflexivity.
Defined.

Lemma convert_title_not_a_string_witness :
  @MdToHtml.convert_markdown_to_html ascii_runtime [] []
    Spec.null_title_env [] (lit "drafts/post.md") None =
  {| MdToHtml.result := Uncaught;
     MdToHtml.stdout := [];
     MdToHtml.written := [] |} /\
  @MdToHtml.exit_code ascii_runtime [] [] Spec.null_title_env []
    [lit "md_to_html.py"; lit "drafts/post.md"] = 1%N.
Proof.
  apply (@convert_title_not_a_string ascii_runtime [] [] Spec.null_title_env
           [] (lit "md_to_html.py") (lit "drafts/post.md") None
           Spec.null_title_post);
    reflexivity.
Defined.
(* ================================================================== *)
(** * What the substitution writes, and a second run *)
(* ================================================================== *)

Section Region.

Import BookRegistry.
Context {RT : Runtime}.

(** With fragments that hold no backslash and no end of a list, the
    substitution step returns the scan of the first pattern. *)
Lemma splice_plain_scan (summary_html detail_html html_content : str) :
  Spec.no_list_end summary_html = true ->
  Spec.no_list_end detail_html = true ->
  Spec.no_backslash summary_html = true ->
  Spec.no_backslash detail_html = true ->
  splice summary_html detail_html html_content =
  Some (sub_loop pattern
          (map TChar (Spec.replacement_text summary_html detail_html)
           ++ [TGroup 2]) 0 html_content).
Proof.
  intros HSc HDc HS HD.
  pose proof (sub_loop_again summary_html detail_html HSc HDc
                (length html_content) html_content (le_n _)) as Hf.
  cbv zeta in Hf. destruct Hf as (_ & H2 & _ & _).
  unfold splice, Re.sub.
  rewrite (template_plain 2 group_name_index (ch "2") 2 (group_reference_2 _)
             summary_html detail_html HS HD).
  rewrite (template_plain 4 group_name_index (ch "4") 4 (group_reference_4 _)
             summary_html detail_html HS HD).
  set (A := sub_loop pattern _ 0 html_content) in *.
  destruct (PyStr.eqb A html_content) eqn:E; [|reflexivity].
  apply eqb_eq in E. rewrite <- E. now rewrite H2.
Qed.

(** The text before the first offset at which the pattern matches is
    copied. *)
Lemma sub_loop_prefix (r : regex) (tpl : list titem) (pre rest : str) :
  (forall i, i < length pre -> match_at r (skipn i (pre ++ rest)) = None) ->
  sub_loop r tpl 0 (pre ++ rest) = pre ++ sub_loop r tpl 0 rest.
Proof.
  induction pre as [|c pre IH]; intros H; [reflexivity|].
  cbn [app]. rewrite sub_loop_copy.
  - f_equal. apply IH. intros i Hi.
    apply (H (Datatypes.S i)). cbn [length]. lia.
  - apply (H 0). cbn [length]. lia.
Qed.

(** X24.  With records that hold no backslash, the first match of the
    first pattern in a page is replaced by the two lists of the records,
    wrapped as the script writes them: the text before the match is
    kept; then comes the replacement with the lists; then the last group
    of the match, the white space and [</main>] that follow the closing
    [</div>] of the region; then what the substitution makes of the text
    after the match. *)
Theorem splice_writes_fragments
        (books : list Book) (before rest : str) (st : mstate) :
  forallb Spec.plain_book books = true ->
  (forall i, i < length before ->
             match_at pattern (skipn i (before ++ rest)) = None) ->
  match_at pattern rest = Some st ->
  exists new_after : str,
    splice (fst (generate_book_html books)) (snd (generate_book_html books))
           (skipn (pos st) rest) = Some new_after /\
    splice (fst (generate_book_html books)) (snd (generate_book_html books))
           (before ++ rest) =
    Some (before
          ++ Spec.replacement_text (fst (generate_book_html books))
                                   (snd (generate_book_html books))
          ++ group_text rest st 2 ++ new_after) /\
    exists inner w : str,
      firstn (pos st) rest = inner ++ lit "</div>" ++ w ++ lit "</main>" /\
      group_text rest st 2 = w ++ lit "</main>" /\
      forallb is_space w = true.
Proof.
  intros Hp Hno Hm.
  destruct (generate_book_html_plain books Hp) as (HSc & HDc & HS & HD).
  set (summary_html := fst (generate_book_html books)) in *.
  set (detail_html := snd (generate_book_html books)) in *.
  destruct (match_region pattern Spec.HEAD 2 ltac:(discriminate)
              match_at_pattern rest st Hm)
    as (region & t & after & Er & Mh & (w & -> & Hw) & Hpos & Hg).
  destruct (head_closed region Mh) as (inner & ->).
  assert (Hlen : 0 < pos st <= length rest).
  { pose proof (f_equal (@length char) Er) as El.
    rewrite Hpos. rewrite !length_app in *. simpl in *. lia. }
  assert (Ek : skipn (pos st) rest = after).
  { rewrite Hpos, Er.
    replace ((inner ++ lit "</div>") ++ (w ++ lit "</main>") ++ after)
      with (((inner ++ lit "</div>") ++ w ++ lit "</main>") ++ after)
      by (now rewrite <- !app_assoc).
    now rewrite skipn_app, skipn_all, Nat.sub_diag. }
  assert (Ef : firstn (pos st) rest
               = inner ++ lit "</div>" ++ w ++ lit "</main>").
  { rewrite Hpos, Er.
    replace ((inner ++ lit "</div>") ++ (w ++ lit "</main>") ++ after)
      with (((inner ++ lit "</div>") ++ w ++ lit "</main>") ++ after)
      by (now rewrite <- !app_assoc).
    rewrite firstn_app, firstn_all, Nat.sub_diag. cbn [firstn].
    now rewrite app_nil_r, <- !app_assoc. }
  exists (sub_loop pattern
            (map TChar (Spec.replacement_text summary_html detail_html)
             ++ [TGroup 2]) 0 after).
  split; [rewrite Ek; now apply splice_plain_scan|].
  split; [|exists inner, w; repeat split; assumption].
  rewrite (splice_plain_scan _ _ _ HSc HDc HS HD). f_equal.
  rewrite (sub_loop_prefix pattern _ before rest Hno). f_equal.
  rewrite (sub_loop_match pattern _ rest st Hm) by lia.
  rewrite Ek. unfold expand. rewrite flat_map_app.
  cbn [flat_map expand_item]. rewrite app_nil_r, <- !app_assoc.
  f_equal. apply expand_chars.
Qed.

End Region.

Lemma splice_writes_fragments_witness :
  exists (st : mstate) (new_after : str),
    match_at BookRegistry.pattern (Spec.legacy_list ++ lit " </main><p/>")
      = Some st /\
    group_text (Spec.legacy_list ++ lit " </main><p/>") st 2 = lit " </main>" /\
    @BookRegistry.splice ascii_runtime
      (fst (BookRegistry.generate_book_html [Spec.example_book]))
      (snd (BookRegistry.generate_book_html [Spec.example_book]))
      (skipn (pos st) (Spec.legacy_list ++ lit " </main><p/>"))
      = Some new_after /\
    @BookRegistry.splice ascii_runtime
      (fst (BookRegistry.generate_book_html [Spec.example_book]))
      (snd (BookRegistry.generate_book_html [Spec.example_book]))
      (lit "<main>" ++ Spec.legacy_list ++ lit " </main><p/>") =
    Some (lit "<main>"
          ++ Spec.replacement_text
               (fst (BookRegistry.generate_book_html [Spec.example_book]))
               (snd (BookRegistry.generate_book_html [Spec.example_book]))
          ++ group_text (Spec.legacy_list ++ lit " </main><p/>") st 2
          ++ new_after).
Proof.
  destruct (match_at BookRegistry.pattern
              (Spec.legacy_list ++ lit " </main><p/>")) as [st|] eqn:E;
    [|vm_compute in E; discriminate].
  exists st.
  destruct (@splice_writes_fragments ascii_runtime [Spec.example_book]
              (lit "<main>") (Spec.legacy_list ++ lit " </main><p/>") st)
    as (new_after & H1 & H2 & _).
  - reflexivity.
  - intros i Hi. cbn [length lit map list_ascii_of_string] in Hi.
    do 6 (destruct i as [|i]; [vm_compute; reflexivity|]). lia.
  - exact E.
  - exists new_after. split; [reflexivity|]. split.
    + vm_compute in E. injection E as <-. vm_compute. reflexivity.
    + split; assumption.
Defined.
